(** * Tileit roofing quote engine: a shallow embedding and its properties

    The quote engine is given in [docs/roofing_quote_context.md] as the two
    Python functions [calculate_quote] and [get_region_multiplier]; the
    roofer profile they consume is the [formData] object of the onboarding
    form.  This file embeds them and proves the properties the specification
    states about them.

    Modelling conventions.
    - The calculation is embedded twice.  [Engine] reads its formulas in
      exact arithmetic: numbers are rationals ([Q]), a decimal literal
      denotes its decimal value, and results are compared with [==]
      ([Qeq]); it serves the statements about which formula, bucket,
      multiplier or field the calculation uses.  [Py] reads them as Python
      runs them, over [int]s and binary64 [float]s ([Binary64]): every
      operation rounds, an [int] beyond the floats raises [OverflowError]
      when it meets a float; it serves the statements that depend on the
      digits of a result, on the rounding to cents, or on [str.lower].
    - A row is a Python [dict] from field names to values: a [gmap string
      value], where a value is [None], a number or a string (and, in [Py],
      a boolean).
    - Exceptions are the [Raise] branch of [result]; the statements of the
      source are sequenced in source order, so the first exception raised by
      the source is the one returned.
    - Strings are byte strings; in [Engine], [lower] and [split] act on
      ASCII; in [Py], [str.lower] is a parameter.
    - JavaScript numbers are binary64 values too: [parseFloat] rounds the
      decimal it reads to the nearest one. *)

From Stdlib Require Import QArith Qround Qpower Lqa ZArith Lia Ascii String.
From stdpp Require Import gmap strings list pretty.

Module Engine.

(** ** Python values and exceptions *)

Inductive value : Type :=
  | VNone
  | VNum (q : Q)
  | VStr (s : string).

Inductive exn : Type :=
  | TypeError
  | AttributeError
  | KeyError
  | IndexError
  | ZeroDivisionError.

Inductive result (A : Type) : Type :=
  | Ok (a : A)
  | Raise (e : exn).
Arguments Ok {A} a.
Arguments Raise {A} e.

Definition bind {A B : Type} (c : result A) (k : A -> result B) : result B :=
  match c with
  | Ok a => k a
  | Raise e => Raise e
  end.

Notation "'let*' x ':=' c 'in' k" := (bind c (fun x => k))
  (at level 10, x name, c at level 100, k at level 200).

(** [o.lower()], [x * y], [x / y], [x > y], [x <= y] on Python values whose
    right operand is a number.  A string times an integer is a repeated
    string in Python and raises nothing; [calculate_quote] multiplies only
    the area, which it compares with a number in its next statement, and a
    repair area it has just compared with 0, and such a comparison raises
    [TypeError] on a string, so the exception of [mul] is the one the source
    ends with. *)

Definition lower_ascii (c : ascii) : ascii :=
  let n := nat_of_ascii c in
  if ((65 <=? n) && (n <=? 90))%nat then ascii_of_nat (n + 32) else c.

Fixpoint lower_string (s : string) : string :=
  match s with
  | EmptyString => EmptyString
  | String c s' => String (lower_ascii c) (lower_string s')
  end.

Definition lower (v : value) : result string :=
  match v with
  | VStr s => Ok (lower_string s)
  | _ => Raise AttributeError
  end.

Definition mul (v : value) (q : Q) : result Q :=
  match v with
  | VNum x => Ok (x * q)%Q
  | _ => Raise TypeError
  end.

Definition div (v : value) (q : Q) : result Q :=
  match v with
  | VNum x => if Qeq_bool q 0 then Raise ZeroDivisionError else Ok (x / q)%Q
  | _ => Raise TypeError
  end.

Definition Qgt_bool (x y : Q) : bool := negb (Qle_bool x y).

Definition gt (v : value) (q : Q) : result bool :=
  match v with
  | VNum x => Ok (Qgt_bool x q)
  | _ => Raise TypeError
  end.

Definition le (v : value) (q : Q) : result bool :=
  match v with
  | VNum x => Ok (Qle_bool x q)
  | _ => Raise TypeError
  end.

(** [row.get(key, default)] *)
Definition get (row : gmap string value) (key : string) (dflt : value) : value :=
  default dflt (row !! key).

(** [s.split()]: the maximal runs of non-whitespace characters. *)
Definition is_space (c : ascii) : bool :=
  let n := nat_of_ascii c in
  ((9 <=? n) && (n <=? 13) || (28 <=? n) && (n <=? 32))%nat.

Fixpoint split_from (s : string) (word : string) : list string :=
  match s with
  | EmptyString => if String.eqb word "" then [] else [word]
  | String c s' =>
      if is_space c
      then if String.eqb word "" then split_from s' "" else word :: split_from s' ""
      else split_from s' (word +:+ String c "")
  end.

Definition split (s : string) : list string := split_from s "".

(** [l[0]] *)
Definition item0 (l : list string) : result string :=
  match l with
  | [] => Raise IndexError
  | w :: _ => Ok w
  end.

(** [round(x, ndigits)]: to the nearest multiple of [10^-ndigits], a tie
    going to the even one. *)
Definition round_half_even (x : Q) : Z :=
  let f := Qfloor x in
  match (x - inject_Z f ?= 1 # 2)%Q with
  | Lt => f
  | Gt => (f + 1)%Z
  | Eq => if Z.even f then f else (f + 1)%Z
  end.

Definition round (x : Q) (ndigits : nat) : Q :=
  let scale := inject_Z (10 ^ Z.of_nat ndigits) in
  (inject_Z (round_half_even (x * scale)) / scale)%Q.

(** ** The roofer profile (the onboarding form's [formData]) *)

Inductive crew_scaling_rule : Type :=
  | size_only
  | size_and_complexity.

Record slope_adjustment : Type := {
  flat_low : Q;
  moderate : Q;
  steep : Q;
  very_steep : Q
}.

Record roofer : Type := {
  region_zip : string;
  labor_rate : Q;
  daily_productivity : Q;
  base_crew_size : Z;
  crew_scaling : crew_scaling_rule;
  slope_cost_adjustment : slope_adjustment;
  material_costs : gmap string Q;
  replacement_costs : gmap string Q;
  overhead_percent : Q;
  profit_margin : Q
}.

(** ** [get_region_multiplier] *)

(** [s.startswith(tuple(prefixes))] *)
Definition startswith (s : string) (prefixes : list string) : bool :=
  existsb (fun p => String.prefix p s) prefixes.

(** [str(zip_code)] of a string is the string. *)
Definition str (zip_code : string) : string := zip_code.

Definition high_cost_zips : list string := ["100"; "90"; "94"; "11"].
Definition low_cost_zips : list string := ["83"; "59"; "35"; "73"].

(** The body of [get_region_multiplier], over its two prefix lists. *)
Definition region_multiplier (high low : list string) (zip_code : string) : Q :=
  if startswith (str zip_code) high then 1.25%Q
  else if startswith (str zip_code) low then 0.85%Q
  else 1.0%Q.

Definition get_region_multiplier (zip_code : string) : Q :=
  region_multiplier high_cost_zips low_cost_zips zip_code.

(** ** [calculate_quote] *)

(** Step 1, the extraction of the five primary fields. *)
Record extracted : Type := {
  x_area : value;
  x_pitch : value;
  x_height : value;
  x_material : string;
  x_condition : value
}.

Definition extract (row : gmap string value) : result extracted :=
  let area := get row "roof_area" (VNum 2500) in
  let pitch := get row "pitch" (VNum 15) in
  let height := get row "height_ft" (VNum 15) in
  let* material := lower (get row "roof_material" (VStr "asphalt")) in
  let condition := get row "roof_condition_summary_score" (VNum 80) in
  Ok {| x_area := area; x_pitch := pitch; x_height := height;
        x_material := material; x_condition := condition |}.

(** Step 3, the crew size. *)
Definition crew_size_of (area pitch height : value) (r : roofer) : result Z :=
  let crew_size := base_crew_size r in
  let* big := gt area 3000 in
  let crew_size := if big then (crew_size + 1)%Z else crew_size in
  let* huge := gt area 5000 in
  let crew_size := if huge then (crew_size + 1)%Z else crew_size in
  let* hard := (let* p := gt pitch 30 in if p then Ok true else gt height 25) in
  let crew_size := if hard then (crew_size + 1)%Z else crew_size in
  Ok crew_size.

(** Step 5, the slope bucket. *)
Definition slope_factor_of (slope : value) (r : roofer) : result Q :=
  let* b15 := le slope 15 in
  if b15 then Ok (flat_low (slope_cost_adjustment r))
  else
    let* b30 := le slope 30 in
    if b30 then Ok (moderate (slope_cost_adjustment r))
    else
      let* b45 := le slope 45 in
      if b45 then Ok (steep (slope_cost_adjustment r))
      else Ok (very_steep (slope_cost_adjustment r)).

(** Step 6, the repair loop over the listed fields. *)
Definition repair_fields : list string :=
  ["shingle repair area (sqm)"; "tile repair area (sqm)"; "metal repair area (sqm)"].

Fixpoint repair_loop (fs : list string) (row : gmap string value) (r : roofer)
    (repair_cost : Q) : result Q :=
  match fs with
  | [] => Ok repair_cost
  | f :: fs' =>
      match row !! f with
      | None => repair_loop fs' row r repair_cost
      | Some v =>
          let* positive := gt v 0 in
          if positive then
            let* mat := item0 (split f) in
            let rate := default 50%Q (replacement_costs r !! mat) in
            let* cost := mul v rate in
            repair_loop fs' row r (repair_cost + cost)%Q
          else repair_loop fs' row r repair_cost
      end
  end.

(** The values [calculate_quote] has computed when it returns.  The source
    assigns [labor_cost] twice: [base_labor_cost] is its value before the
    slope adjustment, [labor_cost] its value after; [crew_size_used] is the
    final [crew_size], under the name of the output example. *)
Record quote : Type := {
  material_cost : Q;
  crew_size_used : Z;
  hours : Q;
  base_labor_cost : Q;
  slope_factor : Q;
  labor_cost : Q;
  repair_cost : Q;
  regional_multiplier : Q;
  subtotal : Q;
  overhead : Q;
  profit : Q;
  total : Q;
  quote_range : Q * Q
}.

Definition quote_locals (row : gmap string value) (r : roofer) : result quote :=
  let* x := extract row in
  let region := region_zip r in
  let* material_cost := mul (x_area x) (default 5.0%Q (material_costs r !! x_material x)) in
  let* crew_size := crew_size_of (x_area x) (x_pitch x) (x_height x) r in
  let* days := div (x_area x) (daily_productivity r) in
  let hours := (days * 8)%Q in
  let labor_cost0 := (hours * labor_rate r * inject_Z crew_size)%Q in
  let* slope_factor := slope_factor_of (x_pitch x) r in
  let labor_cost := (labor_cost0 * (1 + slope_factor))%Q in
  let* repair_cost := repair_loop repair_fields row r 0%Q in
  let regional_multiplier := get_region_multiplier region in
  let subtotal := ((material_cost + labor_cost + repair_cost) * regional_multiplier)%Q in
  let overhead := (subtotal * overhead_percent r)%Q in
  let profit := ((subtotal + overhead) * profit_margin r)%Q in
  let total := (subtotal + overhead + profit)%Q in
  Ok {| material_cost := material_cost;
        crew_size_used := crew_size;
        hours := hours;
        base_labor_cost := labor_cost0;
        slope_factor := slope_factor;
        labor_cost := labor_cost;
        repair_cost := repair_cost;
        regional_multiplier := regional_multiplier;
        subtotal := subtotal;
        overhead := overhead;
        profit := profit;
        total := total;
        quote_range := (round (total * 0.9) 2, round (total * 1.15) 2) |}.

Definition calculate_quote (row : gmap string value) (r : roofer) : result (Q * Q) :=
  let* q := quote_locals row r in Ok (quote_range q).

(** The onboarding form's initial profile, for a given ZIP. *)
Definition form_defaults (zip : string) : roofer := {|
  region_zip := zip;
  labor_rate := 45;
  daily_productivity := 2500;
  base_crew_size := 3;
  crew_scaling := size_and_complexity;
  slope_cost_adjustment :=
    {| flat_low := 0.0; moderate := 0.1; steep := 0.2; very_steep := 0.3 |};
  material_costs :=
    <["asphalt" := 4.0%Q]> (<["shingle" := 4.5%Q]> (<["metal" := 7.0%Q]>
      (<["tile" := 8.0%Q]> (<["concrete" := 6.0%Q]> ∅))));
  replacement_costs :=
    <["asphalt" := 45%Q]> (<["shingle" := 50%Q]> (<["metal" := 90%Q]>
      (<["tile" := 70%Q]> (<["concrete" := 60%Q]> ∅))));
  overhead_percent := 0.1;
  profit_margin := 0.2
|}.

(** [crew_scaling_rule] set to [rule], the other fields kept. *)
Definition with_crew_scaling (rule : crew_scaling_rule) (r : roofer) : roofer := {|
  region_zip := region_zip r;
  labor_rate := labor_rate r;
  daily_productivity := daily_productivity r;
  base_crew_size := base_crew_size r;
  crew_scaling := rule;
  slope_cost_adjustment := slope_cost_adjustment r;
  material_costs := material_costs r;
  replacement_costs := replacement_costs r;
  overhead_percent := overhead_percent r;
  profit_margin := profit_margin r
|}.

(** ** Valid profiles and records (the data model's invariants) *)

Definition Qpos_bool (x : Q) : bool := Qgt_bool x 0.

Definition all_nonneg (m : gmap string Q) : bool :=
  forallb (fun kv => Qle_bool 0 kv.2) (map_to_list m).

Definition valid_profile (r : roofer) : bool :=
  Qpos_bool (labor_rate r) && Qpos_bool (daily_productivity r)
  && (0 <? base_crew_size r)%Z
  && Qle_bool 0 (flat_low (slope_cost_adjustment r))
  && Qle_bool 0 (moderate (slope_cost_adjustment r))
  && Qle_bool 0 (steep (slope_cost_adjustment r))
  && Qle_bool 0 (very_steep (slope_cost_adjustment r))
  && all_nonneg (material_costs r) && all_nonneg (replacement_costs r)
  && Qle_bool 0 (overhead_percent r) && Qle_bool 0 (profit_margin r).

Definition is_num (v : value) : bool :=
  match v with VNum _ => true | _ => false end.

Definition is_str (v : value) : bool :=
  match v with VStr _ => true | _ => false end.

Definition num_between (lo hi : Q) (v : value) : bool :=
  match v with VNum x => Qle_bool lo x && Qle_bool x hi | _ => false end.

Definition nonneg_num (v : value) : bool :=
  match v with VNum x => Qle_bool 0 x | _ => false end.

(** A record whose fields, once defaulted, have the types of the data model:
    a non-negative area, numeric pitch and height, a material name, a
    condition score in 0..100, and numeric repair areas where present. *)
Definition valid_row (row : gmap string value) : bool :=
  nonneg_num (get row "roof_area" (VNum 2500))
  && is_num (get row "pitch" (VNum 15))
  && is_num (get row "height_ft" (VNum 15))
  && is_str (get row "roof_material" (VStr "asphalt"))
  && num_between 0 100 (get row "roof_condition_summary_score" (VNum 80))
  && forallb (fun f => is_num (get row f (VNum 0))) repair_fields.

End Engine.

Import Engine.

(** ** The batch processor *)

Module Batch.

(** Modelled from the spec: the quote result of section 3, which no source
    file declares. *)
Record quote_result : Type := {
  address : value;
  roof_material : string;
  pitch : value;
  roof_area : value;
  crew_size_used : Z;
  region_multiplier : Q;
  material_cost : Q;
  labor_cost : Q;
  repair_cost : Q;
  total : Q;
  quote_range : Q * Q
}.

(** Modelled from the spec: the reason of an error entry (sections 4.4 and
    7), which no source file declares: the identifying address is missing, or
    normalization or the calculation raised. *)
Inductive reason : Type :=
  | MissingAddress
  | Failed (e : exn).

(** Modelled from the spec: what the per-record step yields, a quote result
    or a rejection. *)
Inductive outcome : Type :=
  | Quoted (q : quote_result)
  | Rejected (why : reason).

(** Modelled from the spec: the per-record step of the batch processor
    (section 4.4), which is not in the sources: a record without its
    identifying address is rejected, and so is one on which normalization or
    the calculation raises; otherwise the quote result is assembled from the
    calculation's values. *)
Definition quote_record (profile : roofer) (raw : gmap string value) : outcome :=
  match raw !! "address" with
  | None => Rejected MissingAddress
  | Some addr =>
      match extract raw, quote_locals raw profile with
      | Ok x, Ok q =>
          Quoted {| address := addr;
                    roof_material := x_material x;
                    pitch := x_pitch x;
                    roof_area := x_area x;
                    crew_size_used := Engine.crew_size_used q;
                    region_multiplier := regional_multiplier q;
                    material_cost := Engine.material_cost q;
                    labor_cost := Engine.labor_cost q;
                    repair_cost := Engine.repair_cost q;
                    total := Engine.total q;
                    quote_range := Engine.quote_range q |}
      | Raise e, _ => Rejected (Failed e)
      | _, Raise e => Rejected (Failed e)
      end
  end.

(** Modelled from the spec: the loop of [run_batch] (section 4.4), which is
    not in the sources: records are taken in input order; a success is
    appended to [results], a failure is appended to [errors] with the index of
    its record, and the loop goes on with the next record. *)
Fixpoint batch_loop (profile : roofer) (raws : list (gmap string value)) (index : nat)
    (results : list quote_result) (errors : list (nat * reason))
    : list quote_result * list (nat * reason) :=
  match raws with
  | [] => (results, errors)
  | raw :: rest =>
      match quote_record profile raw with
      | Quoted q => batch_loop profile rest (S index) (results ++ [q]) errors
      | Rejected why => batch_loop profile rest (S index) results (errors ++ [(index, why)])
      end
  end.

(** Modelled from the spec: [run_batch(profile, raw_records)] (section 4.4),
    which is not in the sources. *)
Definition run_batch (profile : roofer) (raws : list (gmap string value))
    : list quote_result * list (nat * reason) :=
  batch_loop profile raws 0 [] [].

End Batch.

(** ** Binary64 arithmetic *)

(** The floating-point numbers of Python's [float] and of JavaScript's
    Number: a finite one is given by its value, a rational on the grid of
    binary64 (53 significant bits, exponents from -1074, below [2^1024]);
    the sign of a zero is not kept (it decides no result here: a division
    by either zero raises).  An operation is the exact operation followed by
    a rounding to the nearest float, a tie going to the even mantissa. *)
Module Binary64.

Inductive float : Type :=
  | NaN
  | Inf (negative : bool)
  | Fin (v : Q).

Definition pow2 (e : Z) : Q := Qpower 2 e.

(** For [0 < x]: the [k] with [2^k <= x < 2^(k+1)]. *)
Definition ilog2 (x : Q) : Z :=
  let k := (Z.log2 (Qnum x) - Z.log2 (Zpos (Qden x)))%Z in
  if Qle_bool (pow2 k) x then k else (k - 1)%Z.

(** The exponent of the unit in which [x] is rounded: 53 bits where [x] is
    normal, the least exponent where it is subnormal. *)
Definition exponent (x : Q) : Z := Z.max (ilog2 x - 52) (-1074).

(** A positive value on the grid: infinite from [2^1024] on. *)
Definition overflow (v : Q) : float :=
  if Qle_bool (pow2 1024) v then Inf false else Fin (Qred v).

(** The float nearest to [0 < x]. *)
Definition round_pos (x : Q) : float :=
  let e := exponent x in
  overflow (inject_Z (round_half_even (x / pow2 e)) * pow2 e).

Definition neg (f : float) : float :=
  match f with
  | NaN => NaN
  | Inf negative => Inf (negb negative)
  | Fin v => Fin (Qred (- v))
  end.

(** The float nearest to [x]. *)
Definition rnd (x : Q) : float :=
  match (x ?= 0)%Q with
  | Eq => Fin 0
  | Gt => round_pos x
  | Lt => neg (round_pos (- x))
  end.


(** The floats proper: what a rounding gives. *)
Definition representable (f : float) : Prop :=
  match f with
  | Fin v => rnd v = Fin v
  | _ => True
  end.

(** Not below zero: a NaN, or a float from 0 to infinity. *)
Definition nonneg_or_nan (f : float) : bool :=
  match f with
  | NaN => true
  | Inf negative => negb negative
  | Fin v => Qle_bool 0 v
  end.

(** The float a decimal literal denotes. *)
Definition literal (x : Q) : float := rnd x.

Definition is_zero (f : float) : bool :=
  match f with Fin v => Qeq_bool v 0 | _ => false end.

Definition negative (v : Q) : bool := negb (Qle_bool 0 v).

(** [a * b], [a + b] *)
Definition mul (a b : float) : float :=
  match a, b with
  | NaN, _ | _, NaN => NaN
  | Inf s, Inf t => Inf (xorb s t)
  | Inf s, Fin v | Fin v, Inf s =>
      if Qeq_bool v 0 then NaN else Inf (xorb s (negative v))
  | Fin u, Fin v => rnd (u * v)
  end.

Definition add (a b : float) : float :=
  match a, b with
  | NaN, _ | _, NaN => NaN
  | Inf s, Inf t => if Bool.eqb s t then Inf s else NaN
  | Inf s, Fin _ | Fin _, Inf s => Inf s
  | Fin u, Fin v => rnd (u + v)
  end.

(** [a / b] for [b] other than zero. *)
Definition div (a b : float) : float :=
  match a, b with
  | NaN, _ | _, NaN => NaN
  | Inf _, Inf _ => NaN
  | Inf s, Fin v => Inf (xorb s (negative v))
  | Fin _, Inf _ => Fin 0
  | Fin u, Fin v => rnd (u / v)
  end.

(** [a <= b] and [a < b]; false when either is NaN. *)
Definition le (a b : float) : bool :=
  match a, b with
  | NaN, _ | _, NaN => false
  | Inf true, _ => true
  | _, Inf false => true
  | Inf false, _ => false
  | _, Inf true => false
  | Fin u, Fin v => Qle_bool u v
  end.

Definition lt (a b : float) : bool :=
  match a, b with
  | NaN, _ | _, NaN => false
  | Inf true, Inf true => false
  | Inf true, _ => true
  | Inf false, _ => false
  | Fin _, Inf s => negb s
  | Fin u, Fin v => negb (Qle_bool v u)
  end.

End Binary64.

(** ** The calculation as Python runs it *)

(** [calculate_quote] and [get_region_multiplier] over Python's numbers:
    [int]s of any size and binary64 [float]s.  A row's values are those of
    a decoded CSV or JSON record: null, booleans, numbers and strings.  A
    profile is one that has every key the calculation reads, with a number
    under each (and a string as ZIP): on a profile that lacks a key, or has
    text or null under one, the source raises when it reads or uses it and
    returns nothing, so whatever is proved of a returned result here holds
    of the source's.  *)
Module Py.

Inductive exn : Type :=
  | TypeError
  | AttributeError
  | ZeroDivisionError
  | OverflowError
  | IndexError.

Inductive result (A : Type) : Type :=
  | Ok (a : A)
  | Raise (e : exn).
Arguments Ok {A} a.
Arguments Raise {A} e.

Definition bind {A B : Type} (c : result A) (k : A -> result B) : result B :=
  match c with
  | Ok a => k a
  | Raise e => Raise e
  end.

Notation "'let!' x ':=' c 'in' k" := (bind c (fun x => k))
  (at level 10, x name, c at level 100, k at level 200).

(** Python numbers: [int] and [float]. *)
Inductive num : Type :=
  | PInt (n : Z)
  | PFloat (f : Binary64.float).

Inductive value : Type :=
  | VNone
  | VBool (b : bool)
  | VNum (x : num)
  | VStr (s : string).

(** [float(n)], the conversion an [int] operand undergoes when the other
    operand is a [float]: it raises when the [int] rounds to no finite
    float. *)
Definition to_float (n : Z) : result Binary64.float :=
  match Binary64.rnd (inject_Z n) with
  | Binary64.Inf _ => Raise OverflowError
  | f => Ok f
  end.

Definition as_float (x : num) : result Binary64.float :=
  match x with
  | PInt n => to_float n
  | PFloat f => Ok f
  end.

(** [x * y], [x + y], [x / y] on numbers: exact on two [int]s (the quotient
    of two [int]s is the float nearest to it), and the float operation
    after conversion otherwise.  A zero divisor raises. *)
Definition num_mul (x y : num) : result num :=
  match x, y with
  | PInt a, PInt b => Ok (PInt (a * b))
  | _, _ =>
      let! a := as_float x in
      let! b := as_float y in
      Ok (PFloat (Binary64.mul a b))
  end.

Definition num_add (x y : num) : result num :=
  match x, y with
  | PInt a, PInt b => Ok (PInt (a + b))
  | _, _ =>
      let! a := as_float x in
      let! b := as_float y in
      Ok (PFloat (Binary64.add a b))
  end.

Definition num_div (x y : num) : result num :=
  match x, y with
  | PInt a, PInt b =>
      if (b =? 0)%Z then Raise ZeroDivisionError
      else
        match Binary64.rnd (inject_Z a / inject_Z b) with
        | Binary64.Inf _ => Raise OverflowError
        | f => Ok (PFloat f)
        end
  | _, _ =>
      let! a := as_float x in
      let! b := as_float y in
      if Binary64.is_zero b then Raise ZeroDivisionError
      else Ok (PFloat (Binary64.div a b))
  end.

(** [x <= y] and [x > y]: Python compares an [int] and a [float] by their
    exact values; [exact] is the value of a number, an [int] not rounded. *)
Definition exact (x : num) : Binary64.float :=
  match x with
  | PInt n => Binary64.Fin (inject_Z n)
  | PFloat f => f
  end.

Definition num_le (x y : num) : bool := Binary64.le (exact x) (exact y).
Definition num_gt (x y : num) : bool := Binary64.lt (exact y) (exact x).

(** [round(x, ndigits)]: an [int] is returned as it is; a finite float is
    rounded, by its exact value, to the nearest multiple of [10^-ndigits],
    a tie going to the even one, and the result is the float nearest to
    that decimal. *)
Definition round (x : num) (ndigits : nat) : num :=
  match x with
  | PInt n => PInt n
  | PFloat (Binary64.Fin v) =>
      let scale := inject_Z (10 ^ Z.of_nat ndigits) in
      PFloat (Binary64.rnd (inject_Z (round_half_even (v * scale)) / scale))
  | PFloat f => PFloat f
  end.

(** [v * y], [v / y], [v > y], [v <= y] for a value [v] of a row: a number
    or a boolean (an [int] in Python) operates as a number; null raises
    [TypeError].  A string raises [TypeError] too, except that a string
    times an [int] is a repeated string, if memory allows:
    [calculate_quote] multiplies only the area, which it then compares with
    a number, and a repair area it has just compared with 0, and such a
    comparison raises [TypeError]; so a string operand never yields a
    result, and [TypeError] stands for the exception it ends with. *)
Definition as_num (v : value) : result num :=
  match v with
  | VBool b => Ok (PInt (if b then 1 else 0))
  | VNum x => Ok x
  | _ => Raise TypeError
  end.

Definition mul (v : value) (y : num) : result num :=
  let! x := as_num v in num_mul x y.

Definition div (v : value) (y : num) : result num :=
  let! x := as_num v in num_div x y.

Definition gt (v : value) (y : num) : result bool :=
  let! x := as_num v in Ok (num_gt x y).

Definition le (v : value) (y : num) : result bool :=
  let! x := as_num v in Ok (num_le x y).

(** [row.get(key, default)] *)
Definition get (row : gmap string value) (key : string) (dflt : value) : value :=
  default dflt (row !! key).

(** [l[0]] *)
Definition item0 (l : list string) : result string :=
  match l with
  | [] => Raise IndexError
  | w :: _ => Ok w
  end.

(** The roofer profile: [roofer["labor_rate"]] and the like. *)
Record slope_adjustment : Type := {
  flat_low : num;
  moderate : num;
  steep : num;
  very_steep : num
}.

Record roofer : Type := {
  region_zip : string;
  labor_rate : num;
  daily_productivity : num;
  base_crew_size : num;
  crew_scaling : crew_scaling_rule;
  slope_cost_adjustment : slope_adjustment;
  material_costs : gmap string num;
  replacement_costs : gmap string num;
  overhead_percent : num;
  profit_margin : num
}.

(** A float literal of the source, as a number. *)
Definition float_literal (x : Q) : num := PFloat (Binary64.literal x).

Definition get_region_multiplier (zip_code : string) : num :=
  if startswith (str zip_code) high_cost_zips then float_literal 1.25
  else if startswith (str zip_code) low_cost_zips then float_literal 0.85
  else float_literal 1.0.

(** A string of ASCII characters only (a string is the sequence of its
    UTF-8 bytes). *)
Definition is_ascii (s : string) : bool :=
  forallb (fun c => (nat_of_ascii c <? 128)%nat) (list_ascii_of_string s).

Section calculate_quote.

(** [s.lower()] on a string.  Python lower-cases by the Unicode tables,
    which are not reproduced here: [str.lower] is a parameter of the
    calculation, and what is proved holds whatever it is. *)
Variable str_lower : string -> string.

Definition lower (v : value) : result string :=
  match v with
  | VStr s => Ok (str_lower s)
  | _ => Raise AttributeError
  end.

Record extracted : Type := {
  x_area : value;
  x_pitch : value;
  x_height : value;
  x_material : string;
  x_condition : value
}.

Definition extract (row : gmap string value) : result extracted :=
  let area := get row "roof_area" (VNum (PInt 2500)) in
  let pitch := get row "pitch" (VNum (PInt 15)) in
  let height := get row "height_ft" (VNum (PInt 15)) in
  let! material := lower (get row "roof_material" (VStr "asphalt")) in
  let condition := get row "roof_condition_summary_score" (VNum (PInt 80)) in
  Ok {| x_area := area; x_pitch := pitch; x_height := height;
        x_material := material; x_condition := condition |}.

Definition crew_size_of (area pitch height : value) (r : roofer) : result num :=
  let crew_size := base_crew_size r in
  let! big := gt area (PInt 3000) in
  let! crew_size := if big then num_add crew_size (PInt 1) else Ok crew_size in
  let! huge := gt area (PInt 5000) in
  let! crew_size := if huge then num_add crew_size (PInt 1) else Ok crew_size in
  let! hard :=
    (let! p := gt pitch (PInt 30) in if p then Ok true else gt height (PInt 25)) in
  if hard then num_add crew_size (PInt 1) else Ok crew_size.

Definition slope_factor_of (slope : value) (r : roofer) : result num :=
  let! b15 := le slope (PInt 15) in
  if b15 then Ok (flat_low (slope_cost_adjustment r))
  else
    let! b30 := le slope (PInt 30) in
    if b30 then Ok (moderate (slope_cost_adjustment r))
    else
      let! b45 := le slope (PInt 45) in
      if b45 then Ok (steep (slope_cost_adjustment r))
      else Ok (very_steep (slope_cost_adjustment r)).

Fixpoint repair_loop (fs : list string) (row : gmap string value) (r : roofer)
    (repair_cost : num) : result num :=
  match fs with
  | [] => Ok repair_cost
  | f :: fs' =>
      match row !! f with
      | None => repair_loop fs' row r repair_cost
      | Some v =>
          let! positive := gt v (PInt 0) in
          if positive then
            let! mat := item0 (split f) in
            let rate := default (PInt 50) (replacement_costs r !! mat) in
            let! cost := mul v rate in
            let! repair_cost := num_add repair_cost cost in
            repair_loop fs' row r repair_cost
          else repair_loop fs' row r repair_cost
      end
  end.

(** The values [calculate_quote] has computed when it returns; [labor_cost]
    is the value after the slope adjustment. *)
Record quote : Type := {
  material_cost : num;
  crew_size : num;
  hours : num;
  labor_cost : num;
  repair_cost : num;
  regional_multiplier : num;
  subtotal : num;
  overhead : num;
  profit : num;
  total : num;
  quote_range : num * num
}.

Definition quote_locals (row : gmap string value) (r : roofer) : result quote :=
  let! x := extract row in
  let region := region_zip r in
  let! material_cost :=
    mul (x_area x)
      (default (float_literal 5.0) (material_costs r !! x_material x)) in
  let! crew_size := crew_size_of (x_area x) (x_pitch x) (x_height x) r in
  let! days := div (x_area x) (daily_productivity r) in
  let! hours := num_mul days (PInt 8) in
  let! pay := num_mul hours (labor_rate r) in
  let! labor_cost := num_mul pay crew_size in
  let! slope_factor := slope_factor_of (x_pitch x) r in
  let! surcharge := num_add (PInt 1) slope_factor in
  let! labor_cost := num_mul labor_cost surcharge in
  let! repair_cost := repair_loop repair_fields row r (PInt 0) in
  let regional_multiplier := get_region_multiplier region in
  let! costs := num_add material_cost labor_cost in
  let! costs := num_add costs repair_cost in
  let! subtotal := num_mul costs regional_multiplier in
  let! overhead := num_mul subtotal (overhead_percent r) in
  let! with_overhead := num_add subtotal overhead in
  let! profit := num_mul with_overhead (profit_margin r) in
  let! total := num_add subtotal overhead in
  let! total := num_add total profit in
  let! low := num_mul total (float_literal 0.9) in
  let! high := num_mul total (float_literal 1.15) in
  Ok {| material_cost := material_cost;
        crew_size := crew_size;
        hours := hours;
        labor_cost := labor_cost;
        repair_cost := repair_cost;
        regional_multiplier := regional_multiplier;
        subtotal := subtotal;
        overhead := overhead;
        profit := profit;
        total := total;
        quote_range := (round low 2, round high 2) |}.

Definition calculate_quote (row : gmap string value) (r : roofer)
    : result (num * num) :=
  let! q := quote_locals row r in Ok (quote_range q).

End calculate_quote.

(** An [int] from 0 on, or a float that is a NaN or from 0 on. *)
Definition nonneg_or_nan (x : num) : bool :=
  match x with
  | PInt n => (0 <=? n)%Z
  | PFloat f => Binary64.nonneg_or_nan f
  end.

(** Valid profiles and records (the data model's invariants): positive
    rates and crew, surcharges, prices and margins from 0 on; and a record
    whose fields, once defaulted, have the types of the data model: an area
    from 0 on, numeric pitch and height, a material name, a condition score
    in 0..100, and numeric repair areas where present. *)

Definition num_pos (x : num) : bool := num_gt x (PInt 0).

Definition num_nonneg (x : num) : bool := num_le (PInt 0) x.

Definition all_nonneg (m : gmap string num) : bool :=
  forallb (fun kv => num_nonneg kv.2) (map_to_list m).

Definition valid_profile (r : roofer) : bool :=
  num_pos (labor_rate r) && num_pos (daily_productivity r)
  && num_pos (base_crew_size r)
  && num_nonneg (flat_low (slope_cost_adjustment r))
  && num_nonneg (moderate (slope_cost_adjustment r))
  && num_nonneg (steep (slope_cost_adjustment r))
  && num_nonneg (very_steep (slope_cost_adjustment r))
  && all_nonneg (material_costs r) && all_nonneg (replacement_costs r)
  && num_nonneg (overhead_percent r) && num_nonneg (profit_margin r).

Definition is_num (v : value) : bool :=
  match v with VNum _ => true | _ => false end.

Definition is_str (v : value) : bool :=
  match v with VStr _ => true | _ => false end.

Definition num_between (lo hi : num) (v : value) : bool :=
  match v with VNum x => num_le lo x && num_le x hi | _ => false end.

Definition nonneg_num (v : value) : bool :=
  match v with VNum x => num_nonneg x | _ => false end.

Definition valid_row (row : gmap string value) : bool :=
  nonneg_num (get row "roof_area" (VNum (PInt 2500)))
  && is_num (get row "pitch" (VNum (PInt 15)))
  && is_num (get row "height_ft" (VNum (PInt 15)))
  && is_str (get row "roof_material" (VStr "asphalt"))
  && num_between (PInt 0) (PInt 100)
       (get row "roof_condition_summary_score" (VNum (PInt 80)))
  && forallb (fun f => is_num (get row f (VNum (PInt 0)))) repair_fields.

(** Inputs whose [int]s are below [2^500] in magnitude: none of them, and no
    product or sum the calculation makes of them, is beyond the floats. *)
Definition small (x : num) : bool :=
  match x with
  | PInt n => (Z.abs n <? 2 ^ 500)%Z
  | PFloat _ => true
  end.

Definition small_value (v : value) : bool :=
  match v with VNum x => small x | _ => true end.

Definition all_small (m : gmap string num) : bool :=
  forallb (fun kv => small kv.2) (map_to_list m).

Definition small_profile (r : roofer) : bool :=
  small (labor_rate r) && small (daily_productivity r)
  && small (base_crew_size r)
  && small (flat_low (slope_cost_adjustment r))
  && small (moderate (slope_cost_adjustment r))
  && small (steep (slope_cost_adjustment r))
  && small (very_steep (slope_cost_adjustment r))
  && all_small (material_costs r) && all_small (replacement_costs r)
  && small (overhead_percent r) && small (profit_margin r).

Definition small_row (row : gmap string value) : bool :=
  small_value (get row "roof_area" (VNum (PInt 2500)))
  && forallb (fun f => small_value (get row f (VNum (PInt 0)))) repair_fields.

(** An [int] from 0 to below [bound], or a float. *)
Definition below (bound : Z) (x : num) : Prop :=
  match x with
  | PInt n => (0 <= n < bound)%Z
  | PFloat _ => True
  end.

(** The profile of the questionnaire's examples, with the types of its
    tables. *)
Definition example_profile (zip : string) : roofer := {|
  region_zip := zip;
  labor_rate := float_literal 45.0;
  daily_productivity := PInt 2500;
  base_crew_size := PInt 3;
  crew_scaling := size_and_complexity;
  slope_cost_adjustment :=
    {| flat_low := float_literal 0.0; moderate := float_literal 0.1;
       steep := float_literal 0.2; very_steep := float_literal 0.3 |};
  material_costs :=
    <["asphalt" := float_literal 4.0]> (<["shingle" := float_literal 4.5]>
      (<["metal" := float_literal 7.0]> (<["tile" := float_literal 8.0]>
        (<["concrete" := float_literal 6.0]> ∅))));
  replacement_costs :=
    <["asphalt" := PInt 45]> (<["shingle" := PInt 50]>
      (<["metal" := PInt 90]> (<["tile" := PInt 70]>
        (<["concrete" := PInt 60]> ∅))));
  overhead_percent := float_literal 0.1;
  profit_margin := float_literal 0.2
|}.

(** A record with [roof_area] only. *)
Definition area_row (area : Q) : gmap string value :=
  {["roof_area" := VNum (float_literal area)]}.

(** A record with [roof_area] only, an [int]. *)
Definition int_area_row (area : Z) : gmap string value :=
  {["roof_area" := VNum (PInt area)]}.

(** A record with a mixed-case material and a null pitch. *)
Definition mixed_case_row : gmap string value :=
  <["roof_material" := VStr "ConCrete"]> (<["pitch" := VNone]> ∅).

(** [daily_productivity] set to [p], the other fields kept. *)
Definition with_daily_productivity (p : num) (r : roofer) : roofer := {|
  region_zip := region_zip r;
  labor_rate := labor_rate r;
  daily_productivity := p;
  base_crew_size := base_crew_size r;
  crew_scaling := crew_scaling r;
  slope_cost_adjustment := slope_cost_adjustment r;
  material_costs := material_costs r;
  replacement_costs := replacement_costs r;
  overhead_percent := overhead_percent r;
  profit_margin := profit_margin r
|}.

End Py.

(** ** Specification-side notions *)

(** [s] begins with one of [prefixes]. *)
Definition has_prefix_in (prefixes : list string) (s : string) : Prop :=
  ∃ p rest, p ∈ prefixes ∧ s = p +:+ rest.

(** The repair line of one material (section 4.3, step 6). *)
Definition repair_line (row : gmap string value) (r : roofer) (field mat : string) : Q :=
  match row !! field with
  | Some (VNum a) =>
      if Qlt_le_dec 0 a then (a * default 50 (replacement_costs r !! mat))%Q else 0%Q
  | _ => 0%Q
  end.

(** The profile of the end-to-end example: what the example leaves open is a
    parameter. *)
Definition example_roofer (zip_rest : string) (rule : crew_scaling_rule)
    (flat steep very : Q) (materials replacements : gmap string Q) : roofer := {|
  region_zip := "100" +:+ zip_rest;
  labor_rate := 45;
  daily_productivity := 2500;
  base_crew_size := 3;
  crew_scaling := rule;
  slope_cost_adjustment :=
    {| flat_low := flat; moderate := 0.1; steep := steep; very_steep := very |};
  material_costs := <["concrete" := 6.0%Q]> materials;
  replacement_costs := replacements;
  overhead_percent := 0.1;
  profit_margin := 0.2
|}.

Definition example_row : gmap string value :=
  <["roof_area" := VNum 2500]> (<["pitch" := VNum 24.43]> (<["height_ft" := VNum 15]>
   (<["roof_material" := VStr "concrete"]>
     (<["roof_condition_summary_score" := VNum 80]> ∅)))).

(** ** Sample inputs *)

(** A large, steep and tall roof. *)
Definition steep_large_row : gmap string value :=
  <["roof_area" := VNum 5200]> (<["pitch" := VNum 35]> (<["height_ft" := VNum 30]> ∅)).

(** A record with repair areas, one of them of a material outside the loop. *)
Definition repair_row : gmap string value :=
  <["shingle repair area (sqm)" := VNum 10]>
    (<["metal repair area (sqm)" := VNum 0]>
      (<["asphalt repair area (sqm)" := VNum 7]> ∅)).

(** An upper-case ASCII letter. *)
Definition is_upper (c : ascii) : bool :=
  ((65 <=? nat_of_ascii c) && (nat_of_ascii c <=? 90))%nat.

(** Three records, the second with a malformed area. *)
Definition batch_of_three : list (gmap string value) :=
  [ <["address" := VStr "1 Elm St"]> example_row;
    <["address" := VStr "2 Oak Ave"]> (<["roof_area" := VStr "n/a"]> example_row);
    <["address" := VStr "3 Ash Rd"]> steep_large_row ].

(** ** Variations of a profile, and the fields a calculation reads *)

(** The fields of a row whose value enters the result of [calculate_quote]. *)
Definition used_fields : list string :=
  ["roof_area"; "pitch"; "height_ft"; "roof_material"] ++ repair_fields.

(** ** JavaScript character classes and regular expressions *)

Module JS.

(** White space ([\s], and what [parseFloat] skips) and decimal digits
    ([\d]), over characters below 256. *)
Definition js_space (c : ascii) : bool :=
  let n := nat_of_ascii c in
  ((9 <=? n) && (n <=? 13) || (n =? 32) || (n =? 160))%nat.

Definition is_digit (c : ascii) : bool :=
  ((48 <=? nat_of_ascii c) && (nat_of_ascii c <=? 57))%nat.

(** Regular expressions, matched against a whole string as [/^r$/.test(s)]
    does, by derivatives. *)
Inductive regex : Type :=
  | Void
  | Eps
  | Class (p : ascii -> bool)
  | Cat (r1 r2 : regex)
  | Alt (r1 r2 : regex)
  | Star (r : regex).

Fixpoint nullable (r : regex) : bool :=
  match r with
  | Void => false
  | Eps => true
  | Class _ => false
  | Cat r1 r2 => nullable r1 && nullable r2
  | Alt r1 r2 => nullable r1 || nullable r2
  | Star _ => true
  end.

Fixpoint deriv (c : ascii) (r : regex) : regex :=
  match r with
  | Void => Void
  | Eps => Void
  | Class p => if p c then Eps else Void
  | Cat r1 r2 =>
      if nullable r1 then Alt (Cat (deriv c r1) r2) (deriv c r2)
      else Cat (deriv c r1) r2
  | Alt r1 r2 => Alt (deriv c r1) (deriv c r2)
  | Star r1 => Cat (deriv c r1) (Star r1)
  end.

Fixpoint test (r : regex) (s : string) : bool :=
  match s with
  | EmptyString => nullable r
  | String c s' => test (deriv c r) s'
  end.

(** [r+] and [r{n}] *)
Definition plus (r : regex) : regex := Cat r (Star r).

Fixpoint times (n : nat) (r : regex) : regex :=
  match n with
  | O => Eps
  | S n' => Cat r (times n' r)
  end.

End JS.

(** ** The onboarding form ([RooferOnboarding]) *)

Module Onboarding.

(** JavaScript numbers: the values of binary64, a finite one given by its
    value; and the values a form object holds. *)
Inductive jsnum : Type :=
  | NaN
  | Fin (q : Q)
  | Inf (negative : bool).

#[warnings="-register-all"]
Inductive jsval : Type :=
  | JUndefined
  | JNum (n : jsnum)
  | JStr (s : string)
  | JObj (fields : gmap string jsval).

(** The Number a decimal of value [q] denotes: the float nearest to it,
    infinite when [q] is beyond the floats. *)
Definition number (q : Q) : jsnum :=
  match Binary64.rnd q with
  | Binary64.NaN => NaN
  | Binary64.Inf negative => Inf negative
  | Binary64.Fin v => Fin v
  end.

(** [parseFloat(s)]: the Number of the longest prefix of [s], after leading
    white space, that is a decimal literal ([Infinity], or digits with an
    optional fraction and an optional exponent, after an optional sign);
    [NaN] when there is none. *)
Fixpoint trim_start (s : string) : string :=
  match s with
  | String c s' => if JS.js_space c then trim_start s' else s
  | EmptyString => EmptyString
  end.

Definition digit_value (c : ascii) : Z := Z.of_nat (nat_of_ascii c) - 48.

Fixpoint take_digits (s : string) : list ascii * string :=
  match s with
  | String c s' =>
      if JS.is_digit c then let '(ds, rest) := take_digits s' in (c :: ds, rest)
      else ([], s)
  | EmptyString => ([], EmptyString)
  end.

Definition digits_value (ds : list ascii) : Z :=
  fold_left (fun acc c => (acc * 10 + digit_value c)%Z) ds 0%Z.

Definition no_digits (ds : list ascii) : bool :=
  match ds with [] => true | _ => false end.

(** The exponent of the literal's [ExponentPart], when the text begins with
    one; 0 otherwise. *)
Definition exponent_of (s : string) : Z :=
  match s with
  | String c s' =>
      if (Ascii.eqb c "e" || Ascii.eqb c "E")%bool then
        let '(sign, s'') :=
          match s' with
          | String "+" t => (1%Z, t)
          | String "-" t => ((-1)%Z, t)
          | _ => (1%Z, s')
          end in
        let '(ds, _) := take_digits s'' in
        if no_digits ds then 0%Z else (sign * digits_value ds)%Z
      else 0%Z
  | EmptyString => 0%Z
  end.

Definition parse_unsigned (s : string) : jsnum :=
  if String.prefix "Infinity" s then Inf false
  else
    let '(int_digits, s1) := take_digits s in
    match s1 with
    | String "." s2 =>
        let '(frac_digits, s3) := take_digits s2 in
        if (no_digits int_digits && no_digits frac_digits)%bool then NaN
        else number (inject_Z (digits_value (int_digits ++ frac_digits))
                     * Qpower 10 (exponent_of s3 - Z.of_nat (length frac_digits)))%Q
    | _ =>
        if no_digits int_digits then NaN
        else number (inject_Z (digits_value int_digits) * Qpower 10 (exponent_of s1))%Q
    end.

Definition negate (n : jsnum) : jsnum :=
  match n with
  | NaN => NaN
  | Fin q => Fin (- q)%Q
  | Inf negative => Inf (negb negative)
  end.

Definition parseFloat (s : string) : jsnum :=
  match trim_start s with
  | String "+" t => parse_unsigned t
  | String "-" t => negate (parse_unsigned t)
  | t => parse_unsigned t
  end.

(** [n || 0] *)
Definition truthy (n : jsnum) : bool :=
  match n with
  | NaN => false
  | Fin q => negb (Qeq_bool q 0)
  | Inf _ => true
  end.

Definition or_zero (n : jsnum) : jsnum := if truthy n then n else Fin 0.

(** [s.includes('.')] and [s.split('.')] *)
Fixpoint includes (sep : ascii) (s : string) : bool :=
  match s with
  | EmptyString => false
  | String c s' => (Ascii.eqb c sep || includes sep s')%bool
  end.

Fixpoint split_on (sep : ascii) (s : string) : list string :=
  match s with
  | EmptyString => [EmptyString]
  | String c s' =>
      if Ascii.eqb c sep then EmptyString :: split_on sep s'
      else
        match split_on sep s' with
        | w :: ws => String c w :: ws
        | [] => [String c EmptyString]
        end
  end.

(** [obj[key]], and the own properties [{...v}] copies: those of an object,
    the indexed characters of a string, none of anything else. *)
Definition prop (obj : gmap string jsval) (key : string) : jsval :=
  default JUndefined (obj !! key).

Fixpoint chars_from (i : nat) (s : string) : gmap string jsval :=
  match s with
  | EmptyString => ∅
  | String c s' => <[pretty i := JStr (String c EmptyString)]> (chars_from (S i) s')
  end.

Definition spread (v : jsval) : gmap string jsval :=
  match v with
  | JObj fields => fields
  | JStr s => chars_from 0 s
  | _ => ∅
  end.

(** The initial [formData]. *)
Definition initial_formData : gmap string jsval :=
  <["business_name" := JStr ""]> (<["license_id" := JStr ""]>
  (<["primary_zip_code" := JStr ""]> (<["email" := JStr ""]>
  (<["labor_rate" := JNum (number 45)]> (<["daily_productivity" := JNum (number 2500)]>
  (<["base_crew_size" := JNum (number 3)]>
  (<["crew_scaling_rule" := JStr "size_and_complexity"]>
  (<["slope_cost_adjustment" :=
       JObj (<["flat_low" := JNum (number 0.0)]> (<["moderate" := JNum (number 0.1)]>
            (<["steep" := JNum (number 0.2)]> (<["very_steep" := JNum (number 0.3)]> ∅))))]>
  (<["material_costs" :=
       JObj (<["asphalt" := JNum (number 4.0)]> (<["shingle" := JNum (number 4.5)]>
            (<["metal" := JNum (number 7.0)]> (<["tile" := JNum (number 8.0)]>
            (<["concrete" := JNum (number 6.0)]> ∅)))))]>
  (<["replacement_costs" :=
       JObj (<["asphalt" := JNum (number 45)]> (<["shingle" := JNum (number 50)]>
            (<["metal" := JNum (number 90)]> (<["tile" := JNum (number 70)]>
            (<["concrete" := JNum (number 60)]> ∅)))))]>
  (<["overhead_percent" := JNum (number 0.1)]>
  (<["profit_margin" := JNum (number 0.2)]> ∅)))))))))))).

(** [handleInputChange(field, value)], as the update of [formData]. *)
Definition handleInputChange (field value : string) (prev : gmap string jsval)
    : gmap string jsval :=
  if includes "." field then
    let parts := split_on "." field in
    let parent := nth 0 parts "undefined" in
    let child := nth 1 parts "undefined" in
    <[parent := JObj (<[child := JNum (or_zero (parseFloat value))]>
                        (spread (prop prev parent)))]> prev
  else <[field := JStr value]> prev.

(** The component's state: the two [useState] cells, and the arguments
    [onComplete] has been called with. *)
Record wizard : Type := {
  step : Z;
  formData : gmap string jsval;
  completed : list (gmap string jsval)
}.

Definition initial : wizard :=
  {| step := 1; formData := initial_formData; completed := [] |}.

Definition nextStep (w : wizard) : wizard :=
  {| step := step w + 1; formData := formData w; completed := completed w |}.

Definition prevStep (w : wizard) : wizard :=
  {| step := step w - 1; formData := formData w; completed := completed w |}.

Definition handleSubmit (w : wizard) : wizard :=
  {| step := step w; formData := formData w;
     completed := completed w ++ [formData w] |}.

Definition change (field value : string) (w : wizard) : wizard :=
  {| step := step w; formData := handleInputChange field value (formData w);
     completed := completed w |}.

(** What the component renders at a step: the inputs (by the field their
    [onChange] passes to [handleInputChange]) and the buttons. *)
Inductive button : Type :=
  | Next
  | Back
  | CompleteSetup.

Definition inputs_at (step : Z) : list string :=
  (if (step =? 1)%Z
   then ["business_name"; "license_id"; "primary_zip_code"; "email"] else [])
  ++ (if (step =? 2)%Z
      then ["labor_rate"; "daily_productivity"; "base_crew_size"; "crew_scaling_rule"]
      else [])
  ++ (if (step =? 3)%Z
      then ["slope_cost_adjustment.flat_low"; "slope_cost_adjustment.moderate";
            "slope_cost_adjustment.steep"; "slope_cost_adjustment.very_steep"]
      else [])
  ++ (if (step =? 4)%Z then ["overhead_percent"; "profit_margin"] else []).

Definition buttons_at (step : Z) : list button :=
  (if (step =? 1)%Z then [Next] else [])
  ++ (if (step =? 2)%Z then [Back; Next] else [])
  ++ (if (step =? 3)%Z then [Back; Next] else [])
  ++ (if (step =? 4)%Z then [Back; CompleteSetup] else []).

(** The options of the [crew_scaling_rule] select. *)
Definition crew_scaling_options : list string := ["size_only"; "size_and_complexity"].

(** The width of the progress bar, in percent. *)
Definition progress (step : Z) : Q := (inject_Z step / 4 * 100)%Q.

Inductive event : Type :=
  | Change (field value : string)
  | Click (b : button).

Definition button_eqb (a b : button) : bool :=
  match a, b with
  | Next, Next | Back, Back | CompleteSetup, CompleteSetup => true
  | _, _ => false
  end.

Definition mem (s : string) (l : list string) : bool := existsb (String.eqb s) l.

(** An event on a control that is rendered (a select offering its options
    only) runs its handler; there is no other event. *)
Definition dispatch (ev : event) (w : wizard) : option wizard :=
  match ev with
  | Change field value =>
      if (mem field (inputs_at (step w))
          && (negb (String.eqb field "crew_scaling_rule")
              || mem value crew_scaling_options))%bool
      then Some (change field value w) else None
  | Click b =>
      if existsb (button_eqb b) (buttons_at (step w)) then
        Some match b with
             | Next => nextStep w
             | Back => prevStep w
             | CompleteSetup => handleSubmit w
             end
      else None
  end.

Fixpoint run (evs : list event) (w : wizard) : option wizard :=
  match evs with
  | [] => Some w
  | ev :: evs' =>
      match dispatch ev w with
      | Some w' => run evs' w'
      | None => None
      end
  end.

End Onboarding.

(** ** What holds of the form in every state of the wizard *)

Definition slope_keys : list string := ["flat_low"; "moderate"; "steep"; "very_steep"].

Definition plain_numbers : list string :=
  ["labor_rate"; "daily_productivity"; "base_crew_size"; "overhead_percent";
   "profit_margin"].

(** An object with the four slope buckets and nothing else, each a number
    other than [NaN]. *)
Definition slope_object (adj : gmap string Onboarding.jsval) : Prop :=
  ∀ k, (k ∈ slope_keys → ∃ n, adj !! k = Some (Onboarding.JNum n) ∧ n ≠ Onboarding.NaN)
       ∧ (k ∉ slope_keys → adj !! k = None).

Record form_inv (d : gmap string Onboarding.jsval) : Prop := {
  inv_material :
    d !! "material_costs" = Onboarding.initial_formData !! "material_costs";
  inv_replacement :
    d !! "replacement_costs" = Onboarding.initial_formData !! "replacement_costs";
  inv_slope :
    ∃ adj, d !! "slope_cost_adjustment" = Some (Onboarding.JObj adj) ∧ slope_object adj;
  inv_plain :
    ∀ f, f ∈ plain_numbers →
         d !! f = Onboarding.initial_formData !! f
         ∨ ∃ text, d !! f = Some (Onboarding.JStr text);
  inv_rule :
    ∃ rule, d !! "crew_scaling_rule" = Some (Onboarding.JStr rule)
            ∧ rule ∈ Onboarding.crew_scaling_options
}.

Definition wizard_inv (w : Onboarding.wizard) : Prop :=
  (1 ≤ Onboarding.step w ≤ 4)%Z
  ∧ form_inv (Onboarding.formData w)
  ∧ Forall form_inv (Onboarding.completed w).

(** ** The landing page ([script.js]) *)

Module Landing.

(** The email and ZIP patterns of [handleBuyNow]:
    [/^[^\s@]+@[^\s@]+\.[^\s@]+$/] and [/^\d{5}$/]. *)
Definition not_space_or_at (c : ascii) : bool :=
  negb (JS.js_space c || Ascii.eqb c "@").

Definition emailRegex : JS.regex :=
  JS.Cat (JS.plus (JS.Class not_space_or_at))
    (JS.Cat (JS.Class (Ascii.eqb "@"))
       (JS.Cat (JS.plus (JS.Class not_space_or_at))
          (JS.Cat (JS.Class (Ascii.eqb "."))
             (JS.plus (JS.Class not_space_or_at))))).

Definition zipRegex : JS.regex := JS.times 5 (JS.Class JS.is_digit).

(** The part of the document the script reads and writes: the [display] of
    the two dialogs, the [overflow] of the body, the three controls of the
    form, and the values [reset()] puts back (those of [index.html]); with
    it, the pending [setTimeout] callbacks (each is [showAreaPopup]), the
    alerts shown and the console's lines. *)
Record page : Type := {
  buyNowModal : string;
  areaPopup : string;
  overflow : string;
  email : string;
  zipcode : string;
  marketing : bool;
  reset_values : string * string * bool;
  timers : nat;
  alerts : list string;
  console : list (string * string * bool)
}.

Definition openBuyNowForm (p : page) : page :=
  {| buyNowModal := "block"; areaPopup := areaPopup p; overflow := "hidden";
     email := email p; zipcode := zipcode p; marketing := marketing p;
     reset_values := reset_values p; timers := timers p; alerts := alerts p;
     console := console p |}.

Definition closeBuyNowForm (p : page) : page :=
  {| buyNowModal := "none"; areaPopup := areaPopup p; overflow := "auto";
     email := email p; zipcode := zipcode p; marketing := marketing p;
     reset_values := reset_values p; timers := timers p; alerts := alerts p;
     console := console p |}.

Definition showAreaPopup (p : page) : page :=
  {| buyNowModal := buyNowModal p; areaPopup := "flex"; overflow := "hidden";
     email := email p; zipcode := zipcode p; marketing := marketing p;
     reset_values := reset_values p; timers := timers p; alerts := alerts p;
     console := console p |}.

Definition closeAreaPopup (p : page) : page :=
  {| buyNowModal := buyNowModal p; areaPopup := "none"; overflow := "auto";
     email := (reset_values p).1.1; zipcode := (reset_values p).1.2;
     marketing := (reset_values p).2;
     reset_values := reset_values p; timers := timers p; alerts := alerts p;
     console := console p |}.

Definition alert (message : string) (p : page) : page :=
  {| buyNowModal := buyNowModal p; areaPopup := areaPopup p; overflow := overflow p;
     email := email p; zipcode := zipcode p; marketing := marketing p;
     reset_values := reset_values p; timers := timers p;
     alerts := alerts p ++ [message]; console := console p |}.

Definition setTimeout_showAreaPopup (p : page) : page :=
  {| buyNowModal := buyNowModal p; areaPopup := areaPopup p; overflow := overflow p;
     email := email p; zipcode := zipcode p; marketing := marketing p;
     reset_values := reset_values p; timers := S (timers p); alerts := alerts p;
     console := console p |}.

Definition console_log (entry : string * string * bool) (p : page) : page :=
  {| buyNowModal := buyNowModal p; areaPopup := areaPopup p; overflow := overflow p;
     email := email p; zipcode := zipcode p; marketing := marketing p;
     reset_values := reset_values p; timers := timers p; alerts := alerts p;
     console := console p ++ [entry] |}.

Definition handleBuyNow (p : page) : page :=
  let email := email p in
  let zipcode := zipcode p in
  let marketing := marketing p in
  if negb (JS.test emailRegex email) then alert "Please enter a valid email address" p
  else if negb (JS.test zipRegex zipcode) then
    alert "Please enter a valid 5-digit ZIP code" p
  else
    console_log (email, zipcode, marketing)
      (setTimeout_showAreaPopup (closeBuyNowForm p)).

(** A pending timer runs out. *)
Definition timeout (p : page) : page :=
  match timers p with
  | O => p
  | S n =>
      showAreaPopup
        {| buyNowModal := buyNowModal p; areaPopup := areaPopup p;
           overflow := overflow p; email := email p; zipcode := zipcode p;
           marketing := marketing p; reset_values := reset_values p; timers := n;
           alerts := alerts p; console := console p |}
  end.

(** [window.onclick] and the [keydown] listener. *)
Inductive target : Type :=
  | OnBuyNowModal
  | OnAreaPopup
  | Elsewhere.

Definition onclick (t : target) (p : page) : page :=
  let p := match t with OnBuyNowModal => closeBuyNowForm p | _ => p end in
  match t with OnAreaPopup => closeAreaPopup p | _ => p end.

Definition keydown (key : string) (p : page) : page :=
  if String.eqb key "Escape" then closeAreaPopup (closeBuyNowForm p) else p.

End Landing.

(** A string none of whose characters is white space or an at sign, and
    which is not empty. *)
Definition plain_word (s : string) : Prop :=
  s ≠ "" ∧ forallb Landing.not_space_or_at (list_ascii_of_string s) = true.

(** A run of the wizard through its four steps, with three edits. *)
Definition sample_run : list Onboarding.event :=
  [Onboarding.Change "business_name" "Acme Roofing";
   Onboarding.Click Onboarding.Next;
   Onboarding.Change "labor_rate" "50";
   Onboarding.Click Onboarding.Next;
   Onboarding.Change "slope_cost_adjustment.steep" "0.25";
   Onboarding.Click Onboarding.Next;
   Onboarding.Click Onboarding.CompleteSetup].

(** An address [name@host.tail] of three plain words, and a ZIP of five
    decimal digits. *)
Definition well_formed_email (address : string) : Prop :=
  ∃ name host tail,
    address = name +:+ "@" +:+ host +:+ "." +:+ tail
    ∧ plain_word name ∧ plain_word host ∧ plain_word tail.

Definition five_digit_zip (zip : string) : Prop :=
  String.length zip = 5 ∧ forallb JS.is_digit (list_ascii_of_string zip) = true.

(** The page with the form open and filled in. *)
Definition filled_page (address zip : string) : Landing.page := {|
  Landing.buyNowModal := "block";
  Landing.areaPopup := "none";
  Landing.overflow := "hidden";
  Landing.email := address;
  Landing.zipcode := zip;
  Landing.marketing := true;
  Landing.reset_values := ("", "", false);
  Landing.timers := 0;
  Landing.alerts := [];
  Landing.console := []
|}.

(** ** Comparisons *)

Lemma Qgt_bool_true (x y : Q) : Qgt_bool x y = true ↔ (y < x)%Q.
Proof.
  unfold Qgt_bool. rewrite negb_true_iff. split.
  - intros H. apply Qnot_le_lt. intros Hle.
    apply Qle_bool_iff in Hle. congruence.
  - intros H. destruct (Qle_bool x y) eqn:E; [|reflexivity].
    apply Qle_bool_iff in E. exfalso. exact (Qlt_not_le _ _ H E).
Qed.

Lemma Qgt_bool_false (x y : Q) : Qgt_bool x y = false ↔ (x <= y)%Q.
Proof.
  unfold Qgt_bool. rewrite negb_false_iff. apply Qle_bool_iff.
Qed.

Lemma Qle_bool_false (x y : Q) : Qle_bool x y = false ↔ (y < x)%Q.
Proof.
  rewrite <- Qgt_bool_true. unfold Qgt_bool.
  destruct (Qle_bool x y); simpl; split; congruence.
Qed.

Lemma Qgt_bool_dec (x y : Q) :
  Qgt_bool x y = if Qlt_le_dec y x then true else false.
Proof.
  destruct (Qlt_le_dec y x) as [H|H].
  - by apply Qgt_bool_true.
  - by apply Qgt_bool_false.
Qed.

(** ** Prefixes *)

Lemma prefix_app (p s : string) :
  String.prefix p s = true ↔ ∃ rest, s = p +:+ rest.
Proof.
  revert s. induction p as [|c p IH]; intros [|d s]; simpl.
  - split; [intros _; by exists "" | done].
  - split; [intros _; by exists (String d s) | done].
  - split; [done | intros [rest Hr]; discriminate].
  - destruct (ascii_dec c d) as [->|Hne].
    + rewrite IH. split; intros [rest Hr]; exists rest.
      * by rewrite Hr.
      * by injection Hr.
    + split; [done | intros [rest Hr]; injection Hr as Hcd _; by destruct Hne].
Qed.

Lemma startswith_spec (s : string) (prefixes : list string) :
  startswith s prefixes = true ↔ has_prefix_in prefixes s.
Proof.
  unfold startswith, has_prefix_in. rewrite existsb_exists. split.
  - intros (p & Hin & Hp). apply prefix_app in Hp as [rest ->].
    exists p, rest. split; [by apply list_elem_of_In | done].
  - intros (p & rest & Hin & ->). exists p. split; [by apply list_elem_of_In |].
    apply prefix_app. by exists rest.
Qed.

(** ** The region multiplier *)

(** C5: for every ZIP string the region multiplier resolver returns a value
    (it is a total function with no error branch): 1.25 when the ZIP begins
    with a high-cost prefix, whether or not it also begins with a low-cost
    one; otherwise 0.85 when it begins with a low-cost prefix; otherwise 1.0.
    This holds of the resolver's body for any two prefix lists, of which
    [get_region_multiplier] is the instance at the two lists of the source.
    The empty ZIP and a malformed one resolve to 1.0. *)
Theorem region_multiplier_resolves (high low : list string) (zip : string) :
  (has_prefix_in high zip → region_multiplier high low zip = 1.25%Q)
  ∧ (¬ has_prefix_in high zip → has_prefix_in low zip →
     region_multiplier high low zip = 0.85%Q)
  ∧ (¬ has_prefix_in high zip → ¬ has_prefix_in low zip →
     region_multiplier high low zip = 1.0%Q)
  ∧ get_region_multiplier zip
    = region_multiplier ["100"; "90"; "94"; "11"] ["83"; "59"; "35"; "73"] zip
  ∧ get_region_multiplier "" = 1.0%Q
  ∧ get_region_multiplier "not a zip" = 1.0%Q.
Proof.
  unfold region_multiplier, str.
  repeat split.
  - intros H. apply startswith_spec in H. by rewrite H.
  - intros Hh Hl. apply startswith_spec in Hl.
    destruct (startswith zip high) eqn:E.
    + apply startswith_spec in E. contradiction.
    + by rewrite Hl.
  - intros Hh Hl.
    destruct (startswith zip high) eqn:E.
    { apply startswith_spec in E. contradiction. }
    destruct (startswith zip low) eqn:E'.
    { apply startswith_spec in E'. contradiction. }
    reflexivity.
Qed.

Lemma region_multiplier_resolves_witness :
  region_multiplier ["83"; "8"] ["83"; "59"] "83001" = 1.25%Q
  ∧ get_region_multiplier "83001" = 0.85%Q.
Proof.
  split.
  - apply (proj1 (region_multiplier_resolves ["83"; "8"] ["83"; "59"] "83001")).
    exists "83", "001". split; [apply list_elem_of_here | reflexivity].
  - reflexivity.
Defined.

(** ** What the calculation reads *)

Lemma repair_loop_agree (fs : list string) (row1 row2 : gmap string value)
    (r : roofer) (c : Q) :
  (∀ f, f ∈ fs → row1 !! f = row2 !! f) →
  repair_loop fs row1 r c = repair_loop fs row2 r c.
Proof.
  revert c. induction fs as [|f fs IH]; intros c H; simpl; [done|].
  rewrite <- (H f) by apply list_elem_of_here.
  assert (Hrest : ∀ g, g ∈ fs → row1 !! g = row2 !! g).
  { intros g Hg. apply H. by apply list_elem_of_further. }
  destruct (row1 !! f) as [v|]; [|by apply IH].
  destruct (gt v 0) as [[|]|e]; simpl; [|by apply IH|done].
  destruct (item0 (split f)) as [mat|e]; simpl; [|done].
  destruct (mul v _) as [cost|e]; simpl; [by apply IH|done].
Qed.

(** C9: the result of the calculation is the same whichever value the
    profile's [crew_scaling_rule] has: every computed value and the returned
    quote range coincide under [size_only] and [size_and_complexity], and an
    exception is raised under one exactly when it is raised under the other. *)
Theorem crew_scaling_rule_is_not_read (row : gmap string value) (r : roofer) :
  quote_locals row (with_crew_scaling size_only r)
  = quote_locals row (with_crew_scaling size_and_complexity r)
  ∧ calculate_quote row (with_crew_scaling size_only r)
    = calculate_quote row (with_crew_scaling size_and_complexity r)
  ∧ with_crew_scaling (crew_scaling r) r = r.
Proof.
  split; [reflexivity|]. split; [reflexivity|]. by destruct r.
Qed.

(** C10: two records that differ only in [roof_condition_summary_score]
    (present with any value, or absent) give the same result: the same
    computed values, the same quote range, or the same exception.  The score
    is read by the extraction step and used nowhere else. *)
Theorem condition_score_is_not_used (row1 row2 : gmap string value) (r : roofer) :
  (∀ k, k ≠ "roof_condition_summary_score" → row1 !! k = row2 !! k) →
  quote_locals row1 r = quote_locals row2 r
  ∧ calculate_quote row1 r = calculate_quote row2 r
  ∧ (∀ x, extract row1 = Ok x →
          x_condition x = get row1 "roof_condition_summary_score" (VNum 80)).
Proof.
  intros H.
  assert (Hq : quote_locals row1 r = quote_locals row2 r).
  { unfold quote_locals, extract, get.
    rewrite (H "roof_area"), (H "pitch"), (H "height_ft"), (H "roof_material")
      by discriminate.
    rewrite (repair_loop_agree repair_fields row1 row2).
    - by destruct (lower _).
    - intros f Hf. apply H. intros ->. revert Hf. unfold repair_fields.
      rewrite !elem_of_cons, elem_of_nil. intros [?|[?|[?|[]]]]; discriminate. }
  split; [exact Hq|]. split.
  - unfold calculate_quote. by rewrite Hq.
  - intros x. unfold extract. destruct (lower _); simpl; [|done].
    by intros [= <-].
Qed.

Lemma condition_score_is_not_used_witness :
  calculate_quote (<["roof_condition_summary_score" := VNum 5]> example_row)
                  (form_defaults "10001")
  = calculate_quote example_row (form_defaults "10001").
Proof.
  apply (condition_score_is_not_used
           (<["roof_condition_summary_score" := VNum 5]> example_row) example_row
           (form_defaults "10001")).
  intros k Hk. by apply lookup_insert_ne.
Defined.

(** ** The end-to-end example *)

(** C1: on the example profile (labor rate 45, daily productivity 2500, base
    crew 3, overhead 0.1, profit margin 0.2, concrete at 6.0, moderate slope
    surcharge 0.1, a business ZIP beginning with 100; every other setting
    arbitrary) and the example record (area 2500, pitch 24.43, height 15,
    concrete, condition 80, no repair areas) the calculation returns, with a
    crew of 3, material cost 15000, 8 labor hours, base labor 1080 = 8*45*3,
    the moderate surcharge 0.1, labor 1188, repair cost 0, region multiplier
    1.25, subtotal 20235, overhead 2023.5, profit 4451.7, total 26710.2, and
    the quote range (24039.18, 30716.73). *)
Theorem end_to_end_example (zip_rest : string) (rule : crew_scaling_rule)
    (flat steep very : Q) (materials replacements : gmap string Q) :
  ∃ q,
    quote_locals example_row
      (example_roofer zip_rest rule flat steep very materials replacements) = Ok q
    ∧ calculate_quote example_row
        (example_roofer zip_rest rule flat steep very materials replacements)
      = Ok (quote_range q)
    ∧ crew_size_used q = 3%Z
    ∧ (material_cost q == 15000)%Q
    ∧ (hours q == 8)%Q
    ∧ (base_labor_cost q == 1080)%Q
    ∧ (base_labor_cost q == 8 * 45 * 3)%Q
    ∧ (slope_factor q == 0.1)%Q
    ∧ (labor_cost q == 1188)%Q
    ∧ (repair_cost q == 0)%Q
    ∧ (regional_multiplier q == 1.25)%Q
    ∧ (subtotal q == 20235)%Q
    ∧ (overhead q == 2023.5)%Q
    ∧ (profit q == 4451.7)%Q
    ∧ (total q == 26710.2)%Q
    ∧ (fst (quote_range q) == 24039.18)%Q
    ∧ (snd (quote_range q) == 30716.73)%Q.
Proof.
  set (R := example_roofer zip_rest rule flat steep very materials replacements).
  assert (Hx : extract example_row
               = Ok {| x_area := VNum 2500; x_pitch := VNum 24.43;
                       x_height := VNum 15; x_material := "concrete";
                       x_condition := VNum 80 |}) by reflexivity.
  assert (Hm : material_costs R !! "concrete" = Some 6.0%Q)
    by apply lookup_insert_eq.
  assert (Hr : repair_loop repair_fields example_row R 0 = Ok 0%Q) by reflexivity.
  assert (Hz : get_region_multiplier (region_zip R) = 1.25%Q).
  { unfold get_region_multiplier, region_multiplier, str.
    assert (Hp : startswith (region_zip R) high_cost_zips = true).
    { apply startswith_spec. exists "100", zip_rest.
      split; [apply list_elem_of_here | reflexivity]. }
    by rewrite Hp. }
  assert (Hq : ∃ q, quote_locals example_row R = Ok q
                    ∧ q = {| material_cost := 2500 * 6.0;
                             crew_size_used := 3;
                             hours := 2500 / 2500 * 8;
                             base_labor_cost := 2500 / 2500 * 8 * 45 * inject_Z 3;
                             slope_factor := 0.1;
                             labor_cost := 2500 / 2500 * 8 * 45 * inject_Z 3 * (1 + 0.1);
                             repair_cost := 0;
                             regional_multiplier := 1.25;
                             subtotal := subtotal q;
                             overhead := overhead q;
                             profit := profit q;
                             total := total q;
                             quote_range := quote_range q |}
                    ∧ (subtotal q == 20235)%Q ∧ (overhead q == 2023.5)%Q
                    ∧ (profit q == 4451.7)%Q ∧ (total q == 26710.2)%Q
                    ∧ (fst (quote_range q) == 24039.18)%Q
                    ∧ (snd (quote_range q) == 30716.73)%Q).
  { unfold quote_locals. rewrite Hx. cbn [bind x_area x_pitch x_height x_material].
    rewrite Hm, Hr, Hz. eexists. split; [reflexivity|].
    split; [reflexivity|]. repeat split; vm_compute; reflexivity. }
  destruct Hq as (q & Hq & Hfields & Hs & Ho & Hp & Ht & Hlo & Hhi).
  exists q. split; [exact Hq|]. split.
  { unfold calculate_quote. by rewrite Hq. }
  rewrite Hfields at 1 2 3 4 5 6 7 8 9. cbn [crew_size_used material_cost hours base_labor_cost slope_factor labor_cost repair_cost regional_multiplier].
  repeat split; try done; vm_compute; reflexivity.
Qed.

(** ** The steps of a successful calculation *)

Lemma quote_locals_steps (row : gmap string value) (r : roofer) (q : quote) :
  quote_locals row r = Ok q →
  ∃ x days,
    extract row = Ok x
    ∧ mul (x_area x) (default 5.0%Q (material_costs r !! x_material x))
      = Ok (material_cost q)
    ∧ crew_size_of (x_area x) (x_pitch x) (x_height x) r = Ok (crew_size_used q)
    ∧ div (x_area x) (daily_productivity r) = Ok days
    ∧ hours q = (days * 8)%Q
    ∧ base_labor_cost q = (hours q * labor_rate r * inject_Z (crew_size_used q))%Q
    ∧ slope_factor_of (x_pitch x) r = Ok (slope_factor q)
    ∧ labor_cost q = (base_labor_cost q * (1 + slope_factor q))%Q
    ∧ repair_loop repair_fields row r 0 = Ok (repair_cost q)
    ∧ regional_multiplier q = get_region_multiplier (region_zip r)
    ∧ subtotal q
      = ((material_cost q + labor_cost q + repair_cost q) * regional_multiplier q)%Q
    ∧ overhead q = (subtotal q * overhead_percent r)%Q
    ∧ profit q = ((subtotal q + overhead q) * profit_margin r)%Q
    ∧ total q = (subtotal q + overhead q + profit q)%Q
    ∧ quote_range q = (round (total q * 0.9) 2, round (total q * 1.15) 2).
Proof.
  unfold quote_locals.
  destruct (extract row) as [x|e]; [|discriminate]. cbn [bind].
  destruct (mul (x_area x) _) as [mc|e] eqn:Hmc; [|discriminate]. cbn [bind].
  destruct (crew_size_of _ _ _ r) as [crew|e] eqn:Hcrew; [|discriminate]. cbn [bind].
  destruct (div _ _) as [days|e] eqn:Hdays; [|discriminate]. cbn [bind].
  destruct (slope_factor_of _ r) as [sf|e] eqn:Hsf; [|discriminate]. cbn [bind].
  destruct (repair_loop _ row r 0) as [rc|e] eqn:Hrc; [|discriminate]. cbn [bind].
  intros [= <-]. exists x, days. cbn. by repeat split.
Qed.

Lemma extract_fields (row : gmap string value) (x : extracted) :
  extract row = Ok x →
  x_area x = get row "roof_area" (VNum 2500)
  ∧ x_pitch x = get row "pitch" (VNum 15)
  ∧ x_height x = get row "height_ft" (VNum 15)
  ∧ lower (get row "roof_material" (VStr "asphalt")) = Ok (x_material x)
  ∧ x_condition x = get row "roof_condition_summary_score" (VNum 80).
Proof.
  unfold extract. destruct (lower _) as [m|e]; [|discriminate].
  intros [= <-]. cbn. repeat split.
Qed.

(** ** Crew sizing *)

(** C3: on a normalized record (numeric area [a], pitch [p] and height [h])
    the crew is the base crew plus [big] plus [huge] plus [hard], where [big]
    is 1 when a > 3000 and 0 otherwise, [huge] is 1 when a > 5000 and 0
    otherwise, and [hard] is 1 when p > 30 or h > 25 (once, also when both
    hold) and 0 otherwise; the crew step always returns, every successful
    calculation reports this crew, and it is never below the base crew. *)
Theorem crew_size_formula (row : gmap string value) (r : roofer) (a p h : Q) :
  get row "roof_area" (VNum 2500) = VNum a →
  get row "pitch" (VNum 15) = VNum p →
  get row "height_ft" (VNum 15) = VNum h →
  ∃ big huge hard : Z,
    crew_size_of (VNum a) (VNum p) (VNum h) r
    = Ok (base_crew_size r + big + huge + hard)%Z
    ∧ (∀ q, quote_locals row r = Ok q →
            crew_size_used q = (base_crew_size r + big + huge + hard)%Z)
    ∧ ((3000 < a)%Q → big = 1%Z) ∧ ((a <= 3000)%Q → big = 0%Z)
    ∧ ((5000 < a)%Q → huge = 1%Z) ∧ ((a <= 5000)%Q → huge = 0%Z)
    ∧ ((30 < p)%Q ∨ (25 < h)%Q → hard = 1%Z)
    ∧ ((p <= 30)%Q → (h <= 25)%Q → hard = 0%Z)
    ∧ (base_crew_size r ≤ base_crew_size r + big + huge + hard)%Z.
Proof.
  intros Ha Hp Hh.
  exists (if Qlt_le_dec 3000 a then 1 else 0)%Z,
         (if Qlt_le_dec 5000 a then 1 else 0)%Z,
         (if Qlt_le_dec 30 p then 1 else if Qlt_le_dec 25 h then 1 else 0)%Z.
  assert (Hcrew : crew_size_of (VNum a) (VNum p) (VNum h) r
                  = Ok (base_crew_size r
                        + (if Qlt_le_dec 3000 a then 1 else 0)
                        + (if Qlt_le_dec 5000 a then 1 else 0)
                        + (if Qlt_le_dec 30 p then 1
                           else if Qlt_le_dec 25 h then 1 else 0))%Z).
  { unfold crew_size_of, gt. cbn [bind]. rewrite !Qgt_bool_dec.
    destruct (Qlt_le_dec 3000 a), (Qlt_le_dec 5000 a), (Qlt_le_dec 30 p);
      cbn [bind]; rewrite ?Qgt_bool_dec; try destruct (Qlt_le_dec 25 h);
      f_equal; lia. }
  split; [exact Hcrew|]. split.
  { intros q Hq. apply quote_locals_steps in Hq as (x & days & Hx & _ & Hc & _).
    apply extract_fields in Hx as (Hxa & Hxp & Hxh & _).
    rewrite Hxa, Hxp, Hxh, Ha, Hp, Hh, Hcrew in Hc. by injection Hc. }
  repeat split.
  - intros H. destruct (Qlt_le_dec 3000 a); [done | lra].
  - intros H. destruct (Qlt_le_dec 3000 a); [lra | done].
  - intros H. destruct (Qlt_le_dec 5000 a); [done | lra].
  - intros H. destruct (Qlt_le_dec 5000 a); [lra | done].
  - intros H. destruct (Qlt_le_dec 30 p); [done|].
    destruct (Qlt_le_dec 25 h); [done | lra].
  - intros H1 H2. destruct (Qlt_le_dec 30 p); [lra|].
    destruct (Qlt_le_dec 25 h); [lra | done].
  - destruct (Qlt_le_dec 3000 a), (Qlt_le_dec 5000 a), (Qlt_le_dec 30 p),
      (Qlt_le_dec 25 h); lia.
Qed.

Lemma crew_size_formula_witness :
  ∃ big huge hard : Z,
    crew_size_of (VNum 5200) (VNum 35) (VNum 30) (form_defaults "83001")
    = Ok (3 + big + huge + hard)%Z
    ∧ (big, huge, hard) = (1, 1, 1)%Z.
Proof.
  destruct (crew_size_formula steep_large_row (form_defaults "83001") 5200 35 30
              eq_refl eq_refl eq_refl)
    as (big & huge & hard & Hc & _ & Hb & _ & Hg & _ & Hd & _).
  exists big, huge, hard. split; [exact Hc|].
  rewrite Hb, Hg, Hd; [reflexivity | left | |]; reflexivity.
Defined.

(** ** The slope surcharge *)

(** C4: the slope bucket is chosen by pitch with inclusive upper bounds:
    pitch <= 15 gives [flat_low], 15 < pitch <= 30 gives [moderate],
    30 < pitch <= 45 gives [steep] and pitch > 45 gives [very_steep]; so 15.0
    is [flat_low], 15.01 is [moderate], 45.0 is [steep] and 45.01 is
    [very_steep].  In every successful calculation the labor cost is the base
    labor cost times (1 + the fraction of the bucket of the record's pitch). *)
Theorem slope_bucket_bounds (r : roofer) (p : Q) :
  (∃ f, slope_factor_of (VNum p) r = Ok f
        ∧ ((p <= 15)%Q → f = flat_low (slope_cost_adjustment r))
        ∧ ((15 < p)%Q → (p <= 30)%Q → f = moderate (slope_cost_adjustment r))
        ∧ ((30 < p)%Q → (p <= 45)%Q → f = steep (slope_cost_adjustment r))
        ∧ ((45 < p)%Q → f = very_steep (slope_cost_adjustment r)))
  ∧ slope_factor_of (VNum 15.0) r = Ok (flat_low (slope_cost_adjustment r))
  ∧ slope_factor_of (VNum 15.01) r = Ok (moderate (slope_cost_adjustment r))
  ∧ slope_factor_of (VNum 45.0) r = Ok (steep (slope_cost_adjustment r))
  ∧ slope_factor_of (VNum 45.01) r = Ok (very_steep (slope_cost_adjustment r))
  ∧ (∀ row q, quote_locals row r = Ok q →
       slope_factor_of (get row "pitch" (VNum 15)) r = Ok (slope_factor q)
       ∧ labor_cost q = (base_labor_cost q * (1 + slope_factor q))%Q
       ∧ base_labor_cost q
         = (hours q * labor_rate r * inject_Z (crew_size_used q))%Q).
Proof.
  split; [|repeat split; try reflexivity].
  - unfold slope_factor_of, le. cbn [bind].
    destruct (Qle_bool p 15) eqn:E15.
    { apply Qle_bool_iff in E15. eexists. split; [reflexivity|].
      repeat split; intros; try done; lra. }
    apply Qle_bool_false in E15. cbn [bind].
    destruct (Qle_bool p 30) eqn:E30.
    { apply Qle_bool_iff in E30. eexists. split; [reflexivity|].
      repeat split; intros; try done; lra. }
    apply Qle_bool_false in E30. cbn [bind].
    destruct (Qle_bool p 45) eqn:E45.
    { apply Qle_bool_iff in E45. eexists. split; [reflexivity|].
      repeat split; intros; try done; lra. }
    apply Qle_bool_false in E45.
    eexists. split; [reflexivity|]. repeat split; intros; try done; lra.
  - apply quote_locals_steps in H as (x & days & Hx & _ & _ & _ & _ & _ & Hs & _).
    apply extract_fields in Hx as (_ & Hxp & _). by rewrite <- Hxp.
  - by apply quote_locals_steps in H as (x & days & _ & _ & _ & _ & _ & _ & _ & Hl & _).
  - by apply quote_locals_steps in H as (x & days & _ & _ & _ & _ & _ & Hb & _).
Qed.

Lemma slope_bucket_bounds_witness :
  ∃ f, slope_factor_of (VNum 30) (form_defaults "10001") = Ok f ∧ f = 0.1%Q.
Proof.
  destruct (proj1 (slope_bucket_bounds (form_defaults "10001") 30))
    as (f & Hf & _ & Hm & _).
  exists f. split; [exact Hf|]. apply Hm; [reflexivity | by vm_compute].
Defined.

(** ** Repair cost *)

Lemma repair_loop_step (f mat : string) (fs : list string)
    (row : gmap string value) (r : roofer) (c c' : Q) :
  item0 (split f) = Ok mat →
  repair_loop (f :: fs) row r c = Ok c' →
  ∃ c1, (c1 == c + repair_line row r f mat)%Q ∧ repair_loop fs row r c1 = Ok c'.
Proof.
  intros Hmat. cbn [repair_loop]. unfold repair_line.
  destruct (row !! f) as [[|a|s]|]; cbn [gt bind]; try discriminate.
  - rewrite Qgt_bool_dec, Hmat. destruct (Qlt_le_dec 0 a); cbn [bind mul].
    + intros H. eexists. split; [|exact H]. reflexivity.
    + intros H. exists c. split; [lra | exact H].
  - intros H. exists c. split; [lra | exact H].
Qed.

(** C7: in every successful calculation the repair cost is the sum of three
    lines, one for each of the shingle, tile and metal repair-area fields: a
    field that is present and strictly positive contributes its area times
    the material's entry in [replacement_costs] (50 when there is none), any
    other contributes nothing.  No other field enters: a record that agrees
    on these three fields has the same repair cost, whatever repair-area
    fields of other materials it holds. *)
Theorem repair_cost_three_fields (row : gmap string value) (r : roofer) (q : quote) :
  quote_locals row r = Ok q →
  (repair_cost q ==
     repair_line row r "shingle repair area (sqm)" "shingle"
     + repair_line row r "tile repair area (sqm)" "tile"
     + repair_line row r "metal repair area (sqm)" "metal")%Q
  ∧ (∀ row' q',
       row' !! "shingle repair area (sqm)" = row !! "shingle repair area (sqm)" →
       row' !! "tile repair area (sqm)" = row !! "tile repair area (sqm)" →
       row' !! "metal repair area (sqm)" = row !! "metal repair area (sqm)" →
       quote_locals row' r = Ok q' → repair_cost q' = repair_cost q).
Proof.
  intros Hq.
  apply quote_locals_steps in Hq
    as (x & days & _ & _ & _ & _ & _ & _ & _ & _ & Hrc & _).
  split.
  - unfold repair_fields in Hrc.
    apply (repair_loop_step _ "shingle") in Hrc as (c1 & H1 & Hrc); [|reflexivity].
    apply (repair_loop_step _ "tile") in Hrc as (c2 & H2 & Hrc); [|reflexivity].
    apply (repair_loop_step _ "metal") in Hrc as (c3 & H3 & Hrc); [|reflexivity].
    injection Hrc as <-. rewrite H3, H2, H1. lra.
  - intros row' q' Hs Ht Hm Hq'.
    apply quote_locals_steps in Hq'
      as (x' & days' & _ & _ & _ & _ & _ & _ & _ & _ & Hrc' & _).
    rewrite (repair_loop_agree repair_fields row' row) in Hrc'; [congruence|].
    intros f. unfold repair_fields. rewrite !elem_of_cons, elem_of_nil.
    intros [->|[->|[->|[]]]]; assumption.
Qed.

Lemma repair_cost_three_fields_witness :
  ∃ q, quote_locals repair_row (form_defaults "10001") = Ok q
       ∧ (repair_cost q == 500)%Q.
Proof.
  eexists. split; [reflexivity|].
  rewrite (proj1 (repair_cost_three_fields repair_row (form_defaults "10001") _ eq_refl)).
  reflexivity.
Defined.

(** ** Normalization *)

Lemma lower_ascii_not_upper (c : ascii) : is_upper (lower_ascii c) = false.
Proof.
  destruct c as [[] [] [] [] [] [] [] []]; reflexivity.
Qed.

Lemma lower_string_not_upper (s : string) :
  Forall (λ c, is_upper c = false) (list_ascii_of_string (lower_string s)).
Proof.
  induction s as [|c s IH]; simpl; constructor; [apply lower_ascii_not_upper | exact IH].
Qed.

(** ** Batch isolation *)

Section batch_loop.
Variable profile : roofer.

Lemma batch_loop_all_quoted (raws : list (gmap string value)) (index : nat)
    (results : list Batch.quote_result) (errors : list (nat * Batch.reason)) :
  (∀ raw, raw ∈ raws → ∃ q, Batch.quote_record profile raw = Batch.Quoted q) →
  ∃ qs, Batch.batch_loop profile raws index results errors = (results ++ qs, errors)
        ∧ Batch.Quoted <$> qs = Batch.quote_record profile <$> raws.
Proof.
  revert index results.
  induction raws as [|raw rest IH]; intros index results Hgood.
  - exists []. by rewrite app_nil_r.
  - destruct (Hgood raw) as [q Hq]; [apply list_elem_of_here|].
    destruct (IH (S index) (results ++ [q])) as (qs & Hloop & Hqs).
    { intros raw' Hin. apply Hgood. by apply list_elem_of_further. }
    exists (q :: qs). cbn [Batch.batch_loop]. rewrite Hq, Hloop.
    split; [by rewrite <- app_assoc | by rewrite !fmap_cons, Hq, Hqs].
Qed.

Lemma batch_loop_one_rejected (raws : list (gmap string value)) (k index : nat)
    (results : list Batch.quote_result) (errors : list (nat * Batch.reason))
    (bad : gmap string value) (why : Batch.reason) :
  raws !! k = Some bad →
  Batch.quote_record profile bad = Batch.Rejected why →
  (∀ j raw, j ≠ k → raws !! j = Some raw →
            ∃ q, Batch.quote_record profile raw = Batch.Quoted q) →
  ∃ qs, Batch.batch_loop profile raws index results errors
        = (results ++ qs, errors ++ [(index + k, why)])
        ∧ Batch.Quoted <$> qs = Batch.quote_record profile <$> delete k raws.
Proof.
  revert k index results.
  induction raws as [|raw rest IH]; intros k index results Hk Hbad Hgood;
    [discriminate|].
  destruct k as [|k].
  - injection Hk as ->.
    destruct (batch_loop_all_quoted rest (S index) results
                (errors ++ [(index, why)])) as (qs & Hloop & Hqs).
    { intros raw' Hin. apply list_elem_of_lookup in Hin as [j Hj].
      by apply (Hgood (S j)). }
    exists qs. cbn [Batch.batch_loop]. rewrite Hbad, Hloop.
    by rewrite Nat.add_0_r.
  - destruct (Hgood 0 raw) as [q Hq]; [done..|].
    destruct (IH k (S index) (results ++ [q]) Hk Hbad) as (qs & Hloop & Hqs).
    { intros j raw' Hj Hl. apply (Hgood (S j)); [lia | done]. }
    exists (q :: qs). cbn [Batch.batch_loop]. rewrite Hq, Hloop.
    rewrite <- app_assoc, Nat.add_succ_r. split; [done|].
    change (delete (S k) (raw :: rest)) with (raw :: delete k rest).
    by rewrite !fmap_cons, Hq, Hqs.
Qed.
End batch_loop.

(** C6: when exactly the record at index [k] of a batch is rejected by the
    per-record step, [run_batch] returns the quotes of the other records, in
    input order and one fewer than the records, together with a single error
    entry, which carries index [k] and the reason of the rejection: the
    failure neither stops the loop nor changes what the other records yield. *)
Theorem run_batch_isolates_one_failure (profile : roofer)
    (raws : list (gmap string value)) (k : nat) (bad : gmap string value)
    (why : Batch.reason) :
  raws !! k = Some bad →
  Batch.quote_record profile bad = Batch.Rejected why →
  (∀ j raw, j ≠ k → raws !! j = Some raw →
            ∃ q, Batch.quote_record profile raw = Batch.Quoted q) →
  ∃ results,
    Batch.run_batch profile raws = (results, [(k, why)])
    ∧ length results = length raws - 1
    ∧ Batch.Quoted <$> results = Batch.quote_record profile <$> delete k raws.
Proof.
  intros Hk Hbad Hgood.
  destruct (batch_loop_one_rejected profile raws k 0 [] [] bad why Hk Hbad Hgood)
    as (qs & Hloop & Hqs).
  exists qs. split; [exact Hloop|]. split; [|exact Hqs].
  apply (f_equal length) in Hqs. rewrite !length_fmap in Hqs.
  rewrite Hqs, length_delete; [done|]. by exists bad.
Qed.

Lemma run_batch_isolates_one_failure_witness :
  ∃ results,
    Batch.run_batch (form_defaults "10001") batch_of_three
    = (results, [(1, Batch.Failed TypeError)])
    ∧ length results = 2
    ∧ Batch.address <$> results = [VStr "1 Elm St"; VStr "3 Ash Rd"].
Proof.
  destruct (run_batch_isolates_one_failure (form_defaults "10001") batch_of_three 1
              (<["address" := VStr "2 Oak Ave"]> (<["roof_area" := VStr "n/a"]> example_row))
              (Batch.Failed TypeError) eq_refl eq_refl)
    as (results & Hrun & Hlen & Hres).
  { intros [|[|[|j]]] raw Hj Hl; try done; injection Hl as <-; eexists; reflexivity. }
  exists results. split; [exact Hrun|]. split; [exact Hlen|].
  destruct results as [|q1 [|q2 [|q3 results]]]; try discriminate.
  vm_compute in Hres. injection Hres as -> ->. reflexivity.
Defined.

(** ** Rounding *)

Lemma round_half_even_near (y : Q) :
  (y - (1 # 2) <= inject_Z (round_half_even y) <= y + (1 # 2))%Q.
Proof.
  unfold round_half_even.
  pose proof (Qfloor_le y) as Hlo. pose proof (Qlt_floor y) as Hhi.
  rewrite inject_Z_plus in Hhi. change (inject_Z 1) with 1%Q in Hhi.
  destruct (Qcompare_spec (y - inject_Z (Qfloor y)) (1 # 2)) as [H|H|H].
  - destruct (Z.even (Qfloor y)); rewrite ?inject_Z_plus;
      change (inject_Z 1) with 1%Q; lra.
  - lra.
  - rewrite inject_Z_plus. change (inject_Z 1) with 1%Q. lra.
Qed.

Lemma round_half_even_comp (x y : Q) :
  (x == y)%Q → round_half_even x = round_half_even y.
Proof.
  intros H. unfold round_half_even.
  rewrite (Qfloor_comp x y H).
  assert (Hc : (x - inject_Z (Qfloor y) ?= 1 # 2)%Q
               = (y - inject_Z (Qfloor y) ?= 1 # 2)%Q) by (by rewrite H).
  by rewrite Hc.
Qed.

(** ** Valid inputs *)





(** ** Rounding and the order of amounts *)

Lemma round_half_even_floor (x : Q) :
  (Qfloor x ≤ round_half_even x ≤ Qfloor x + 1)%Z.
Proof.
  unfold round_half_even.
  destruct (x - inject_Z (Qfloor x) ?= 1 # 2)%Q; [destruct (Z.even _)| |]; lia.
Qed.

Lemma round_half_even_mono (x y : Q) :
  (x <= y)%Q → (round_half_even x ≤ round_half_even y)%Z.
Proof.
  intros Hxy. pose proof (Qfloor_resp_le x y Hxy) as Hf.
  destruct (Z.eq_dec (Qfloor x) (Qfloor y)) as [E|E].
  - unfold round_half_even. rewrite E.
    destruct (Qcompare_spec (x - inject_Z (Qfloor y)) (1 # 2)) as [Hx|Hx|Hx];
      destruct (Qcompare_spec (y - inject_Z (Qfloor y)) (1 # 2)) as [Hy|Hy|Hy];
      try destruct (Z.even (Qfloor y)); try lia; lra.
  - pose proof (round_half_even_floor x). pose proof (round_half_even_floor y). lia.
Qed.


(** ** What the result depends on *)

(** X6: the result depends on the record only through [roof_area], [pitch],
    [height_ft], [roof_material] and the three repair-area fields: two
    records that agree on these seven give the same computed values, range
    or exception under the same profile, so an address or a ZIP in the
    record changes nothing. *)
Theorem only_used_fields_matter (row1 row2 : gmap string value) (r : roofer) :
  (∀ f, f ∈ used_fields → row1 !! f = row2 !! f) →
  quote_locals row1 r = quote_locals row2 r
  ∧ calculate_quote row1 r = calculate_quote row2 r.
Proof.
  intros H.
  assert (Hq : quote_locals row1 r = quote_locals row2 r).
  { unfold quote_locals, extract, get.
    rewrite (H "roof_area"), (H "pitch"), (H "height_ft"), (H "roof_material");
      [|unfold used_fields; cbn [app]; rewrite !elem_of_cons; tauto..].
    rewrite (repair_loop_agree repair_fields row1 row2).
    - by destruct (lower _).
    - intros f Hf. apply H. unfold used_fields. apply elem_of_app. by right. }
  split; [exact Hq|]. unfold calculate_quote. by rewrite Hq.
Qed.

Lemma only_used_fields_matter_witness :
  calculate_quote (<["zip" := VStr "83001"]> (<["address" := VNone]> example_row))
                  (form_defaults "10001")
  = calculate_quote example_row (form_defaults "10001").
Proof.
  apply (only_used_fields_matter
           (<["zip" := VStr "83001"]> (<["address" := VNone]> example_row))
           example_row (form_defaults "10001")).
  intros f Hf. unfold used_fields, repair_fields in Hf. cbn [app] in Hf.
  rewrite !elem_of_cons, elem_of_nil in Hf.
  destruct Hf as [->|[->|[->|[->|[->|[->|[->|[]]]]]]]]; reflexivity.
Defined.


(** X10: no ZIP begins with a prefix of both lists of
    [get_region_multiplier]: which list is tested first cannot be seen in
    any result. *)
Theorem prefix_lists_never_both_match (zip : string) :
  startswith zip high_cost_zips && startswith zip low_cost_zips = false.
Proof.
  destruct (startswith zip high_cost_zips) eqn:Hh; [|done].
  destruct (startswith zip low_cost_zips) eqn:Hl; [|done].
  apply startswith_spec in Hh as (p & rest & Hp & ->).
  apply startswith_spec in Hl as (p' & rest' & Hp' & Heq).
  unfold high_cost_zips in Hp. unfold low_cost_zips in Hp'.
  rewrite !elem_of_cons, elem_of_nil in Hp. rewrite !elem_of_cons, elem_of_nil in Hp'.
  destruct Hp as [->|[->|[->|[->|[]]]]]; destruct Hp' as [->|[->|[->|[->|[]]]]];
    discriminate.
Qed.

(** ** A larger roof *)





(** ** Powers of two *)

Lemma pow2_pos (e : Z) : (0 < Binary64.pow2 e)%Q.
Proof. apply Qpower_0_lt. reflexivity. Qed.

Lemma pow2_neq0 (e : Z) : ¬ (Binary64.pow2 e == 0)%Q.
Proof. apply Qnot_eq_sym, Qlt_not_eq, pow2_pos. Qed.

Lemma pow2_add (a b : Z) :
  (Binary64.pow2 (a + b) == Binary64.pow2 a * Binary64.pow2 b)%Q.
Proof. apply Qpower_plus. discriminate. Qed.

Lemma pow2_le (a b : Z) :
  (a ≤ b)%Z → (Binary64.pow2 a <= Binary64.pow2 b)%Q.
Proof. intros H. apply Qpower_le_compat_l; [exact H | by vm_compute]. Qed.

Lemma pow2_lt (a b : Z) :
  (a < b)%Z → (Binary64.pow2 a < Binary64.pow2 b)%Q.
Proof. intros H. apply Qpower_lt_compat_l; [exact H | reflexivity]. Qed.

Lemma pow2_lt_inv (a b : Z) :
  (Binary64.pow2 a < Binary64.pow2 b)%Q → (a < b)%Z.
Proof. intros H. apply (Qpower_lt_compat_l_inv 2); [exact H | reflexivity]. Qed.

Lemma pow2_Z (a : Z) :
  (0 ≤ a)%Z → (Binary64.pow2 a == inject_Z (2 ^ a))%Q.
Proof. intros H. unfold Binary64.pow2. by rewrite Zpower_Qpower. Qed.

Lemma pow2_sub (a b : Z) :
  (Binary64.pow2 (a - b) == Binary64.pow2 a / Binary64.pow2 b)%Q.
Proof.
  pose proof (pow2_pos b) as Hb.
  pose proof (pow2_add (a - b) b) as H.
  replace (a - b + b)%Z with a in H by lia.
  rewrite H. field. lra.
Qed.

Lemma pow2_succ (a : Z) :
  (Binary64.pow2 (a + 1) == 2 * Binary64.pow2 a)%Q.
Proof. rewrite pow2_add. change (Binary64.pow2 1) with 2%Q. ring. Qed.

(** ** The binary logarithm *)

Lemma ilog2_spec (x : Q) :
  (0 < x)%Q →
  (Binary64.pow2 (Binary64.ilog2 x) <= x)%Q ∧
  (x < Binary64.pow2 (Binary64.ilog2 x + 1))%Q.
Proof.
  intros Hx. destruct x as [n d].
  assert (Hn : (0 < n)%Z).
  { unfold Qlt in Hx. simpl in Hx. lia. }
  unfold Binary64.ilog2. cbn [Qnum Qden].
  set (a := Z.log2 n). set (b := Z.log2 (Z.pos d)).
  destruct (Z.log2_spec n Hn) as [Ha1 Ha2]. fold a in Ha1, Ha2.
  destruct (Z.log2_spec (Z.pos d) ltac:(lia)) as [Hb1 Hb2]. fold b in Hb1, Hb2.
  assert (Ha0 : (0 ≤ a)%Z) by apply Z.log2_nonneg.
  assert (Hb0 : (0 ≤ b)%Z) by apply Z.log2_nonneg.
  pose proof (pow2_Z a Ha0) as Pa.
  pose proof (pow2_Z b Hb0) as Pb.
  pose proof (pow2_succ a) as Pa1.
  pose proof (pow2_succ b) as Pb1.
  pose proof (pow2_Z (a + 1) ltac:(lia)) as Pa2.
  pose proof (pow2_Z (b + 1) ltac:(lia)) as Pb2.
  replace (Z.succ a) with (a + 1)%Z in Ha2 by lia.
  replace (Z.succ b) with (b + 1)%Z in Hb2 by lia.
  rewrite Zle_Qle in Ha1, Hb1. rewrite Zlt_Qlt in Ha2, Hb2.
  rewrite <- Pa in Ha1. rewrite <- Pb in Hb1.
  rewrite <- Pa2 in Ha2. rewrite <- Pb2 in Hb2.
  pose proof (pow2_pos a) as Qa. pose proof (pow2_pos b) as Qb.
  pose proof (pow2_sub a b) as Pab.
  assert (HD : (0 < inject_Z (Z.pos d))%Q).
  { rewrite <- (Zlt_Qlt 0). lia. }
  assert (Hx' : (n # d == inject_Z n / inject_Z (Z.pos d))%Q) by apply Qmake_Qdiv.
  set (N := inject_Z n) in *. set (D := inject_Z (Z.pos d)) in *.
  set (x := (n # d)%Q) in *.
  assert (HxD : (x * D == N)%Q).
  { rewrite Hx'. field. lra. }
  clearbody x N D. clear Hx'.
  destruct (Qle_bool (Binary64.pow2 (a - b)) x) eqn:E.
  - split; [by apply Qle_bool_iff|].
    replace (a - b + 1)%Z with (a + 1 - b)%Z by lia.
    rewrite pow2_sub. apply Qlt_shift_div_l; [exact Qb|].
    apply Qle_lt_trans with (x * D)%Q; [|lra].
    apply Qmult_le_l; [exact Hx | exact Hb1].
  - replace (a - b - 1 + 1)%Z with (a - b)%Z by lia.
    split.
    + replace (a - b - 1)%Z with (a - (b + 1))%Z by lia.
      rewrite pow2_sub.
      apply Qle_shift_div_r; [apply pow2_pos|].
      apply Qle_trans with (x * D)%Q; [lra|].
      apply Qmult_le_l; [exact Hx | lra].
    + apply Qnot_le_lt. intros H. apply Qle_bool_iff in H. congruence.
Qed.

Lemma ilog2_unique (x : Q) (k : Z) :
  (Binary64.pow2 k <= x)%Q → (x < Binary64.pow2 (k + 1))%Q →
  Binary64.ilog2 x = k.
Proof.
  intros H1 H2.
  assert (Hx : (0 < x)%Q).
  { apply Qlt_le_trans with (Binary64.pow2 k); [apply pow2_pos | exact H1]. }
  destruct (ilog2_spec x Hx) as [L1 L2].
  assert ((Binary64.ilog2 x < k + 1)%Z).
  { apply pow2_lt_inv. lra. }
  assert ((k < Binary64.ilog2 x + 1)%Z).
  { apply pow2_lt_inv. lra. }
  lia.
Qed.

Lemma ilog2_mono (x y : Q) :
  (0 < x)%Q → (x <= y)%Q → (Binary64.ilog2 x ≤ Binary64.ilog2 y)%Z.
Proof.
  intros Hx Hxy.
  destruct (ilog2_spec x Hx) as [L1 _].
  destruct (ilog2_spec y ltac:(lra)) as [_ L2].
  assert ((Binary64.ilog2 x < Binary64.ilog2 y + 1)%Z).
  { apply pow2_lt_inv. lra. }
  lia.
Qed.

Lemma ilog2_comp (x y : Q) :
  (0 < x)%Q → (x == y)%Q → Binary64.ilog2 x = Binary64.ilog2 y.
Proof.
  intros Hx Hxy.
  destruct (ilog2_spec y ltac:(lra)) as [L1 L2].
  apply ilog2_unique; lra.
Qed.

(** ** Rounding to the grid of binary64 *)

Lemma round_half_even_Z (x : Q) (n : Z) :
  (x == inject_Z n)%Q → round_half_even x = n.
Proof.
  intros H. rewrite (round_half_even_comp x (inject_Z n) H).
  unfold round_half_even. rewrite Qfloor_Z.
  assert (E : (inject_Z n - inject_Z n ?= 1 # 2)%Q = Lt).
  { apply Qlt_alt.
    assert (Z0 : (inject_Z n - inject_Z n == 0)%Q) by ring.
    by rewrite Z0. }
  by rewrite E.
Qed.

Lemma exponent_min (x : Q) : (-1074 ≤ Binary64.exponent x)%Z.
Proof. unfold Binary64.exponent. lia. Qed.

Lemma exponent_ilog2 (x : Q) :
  (Binary64.ilog2 x - 52 ≤ Binary64.exponent x)%Z.
Proof. unfold Binary64.exponent. lia. Qed.

Lemma exponent_mono (x y : Q) :
  (0 < x)%Q → (x <= y)%Q → (Binary64.exponent x ≤ Binary64.exponent y)%Z.
Proof.
  intros Hx Hxy. pose proof (ilog2_mono x y Hx Hxy).
  unfold Binary64.exponent. lia.
Qed.

Lemma overflow_comp (u v : Q) :
  (u == v)%Q → Binary64.overflow u = Binary64.overflow v.
Proof.
  intros H. unfold Binary64.overflow.
  assert (E : Qle_bool (Binary64.pow2 1024) u = Qle_bool (Binary64.pow2 1024) v).
  { apply eq_true_iff_eq. rewrite !Qle_bool_iff. by rewrite H. }
  rewrite E. destruct (Qle_bool _ v); [reflexivity|].
  f_equal. by apply Qred_complete.
Qed.

Lemma overflow_mono (u v : Q) :
  (u <= v)%Q →
  Binary64.le (Binary64.overflow u) (Binary64.overflow v) = true.
Proof.
  intros H. unfold Binary64.overflow.
  destruct (Qle_bool (Binary64.pow2 1024) u) eqn:Eu;
    destruct (Qle_bool (Binary64.pow2 1024) v) eqn:Ev; cbn; try reflexivity.
  - apply Qle_bool_iff in Eu.
    assert (Hv : (Binary64.pow2 1024 <= v)%Q) by lra.
    apply Qle_bool_iff in Hv. congruence.
  - apply Qle_bool_iff. by rewrite !Qred_correct.
Qed.

(** The mantissa of a positive number is at most [2^53]. *)
Lemma mantissa_range (x : Q) :
  (0 < x)%Q →
  (0 ≤ round_half_even (x / Binary64.pow2 (Binary64.exponent x)) ≤ 2 ^ 53)%Z.
Proof.
  intros Hx.
  set (e := Binary64.exponent x).
  pose proof (pow2_pos e) as He.
  destruct (ilog2_spec x Hx) as [_ L2].
  pose proof (exponent_ilog2 x) as Hi. fold e in Hi.
  split.
  - rewrite <- (round_half_even_Z 0 0 ltac:(reflexivity)).
    apply round_half_even_mono.
    apply Qle_shift_div_l; [exact He | lra].
  - rewrite <- (round_half_even_Z (inject_Z (2 ^ 53)) (2 ^ 53) ltac:(reflexivity)).
    apply round_half_even_mono.
    apply Qle_shift_div_r; [exact He|].
    rewrite <- (pow2_Z 53) by lia. rewrite <- pow2_add.
    pose proof (pow2_le (Binary64.ilog2 x + 1) (53 + e) ltac:(lia)). lra.
Qed.

Lemma round_pos_mono (x y : Q) :
  (0 < x)%Q → (x <= y)%Q →
  Binary64.le (Binary64.round_pos x) (Binary64.round_pos y) = true.
Proof.
  intros Hx Hxy.
  assert (Hy : (0 < y)%Q) by lra.
  unfold Binary64.round_pos. cbv zeta.
  apply overflow_mono.
  pose proof (exponent_mono x y Hx Hxy) as He.
  set (ex := Binary64.exponent x) in *. set (ey := Binary64.exponent y) in *.
  pose proof (pow2_pos ex) as Px. pose proof (pow2_pos ey) as Py.
  destruct (Z.eq_dec ex ey) as [Heq|Hne].
  - rewrite <- Heq.
    apply Qmult_le_compat_r; [|lra].
    rewrite <- Zle_Qle. apply round_half_even_mono.
    apply Qmult_le_compat_r; [exact Hxy|].
    apply Qlt_le_weak, Qinv_lt_0_compat, Px.
  - assert (Hlt : (ex < ey)%Z) by lia.
    set (m := Binary64.ilog2 y).
    assert (Hey : ey = (m - 52)%Z).
    { pose proof (exponent_min x). unfold ey, Binary64.exponent in *.
      fold m. fold ex in H. lia. }
    pose proof (exponent_ilog2 x) as Hix. fold ex in Hix.
    destruct (ilog2_spec x Hx) as [_ Lx].
    destruct (ilog2_spec y Hy) as [Ly _]. fold m in Ly.
    apply Qle_trans with (Binary64.pow2 m).
    + (* the mantissa of [x] times its unit is at most [2^m] *)
      assert (Hd : (Binary64.pow2 m / Binary64.pow2 ex == inject_Z (2 ^ (m - ex)))%Q).
      { rewrite <- pow2_sub. apply pow2_Z. lia. }
      assert (Hn : (round_half_even (x / Binary64.pow2 ex) ≤ 2 ^ (m - ex))%Z).
      { rewrite <- (round_half_even_Z _ _ Hd).
        apply round_half_even_mono.
        apply Qmult_le_compat_r; [|apply Qlt_le_weak, Qinv_lt_0_compat, Px].
        pose proof (pow2_le (Binary64.ilog2 x + 1) m ltac:(lia)). lra. }
      rewrite Zle_Qle in Hn. rewrite <- Hd in Hn.
      apply Qle_trans with (Binary64.pow2 m / Binary64.pow2 ex * Binary64.pow2 ex)%Q.
      * apply Qmult_le_compat_r; [exact Hn | lra].
      * apply Qle_lteq. right. field. lra.
    + assert (Hd : (Binary64.pow2 m / Binary64.pow2 ey == inject_Z (2 ^ 52))%Q).
      { rewrite <- pow2_sub. rewrite Hey.
        replace (m - (m - 52))%Z with 52%Z by lia. by apply pow2_Z. }
      assert (Hn : (2 ^ 52 ≤ round_half_even (y / Binary64.pow2 ey))%Z).
      { rewrite <- (round_half_even_Z _ _ Hd).
        apply round_half_even_mono.
        apply Qmult_le_compat_r; [exact Ly|].
        apply Qlt_le_weak, Qinv_lt_0_compat, Py. }
      rewrite Zle_Qle in Hn. rewrite <- Hd in Hn.
      apply Qle_trans with (Binary64.pow2 m / Binary64.pow2 ey * Binary64.pow2 ey)%Q.
      * apply Qle_lteq. right. field. lra.
      * apply Qmult_le_compat_r; [exact Hn | lra].
Qed.

Lemma round_pos_comp (x y : Q) :
  (0 < x)%Q → (x == y)%Q → Binary64.round_pos x = Binary64.round_pos y.
Proof.
  intros Hx Hxy. unfold Binary64.round_pos, Binary64.exponent. cbv zeta.
  rewrite (ilog2_comp x y Hx Hxy).
  apply overflow_comp.
  set (e := Z.max _ _).
  rewrite (round_half_even_comp (x / Binary64.pow2 e) (y / Binary64.pow2 e)).
  - reflexivity.
  - by rewrite Hxy.
Qed.

(** A positive multiple [n * 2^e] of a unit of the grid, with at most 53
    bits, is on the grid. *)
Lemma round_pos_grid (z : Q) (n e : Z) :
  (0 < n ≤ 2 ^ 53)%Z → (-1074 ≤ e)%Z →
  (z == inject_Z n * Binary64.pow2 e)%Q →
  Binary64.round_pos z = Binary64.overflow z.
Proof.
  intros Hn He Hz.
  pose proof (pow2_pos e) as Pe.
  assert (Hz0 : (0 < z)%Q).
  { rewrite Hz. apply Qmult_lt_0_compat; [|exact Pe].
    rewrite <- (Zlt_Qlt 0). lia. }
  set (k := Z.log2 n).
  destruct (Z.log2_spec n ltac:(lia)) as [K1 K2]. fold k in K1, K2.
  replace (Z.succ k) with (k + 1)%Z in K2 by lia.
  assert (K0 : (0 ≤ k)%Z) by apply Z.log2_nonneg.
  assert (Hlog : Binary64.ilog2 z = (k + e)%Z).
  { apply ilog2_unique.
    - rewrite Hz, pow2_add, (pow2_Z k K0).
      apply Qmult_le_compat_r; [by rewrite <- Zle_Qle | lra].
    - rewrite Hz. replace (k + e + 1)%Z with (k + 1 + e)%Z by lia.
      rewrite pow2_add, (pow2_Z (k + 1)) by lia.
      apply Qmult_lt_compat_r; [exact Pe | by rewrite <- Zlt_Qlt]. }
  unfold Binary64.round_pos, Binary64.exponent. cbv zeta. rewrite Hlog.
  set (e' := Z.max (k + e - 52) (-1074)).
  pose proof (pow2_pos e') as Pe'.
  apply overflow_comp.
  assert (Hint : ∃ N : Z, (z / Binary64.pow2 e' == inject_Z N)%Q).
  { destruct (Z_le_gt_dec k 52) as [Hk|Hk].
    - exists (n * 2 ^ (e - e'))%Z.
      rewrite inject_Z_mult, <- (pow2_Z (e - e')) by lia.
      rewrite Hz, pow2_sub. field. apply pow2_neq0.
    - assert (Hk53 : k = 53%Z).
      { assert ((k < 54)%Z); [|lia].
        apply (Z.pow_lt_mono_r_iff 2); [lia | lia |].
        apply Z.le_lt_trans with n; [exact K1|].
        apply Z.le_lt_trans with (2 ^ 53)%Z; [apply Hn | reflexivity]. }
      assert (Hn53 : n = (2 ^ 53)%Z).
      { rewrite Hk53 in K1. lia. }
      exists (2 ^ 52)%Z.
      assert (He' : e' = (e + 1)%Z) by lia.
      assert (E53 : (inject_Z (2 ^ 53) == 2 * inject_Z (2 ^ 52))%Q) by reflexivity.
      rewrite Hz, He', Hn53, pow2_succ, E53.
      generalize (inject_Z (2 ^ 52)). intros c.
      field. apply pow2_neq0. }
  destruct Hint as [N HN].
  rewrite (round_half_even_Z _ _ HN), <- HN. field. apply pow2_neq0.
Qed.

Lemma round_pos_idem (x z : Q) :
  (0 < x)%Q → Binary64.round_pos x = Binary64.Fin z →
  (z = 0%Q) ∨ ((0 < z)%Q ∧ Binary64.round_pos z = Binary64.Fin z).
Proof.
  intros Hx H.
  pose proof (mantissa_range x Hx) as Hn.
  unfold Binary64.round_pos in H. cbv zeta in H.
  set (e := Binary64.exponent x) in *.
  set (n := round_half_even (x / Binary64.pow2 e)) in *.
  pose proof (pow2_pos e) as Pe.
  unfold Binary64.overflow in H.
  destruct (Qle_bool _ _) eqn:E in H; [discriminate|].
  injection H as H.
  destruct (Z.eq_dec n 0%Z) as [Hn0|Hn0].
  - left. rewrite <- H, Hn0.
    change 0%Q with (Qred 0). apply Qred_complete. ring.
  - right.
    assert (Hz : (z == inject_Z n * Binary64.pow2 e)%Q).
    { rewrite <- H. apply Qred_correct. }
    split.
    + rewrite Hz. apply Qmult_lt_0_compat; [|exact Pe].
      rewrite <- (Zlt_Qlt 0). lia.
    + rewrite (round_pos_grid z n e ltac:(lia) (exponent_min x) Hz).
      rewrite (overflow_comp _ _ Hz).
      unfold Binary64.overflow. rewrite E. by rewrite H.
Qed.

(** The relative error of a rounding in the normal range is at most
    [2^-53]. *)
Lemma round_pos_near (x : Q) :
  (Binary64.pow2 (-1022) <= x)%Q →
  ∃ v : Q,
    Binary64.round_pos x = Binary64.overflow v ∧
    (x * (1 - Binary64.pow2 (-53)) <= v)%Q ∧
    (v <= x * (1 + Binary64.pow2 (-53)))%Q.
Proof.
  intros Hx.
  assert (Hx0 : (0 < x)%Q).
  { pose proof (pow2_pos (-1022)). lra. }
  destruct (ilog2_spec x Hx0) as [L1 L2].
  set (m := Binary64.ilog2 x) in *.
  assert (Hm : (-1022 ≤ m)%Z).
  { assert ((-1022 < m + 1)%Z); [|lia]. apply pow2_lt_inv. lra. }
  assert (He : Binary64.exponent x = (m - 52)%Z).
  { unfold Binary64.exponent. fold m. lia. }
  unfold Binary64.round_pos. cbv zeta. rewrite He.
  set (P := Binary64.pow2 (m - 52)).
  assert (PP : (0 < P)%Q) by apply pow2_pos.
  eexists. split; [reflexivity|].
  pose proof (round_half_even_near (x / P)) as [N1 N2].
  set (n := inject_Z (round_half_even (x / P))) in *.
  assert (Hu : (P * (1 # 2) <= x * Binary64.pow2 (-53))%Q).
  { assert (E : (P * (1 # 2) == Binary64.pow2 m * Binary64.pow2 (-53))%Q).
    { unfold P. replace (m - 52)%Z with (m + -52)%Z by lia.
      rewrite pow2_add.
      change (Binary64.pow2 (-53)) with (1 # 9007199254740992)%Q.
      change (Binary64.pow2 (-52)) with (1 # 4503599627370496)%Q.
      field. }
    rewrite E. apply Qmult_le_compat_r; [exact L1|].
    apply Qlt_le_weak, pow2_pos. }
  assert (Hxp : (x / P * P == x)%Q) by (field; lra).
  assert (M1 : ((x / P - (1 # 2)) * P <= n * P)%Q).
  { apply Qmult_le_compat_r; lra. }
  assert (M2 : (n * P <= (x / P + (1 # 2)) * P)%Q).
  { apply Qmult_le_compat_r; lra. }
  assert (E1 : ((x / P - (1 # 2)) * P == x - P * (1 # 2))%Q) by (field; lra).
  assert (E2 : ((x / P + (1 # 2)) * P == x + P * (1 # 2))%Q) by (field; lra).
  clearbody n. rewrite E1 in M1. rewrite E2 in M2.
  split; lra.
Qed.

(** ** Rounding a rational *)

Lemma rnd_pos (x : Q) : (0 < x)%Q → Binary64.rnd x = Binary64.round_pos x.
Proof.
  intros H. unfold Binary64.rnd.
  destruct (Qcompare_spec x 0); [lra | lra | reflexivity].
Qed.

Lemma rnd_zero (x : Q) : (x == 0)%Q → Binary64.rnd x = Binary64.Fin 0.
Proof.
  intros H. unfold Binary64.rnd.
  destruct (Qcompare_spec x 0); [reflexivity | lra | lra].
Qed.

Lemma rnd_neg (x : Q) :
  (x < 0)%Q → Binary64.rnd x = Binary64.neg (Binary64.round_pos (- x)).
Proof.
  intros H. unfold Binary64.rnd.
  destruct (Qcompare_spec x 0); [lra | reflexivity | lra].
Qed.

Lemma round_pos_nonneg (x : Q) :
  (0 < x)%Q →
  Binary64.round_pos x = Binary64.Inf false ∨
  ∃ z, Binary64.round_pos x = Binary64.Fin z ∧ (0 <= z)%Q.
Proof.
  intros Hx. pose proof (mantissa_range x Hx) as [Hn _].
  unfold Binary64.round_pos. cbv zeta.
  set (e := Binary64.exponent x) in *.
  set (n := round_half_even _) in *.
  unfold Binary64.overflow.
  destruct (Qle_bool _ _); [by left|].
  right. eexists. split; [reflexivity|].
  rewrite Qred_correct.
  apply Qmult_le_0_compat.
  - by rewrite <- (Zle_Qle 0).
  - apply Qlt_le_weak, pow2_pos.
Qed.

Lemma rnd_mono (x y : Q) :
  (0 <= x)%Q → (x <= y)%Q →
  Binary64.le (Binary64.rnd x) (Binary64.rnd y) = true.
Proof.
  intros Hx Hxy.
  destruct (Qlt_le_dec 0 x) as [Hx0|Hx0].
  - rewrite (rnd_pos x Hx0), (rnd_pos y) by lra.
    by apply round_pos_mono.
  - rewrite (rnd_zero x) by lra.
    destruct (Qlt_le_dec 0 y) as [Hy0|Hy0].
    + rewrite (rnd_pos y Hy0).
      destruct (round_pos_nonneg y Hy0) as [-> | (z & -> & Hz)].
      * reflexivity.
      * by apply Qle_bool_iff.
    + rewrite (rnd_zero y) by lra. reflexivity.
Qed.

Lemma rnd_idem (x z : Q) :
  Binary64.rnd x = Binary64.Fin z → Binary64.rnd z = Binary64.Fin z.
Proof.
  intros H.
  destruct (Q_dec x 0) as [[Hx|Hx]|Hx].
  - rewrite (rnd_neg x Hx) in H.
    assert (Hx' : (0 < - x)%Q) by lra.
    destruct (Binary64.round_pos (- x)) as [| |w] eqn:E; try discriminate.
    injection H as H.
    destruct (round_pos_idem (- x) w Hx' E) as [-> | [Hw Hi]].
    + rewrite <- H. reflexivity.
    + assert (Hz : (z == - w)%Q).
      { rewrite <- H. apply Qred_correct. }
      rewrite (rnd_neg z) by lra.
      rewrite (round_pos_comp (- z) w) by lra.
      rewrite Hi. cbn. by rewrite H.
  - rewrite (rnd_pos x Hx) in H.
    destruct (round_pos_idem x z Hx H) as [-> | [Hz Hi]].
    + reflexivity.
    + by rewrite (rnd_pos z Hz).
  - rewrite (rnd_zero x Hx) in H. by injection H as <-.
Qed.

Lemma rnd_representable (x : Q) : Binary64.representable (Binary64.rnd x).
Proof.
  destruct (Binary64.rnd x) as [| |z] eqn:E; cbn; try exact I.
  by apply (rnd_idem x).
Qed.

Lemma mul_representable (a b : Binary64.float) :
  Binary64.representable (Binary64.mul a b).
Proof.
  destruct a as [|s|u], b as [|t|v]; cbn; try exact I.
  - by destruct (Qeq_bool v 0).
  - by destruct (Qeq_bool u 0).
  - apply rnd_representable.
Qed.

Lemma add_representable (a b : Binary64.float) :
  Binary64.representable (Binary64.add a b).
Proof.
  destruct a as [|s|u], b as [|t|v]; cbn; try exact I.
  - by destruct (Bool.eqb s t).
  - apply rnd_representable.
Qed.

Lemma float_le_trans (a b c : Binary64.float) :
  Binary64.le a b = true → Binary64.le b c = true → Binary64.le a c = true.
Proof.
  destruct a as [|[]|u], b as [|[]|v], c as [|[]|w]; cbn; try done.
  rewrite !Qle_bool_iff. apply Qle_trans.
Qed.

Lemma float_le_Fin (u v : Q) :
  Binary64.le (Binary64.Fin u) (Binary64.Fin v) = true ↔ (u <= v)%Q.
Proof. cbn. apply Qle_bool_iff. Qed.

(** ** Rounding to cents *)

Lemma rnd_nonneg (x : Q) :
  (0 <= x)%Q →
  Binary64.rnd x = Binary64.Inf false ∨
  ∃ w, Binary64.rnd x = Binary64.Fin w ∧ (0 <= w)%Q.
Proof.
  intros Hx. destruct (Qlt_le_dec 0 x) as [H|H].
  - rewrite (rnd_pos x H). by apply round_pos_nonneg.
  - right. exists 0%Q. split; [apply rnd_zero; lra | lra].
Qed.

Lemma round_cents (w : Q) :
  Py.round (Py.PFloat (Binary64.Fin w)) 2 =
  Py.PFloat (Binary64.rnd (inject_Z (round_half_even (w * 100)) / 100)).
Proof. reflexivity. Qed.

Lemma cents_nonneg (w : Q) :
  (0 <= w)%Q → (0 <= inject_Z (round_half_even (w * 100)) / 100)%Q.
Proof.
  intros Hw.
  assert (H : (0 ≤ round_half_even (w * 100))%Z).
  { rewrite <- (round_half_even_Z 0 0 ltac:(reflexivity)).
    apply round_half_even_mono. lra. }
  rewrite Zle_Qle in H.
  apply Qle_shift_div_l; [reflexivity | by rewrite Qmult_0_l].
Qed.

Lemma cents_near (w : Q) :
  (w - (1 # 200) <= inject_Z (round_half_even (w * 100)) / 100)%Q ∧
  (inject_Z (round_half_even (w * 100)) / 100 <= w + (1 # 200))%Q.
Proof.
  pose proof (round_half_even_near (w * 100)) as [H1 H2].
  set (n := inject_Z _) in *. clearbody n.
  assert (E : (n / 100 == n * (1 # 100))%Q) by field.
  rewrite E. split; lra.
Qed.

(** A rounded amount is at most a float that exceeds the amount by half a
    cent, and at least a float that is half a cent below it. *)
Lemma round_cents_le (w y : Q) :
  (0 <= w)%Q → (w + (1 # 200) <= y)%Q →
  Binary64.rnd y = Binary64.Fin y →
  Py.num_le (Py.round (Py.PFloat (Binary64.Fin w)) 2)
    (Py.PFloat (Binary64.Fin y)) = true.
Proof.
  intros Hw Hy Hr. rewrite round_cents.
  unfold Py.num_le. cbn [Py.exact]. rewrite <- Hr.
  apply rnd_mono; [by apply cents_nonneg|].
  pose proof (cents_near w) as [_ H]. lra.
Qed.

Lemma round_cents_ge (w y : Q) :
  (0 <= y)%Q → (y <= w - (1 # 200))%Q →
  Binary64.rnd y = Binary64.Fin y →
  Py.num_le (Py.PFloat (Binary64.Fin y))
    (Py.round (Py.PFloat (Binary64.Fin w)) 2) = true.
Proof.
  intros Hw Hy Hr. rewrite round_cents.
  unfold Py.num_le. cbn [Py.exact]. rewrite <- Hr.
  apply rnd_mono; [exact Hw|].
  pose proof (cents_near w) as [H _]. lra.
Qed.

(** An amount of at most [a], where [a] rounds to [k] cents, rounds to at
    most the float of [k] cents. *)
Lemma round_cents_bucket (w a c : Q) (k : Z) :
  (0 <= w)%Q → (w <= a)%Q → round_half_even (a * 100) = k →
  (inject_Z k / 100 <= c)%Q →
  Py.num_le (Py.round (Py.PFloat (Binary64.Fin w)) 2)
    (Py.PFloat (Binary64.rnd c)) = true.
Proof.
  intros Hw Ha Hk Hc. rewrite round_cents.
  unfold Py.num_le. cbn [Py.exact].
  apply rnd_mono; [by apply cents_nonneg|].
  assert (H : (round_half_even (w * 100) ≤ k)%Z).
  { rewrite <- Hk. apply round_half_even_mono. lra. }
  rewrite Zle_Qle in H.
  set (n := inject_Z (round_half_even _)) in *.
  set (m := inject_Z k) in *. clearbody n m.
  assert (E : (n / 100 == n * (1 # 100))%Q) by field.
  assert (F : (m / 100 == m * (1 # 100))%Q) by field.
  rewrite E. rewrite F in Hc. lra.
Qed.

(** ** The ends of the range against the total *)

Lemma literal_0_9 :
  Binary64.literal 0.9 = Binary64.Fin (8106479329266893 # 9007199254740992).
Proof. by vm_compute. Qed.

Lemma literal_1_15 :
  Binary64.literal 1.15 = Binary64.Fin (2589569785738035 # 2251799813685248).
Proof. by vm_compute. Qed.

Lemma literal_0_04 :
  Binary64.literal 0.04 = Binary64.Fin (5764607523034235 # 144115188075855872).
Proof. by vm_compute. Qed.

Lemma normal_from_0_03 (x : Q) :
  (0.03 <= x)%Q → (Binary64.pow2 (-1022) <= x)%Q.
Proof.
  intros H. apply Qle_trans with 0.03%Q; [by vm_compute | exact H].
Qed.

Lemma low_le_total (v : Q) :
  Binary64.rnd v = Binary64.Fin v → (0.04 <= v)%Q →
  Py.num_le
    (Py.round (Py.PFloat (Binary64.mul (Binary64.Fin v) (Binary64.literal 0.9))) 2)
    (Py.PFloat (Binary64.Fin v)) = true.
Proof.
  intros Hr Hv.
  rewrite literal_0_9. cbn [Binary64.mul].
  set (c9 := (8106479329266893 # 9007199254740992)%Q).
  assert (Hx : (0 <= v * c9)%Q) by (unfold c9; lra).
  assert (Hxv : (v * c9 <= v)%Q) by (unfold c9; lra).
  pose proof (rnd_mono (v * c9) v Hx Hxv) as Hm. rewrite Hr in Hm.
  destruct (rnd_nonneg (v * c9) Hx) as [E | (w & E & Hw)];
    rewrite E in Hm |- *; [discriminate|].
  destruct (Qlt_le_dec v 0.0501) as [Hs|Hl].
  - assert (Hb : ∀ b a k c,
      (v <= b)%Q → Binary64.rnd (b * c9) = Binary64.Fin a →
      round_half_even (a * 100) = k → (inject_Z k / 100 <= c)%Q →
      Binary64.le (Binary64.rnd c) (Binary64.Fin v) = true →
      Py.num_le (Py.round (Py.PFloat (Binary64.Fin w)) 2)
        (Py.PFloat (Binary64.Fin v)) = true).
    { intros b a k c Hvb Ea Hk Hc Hcv.
      assert (Hwa : (w <= a)%Q).
      { apply float_le_Fin. rewrite <- E, <- Ea.
        apply rnd_mono; [exact Hx|]. unfold c9. lra. }
      pose proof (round_cents_bucket w a c k Hw Hwa Hk Hc) as H.
      unfold Py.num_le in *. cbn [Py.exact] in *.
      by apply float_le_trans with (Binary64.rnd c). }
    destruct (Qlt_le_dec v 0.05) as [Hs'|Hl'].
    + eapply (Hb 0.05%Q _ 4%Z 0.04%Q); [lra | | | |].
      * vm_compute. reflexivity.
      * vm_compute. reflexivity.
      * by vm_compute.
      * rewrite <- Hr. apply rnd_mono; lra.
    + eapply (Hb 0.0501%Q _ 5%Z 0.05%Q); [lra | | | |].
      * vm_compute. reflexivity.
      * vm_compute. reflexivity.
      * by vm_compute.
      * rewrite <- Hr. apply rnd_mono; lra.
  - assert (Hn : (Binary64.pow2 (-1022) <= v * c9)%Q).
    { apply normal_from_0_03. unfold c9. lra. }
    destruct (round_pos_near (v * c9) Hn) as (u & Eu & _ & Hu).
    rewrite rnd_pos in E by (unfold c9; lra).
    rewrite Eu in E. unfold Binary64.overflow in E.
    destruct (Qle_bool _ u); [discriminate|]. injection E as E.
    change (Binary64.pow2 (-53)) with (1 # 9007199254740992)%Q in Hu.
    apply round_cents_le; [exact Hw | | exact Hr].
    rewrite <- E, Qred_correct. unfold c9 in Hu. lra.
Qed.

Lemma total_le_high (v : Q) :
  Binary64.rnd v = Binary64.Fin v → (0.04 <= v)%Q →
  Py.num_le (Py.PFloat (Binary64.Fin v))
    (Py.round (Py.PFloat (Binary64.mul (Binary64.Fin v) (Binary64.literal 1.15))) 2)
    = true.
Proof.
  intros Hr Hv.
  rewrite literal_1_15. cbn [Binary64.mul].
  set (c := (2589569785738035 # 2251799813685248)%Q).
  assert (Hn : (Binary64.pow2 (-1022) <= v * c)%Q).
  { apply normal_from_0_03. unfold c. lra. }
  destruct (round_pos_near (v * c) Hn) as (u & Eu & Hu & _).
  rewrite rnd_pos by (unfold c; lra).
  rewrite Eu. unfold Binary64.overflow.
  destruct (Qle_bool _ u); [reflexivity|].
  change (Binary64.pow2 (-53)) with (1 # 9007199254740992)%Q in Hu.
  apply round_cents_ge; [lra | | exact Hr].
  rewrite Qred_correct. unfold c in Hu. lra.
Qed.

Lemma zero_total_in_range (v c : Q) :
  (v == 0)%Q →
  Py.round (Py.PFloat (Binary64.mul (Binary64.Fin v) (Binary64.Fin c))) 2 =
  Py.PFloat (Binary64.Fin 0).
Proof.
  intros H. cbn [Binary64.mul].
  rewrite (rnd_zero (v * c)) by (rewrite H; ring).
  reflexivity.
Qed.

(** ** The steps of a calculation in floating point *)

Lemma num_mul_float_r (x : Py.num) (f : Binary64.float) (z : Py.num) :
  Py.num_mul x (Py.PFloat f) = Py.Ok z →
  ∃ g, z = Py.PFloat g ∧ Binary64.representable g.
Proof.
  destruct x as [n|a]; cbn.
  - destruct (Py.to_float n) as [a|]; cbn; [|discriminate].
    intros [= <-]. eexists. split; [reflexivity | apply mul_representable].
  - intros [= <-]. eexists. split; [reflexivity | apply mul_representable].
Qed.

Lemma num_add_float_l (f : Binary64.float) (y z : Py.num) :
  Py.num_add (Py.PFloat f) y = Py.Ok z →
  ∃ g, z = Py.PFloat g ∧ Binary64.representable g.
Proof.
  destruct y as [n|b]; cbn.
  - destruct (Py.to_float n) as [b|]; cbn; [|discriminate].
    intros [= <-]. eexists. split; [reflexivity | apply add_representable].
  - intros [= <-]. eexists. split; [reflexivity | apply add_representable].
Qed.

Lemma get_region_multiplier_float (zip : string) :
  ∃ f, Py.get_region_multiplier zip = Py.PFloat f.
Proof.
  unfold Py.get_region_multiplier.
  destruct (startswith _ high_cost_zips); [by eexists|].
  destruct (startswith _ low_cost_zips); by eexists.
Qed.

Ltac bind_inversion H :=
  repeat match type of H with
  | Py.bind ?c _ = Py.Ok _ =>
      let E := fresh "E" in
      destruct c eqn:E; cbn [Py.bind] in H; [|discriminate H]
  end.

(** What a returned calculation has computed last: the total is a float,
    and the range is made of the two rounded products. *)
Lemma quote_locals_range (str_lower : string → string)
    (row : gmap string Py.value) (r : Py.roofer) (q : Py.quote) :
  Py.quote_locals str_lower row r = Py.Ok q →
  ∃ t low high,
    Py.total q = Py.PFloat t ∧ Binary64.representable t ∧
    Py.num_mul (Py.total q) (Py.float_literal 0.9) = Py.Ok low ∧
    Py.num_mul (Py.total q) (Py.float_literal 1.15) = Py.Ok high ∧
    Py.quote_range q = (Py.round low 2, Py.round high 2).
Proof.
  intros H. unfold Py.quote_locals in H. bind_inversion H.
  injection H as <-. cbn.
  destruct (get_region_multiplier_float (Py.region_zip r)) as [m Hm].
  rewrite Hm in *.
  match goal with
  | E1 : Py.num_mul _ (Py.PFloat m) = Py.Ok ?s,
    E2 : Py.num_add ?s _ = Py.Ok ?u,
    E3 : Py.num_add ?u _ = Py.Ok ?t,
    E4 : Py.num_mul ?t (Py.float_literal 0.9) = _,
    E5 : Py.num_mul ?t (Py.float_literal 1.15) = _ |- _ =>
      destruct (num_mul_float_r _ _ _ E1) as (s' & -> & _);
      destruct (num_add_float_l _ _ _ E2) as (u' & -> & _);
      destruct (num_add_float_l _ _ _ E3) as (t' & -> & Ht);
      exists t'; do 2 eexists;
      split; [reflexivity|]; split; [exact Ht|];
      split; [exact E4|]; split; [exact E5 | reflexivity]
  end.
Qed.

(** ** Normalization in the floating-point reading *)

Lemma py_get_absent (row : gmap string Py.value) (k : string) (d : Py.value) :
  row !! k = None → Py.get row k d = d.
Proof. unfold Py.get. by intros ->. Qed.

Lemma py_get_present (row : gmap string Py.value) (k : string) (d v : Py.value) :
  row !! k = Some v → Py.get row k d = v.
Proof. unfold Py.get. by intros ->. Qed.

Lemma py_extract_fields (str_lower : string → string)
    (row : gmap string Py.value) (x : Py.extracted) :
  Py.extract str_lower row = Py.Ok x →
  Py.x_area x = Py.get row "roof_area" (Py.VNum (Py.PInt 2500))
  ∧ Py.x_pitch x = Py.get row "pitch" (Py.VNum (Py.PInt 15))
  ∧ Py.x_height x = Py.get row "height_ft" (Py.VNum (Py.PInt 15))
  ∧ Py.lower str_lower (Py.get row "roof_material" (Py.VStr "asphalt"))
    = Py.Ok (Py.x_material x)
  ∧ Py.x_condition x
    = Py.get row "roof_condition_summary_score" (Py.VNum (Py.PInt 80)).
Proof.
  unfold Py.extract.
  destruct (Py.lower _ _) as [m|]; cbn [Py.bind]; [|discriminate].
  by intros [= <-].
Qed.

Lemma quote_locals_material (str_lower : string → string)
    (row : gmap string Py.value) (r : Py.roofer) (q : Py.quote) :
  Py.quote_locals str_lower row r = Py.Ok q →
  ∃ x, Py.extract str_lower row = Py.Ok x ∧
       Py.mul (Py.x_area x)
         (default (Py.float_literal 5.0) (Py.material_costs r !! Py.x_material x))
       = Py.Ok (Py.material_cost q).
Proof.
  intros H. unfold Py.quote_locals in H. bind_inversion H.
  injection H as <-. cbn. eexists. split; [reflexivity | assumption].
Qed.


(** C8, as stated, fails on null fields, whatever [str.lower] does: a null
    [roof_material] makes the extraction raise (so it is not total), and a
    null [roof_area] is passed on as null instead of 2500, after which the
    calculation raises. *)
Lemma null_fields_are_not_defaulted :
  (∀ str_lower,
     Py.extract str_lower {["roof_material" := Py.VNone]}
     = Py.Raise Py.AttributeError)
  ∧ (∀ str_lower, ∃ x,
       Py.extract str_lower {["roof_area" := Py.VNone]} = Py.Ok x
       ∧ Py.x_area x = Py.VNone)
  ∧ (∀ str_lower r,
       Py.calculate_quote str_lower {["roof_area" := Py.VNone]} r
       = Py.Raise Py.TypeError).
Proof.
  split; [reflexivity|]. split; [|reflexivity].
  intros f. eexists. split; reflexivity.
Qed.

(** C8, amended: the extraction succeeds exactly when [roof_material] is
    absent or a string.  When it succeeds, each of the five primary fields
    that is absent has its documented default (2500, 15, 15, "asphalt", 80),
    each that is present, null included, has the record's value unchanged,
    and the material name is the lower-cased one ([str.lower] of it, which on
    an ASCII name maps the letters A to Z and leaves no upper-case letter),
    under which the material cost is looked up. *)
Theorem extract_defaults_absent_fields (str_lower : string → string)
    (row : gmap string Py.value) :
  (∀ s, Py.is_ascii s = true → str_lower s = lower_string s) →
  ((∃ x, Py.extract str_lower row = Py.Ok x) ↔
   (row !! "roof_material" = None ∨ ∃ s, row !! "roof_material" = Some (Py.VStr s)))
  ∧ (∀ x, Py.extract str_lower row = Py.Ok x →
       (row !! "roof_area" = None → Py.x_area x = Py.VNum (Py.PInt 2500))
       ∧ (∀ v, row !! "roof_area" = Some v → Py.x_area x = v)
       ∧ (row !! "pitch" = None → Py.x_pitch x = Py.VNum (Py.PInt 15))
       ∧ (∀ v, row !! "pitch" = Some v → Py.x_pitch x = v)
       ∧ (row !! "height_ft" = None → Py.x_height x = Py.VNum (Py.PInt 15))
       ∧ (∀ v, row !! "height_ft" = Some v → Py.x_height x = v)
       ∧ (row !! "roof_material" = None → Py.x_material x = "asphalt")
       ∧ (∀ s, row !! "roof_material" = Some (Py.VStr s) →
            Py.x_material x = str_lower s)
       ∧ (∀ s, row !! "roof_material" = Some (Py.VStr s) → Py.is_ascii s = true →
            Py.x_material x = lower_string s
            ∧ Forall (λ c, is_upper c = false)
                (list_ascii_of_string (Py.x_material x)))
       ∧ (row !! "roof_condition_summary_score" = None →
            Py.x_condition x = Py.VNum (Py.PInt 80))
       ∧ (∀ v, row !! "roof_condition_summary_score" = Some v →
            Py.x_condition x = v)
       ∧ (∀ r q, Py.quote_locals str_lower row r = Py.Ok q →
            Py.mul (Py.x_area x)
              (default (Py.float_literal 5.0)
                 (Py.material_costs r !! Py.x_material x))
            = Py.Ok (Py.material_cost q))).
Proof.
  intros Hascii. split.
  - unfold Py.extract, Py.get. split.
    + intros [x Hx]. destruct (row !! "roof_material") as [[| | |s]|];
        try discriminate; [right; by exists s | by left].
    + intros [->|[s ->]]; eexists; reflexivity.
  - intros x Hx. pose proof (py_extract_fields _ _ _ Hx) as (Ha & Hp & Hh & Hm & Hc).
    rewrite Ha, Hp, Hh, Hc.
    repeat split; try (intros; by (apply py_get_absent || apply py_get_present)).
    + intros Hn. rewrite (py_get_absent _ _ _ Hn) in Hm. injection Hm as <-.
      by rewrite (Hascii "asphalt" eq_refl).
    + intros s Hs. rewrite (py_get_present _ _ _ _ Hs) in Hm. by injection Hm.
    + rewrite (py_get_present _ _ _ _ H) in Hm. injection Hm as <-. by apply Hascii.
    + rewrite (py_get_present _ _ _ _ H) in Hm. injection Hm as <-.
      rewrite (Hascii _ H0). apply lower_string_not_upper.
    + intros r q Hq.
      apply quote_locals_material in Hq as (x' & Hx' & Hmc).
      rewrite Hx in Hx'. injection Hx' as <-. by rewrite <- Ha.
Qed.

Lemma extract_defaults_absent_fields_witness :
  (∀ s, Py.is_ascii s = true → lower_string s = lower_string s)
  ∧ ∃ x, Py.extract lower_string Py.mixed_case_row = Py.Ok x
       ∧ Py.x_area x = Py.VNum (Py.PInt 2500) ∧ Py.x_pitch x = Py.VNone
       ∧ Py.x_material x = "concrete".
Proof.
  split; [reflexivity|].
  eexists. split; [reflexivity|].
  pose proof (proj2 (extract_defaults_absent_fields lower_string Py.mixed_case_row
                       (λ s _, eq_refl)) _ eq_refl)
    as (Ha & _ & _ & Hp & _ & _ & _ & Hm & _).
  split; [by apply Ha|]. split; [by apply Hp|]. by apply (Hm "ConCrete").
Defined.

(** ** What the floating-point result depends on *)

Lemma py_repair_loop_agree (fs : list string) (row1 row2 : gmap string Py.value)
    (r : Py.roofer) (c : Py.num) :
  (∀ f, f ∈ fs → row1 !! f = row2 !! f) →
  Py.repair_loop fs row1 r c = Py.repair_loop fs row2 r c.
Proof.
  revert c. induction fs as [|f fs IH]; intros c H; [reflexivity|].
  cbn [Py.repair_loop].
  rewrite (H f) by apply list_elem_of_here.
  assert (IH' : ∀ c', Py.repair_loop fs row1 r c' = Py.repair_loop fs row2 r c').
  { intros c'. apply IH. intros g Hg. apply H. by apply list_elem_of_further. }
  destruct (row2 !! f) as [v|]; [|apply IH'].
  destruct (Py.gt v (Py.PInt 0)) as [[]|]; cbn [Py.bind]; [|apply IH'|reflexivity].
  destruct (Py.item0 (split f)) as [mat|]; cbn [Py.bind]; [|reflexivity].
  destruct (Py.mul v _) as [cost|]; cbn [Py.bind]; [|reflexivity].
  destruct (Py.num_add c cost) as [c'|]; cbn [Py.bind]; [apply IH'|reflexivity].
Qed.

Lemma py_quote_locals_agree (str_lower : string → string)
    (row1 row2 : gmap string Py.value) (r : Py.roofer) :
  row1 !! "roof_area" = row2 !! "roof_area" →
  row1 !! "pitch" = row2 !! "pitch" →
  row1 !! "height_ft" = row2 !! "height_ft" →
  Py.lower str_lower (Py.get row1 "roof_material" (Py.VStr "asphalt"))
  = Py.lower str_lower (Py.get row2 "roof_material" (Py.VStr "asphalt")) →
  (∀ f, f ∈ repair_fields → row1 !! f = row2 !! f) →
  Py.calculate_quote str_lower row1 r = Py.calculate_quote str_lower row2 r.
Proof.
  intros Ha Hp Hh Hm Hf.
  unfold Py.calculate_quote, Py.quote_locals, Py.extract, Py.get.
  unfold Py.get in Hm. rewrite Ha, Hp, Hh, Hm. clear Hm.
  destruct (Py.lower _ _) as [m|]; cbn [Py.bind]; [|reflexivity].
  cbn [Py.x_area Py.x_pitch Py.x_height Py.x_material].
  by rewrite (py_repair_loop_agree _ _ _ _ _ Hf).
Qed.

(** X7: the material enters the calculation only through its lower-cased
    name: two records that differ only in [roof_material], with names that
    lower-case to the same string, give the same result (a range or an
    exception). *)
Theorem material_case_is_ignored (str_lower : string → string)
    (row : gmap string Py.value) (s1 s2 : string) (r : Py.roofer) :
  str_lower s1 = str_lower s2 →
  Py.calculate_quote str_lower (<["roof_material" := Py.VStr s1]> row) r
  = Py.calculate_quote str_lower (<["roof_material" := Py.VStr s2]> row) r.
Proof.
  intros H. apply py_quote_locals_agree.
  - by rewrite !lookup_insert_ne.
  - by rewrite !lookup_insert_ne.
  - by rewrite !lookup_insert_ne.
  - unfold Py.get. rewrite !lookup_insert_eq. cbn. by rewrite H.
  - intros f Hf.
    assert (Hne : "roof_material" ≠ f).
    { intros <-. revert Hf. unfold repair_fields.
      rewrite !elem_of_cons, elem_of_nil. intros [?|[?|[?|[]]]]; discriminate. }
    by rewrite !lookup_insert_ne.
Qed.

Lemma material_case_is_ignored_witness :
  lower_string "ConCrete" = lower_string "concrete"
  ∧ Py.calculate_quote lower_string
      (<["roof_material" := Py.VStr "ConCrete"]> (Py.area_row 2500))
      (Py.example_profile "10001")
    = Py.calculate_quote lower_string
        (<["roof_material" := Py.VStr "concrete"]> (Py.area_row 2500))
        (Py.example_profile "10001").
Proof.
  split; [reflexivity|].
  apply (material_case_is_ignored lower_string). reflexivity.
Defined.

(** ** A profile with no productivity *)

Lemma div_by_zero (v : Py.value) (y z : Py.num) :
  Py.num_le y (Py.PInt 0) = true → Py.num_le (Py.PInt 0) y = true →
  Py.div v y = Py.Ok z → False.
Proof.
  intros H1 H2. unfold Py.div.
  destruct (Py.as_num v) as [x|]; cbn [Py.bind]; [|discriminate].
  destruct y as [n|[| |u]]; try discriminate.
  - unfold Py.num_le in H1, H2. cbn in H1, H2.
    apply Qle_bool_iff in H1, H2. rewrite <- Zle_Qle in H1, H2.
    assert (n = 0%Z) as -> by lia.
    destruct x as [a|f]; cbn; [discriminate|].
    discriminate.
  - by destruct negative.
  - unfold Py.num_le in H1, H2. cbn in H1, H2.
    apply Qle_bool_iff in H1, H2.
    assert (Hz : Qeq_bool u 0 = true).
    { apply Qeq_bool_iff. by apply Qle_antisym. }
    destruct x as [a|f]; cbn.
    + destruct (Py.to_float a); cbn; [|discriminate]. by rewrite Hz.
    + by rewrite Hz.
Qed.

(** X5: with a [daily_productivity] of zero (the [int] 0 or a float zero)
    no record gets a quote: the calculation raises on every record. *)
Theorem zero_productivity_raises (str_lower : string → string)
    (row : gmap string Py.value) (r : Py.roofer) :
  Py.num_le (Py.daily_productivity r) (Py.PInt 0) = true →
  Py.num_le (Py.PInt 0) (Py.daily_productivity r) = true →
  ∃ e, Py.calculate_quote str_lower row r = Py.Raise e.
Proof.
  intros H1 H2. unfold Py.calculate_quote.
  destruct (Py.quote_locals str_lower row r) as [q|e] eqn:H; [|by exists e].
  exfalso. unfold Py.quote_locals in H. bind_inversion H.
  match goal with
  | E : Py.div _ (Py.daily_productivity r) = Py.Ok _ |- _ =>
      exact (div_by_zero _ _ _ H1 H2 E)
  end.
Qed.

Lemma zero_productivity_raises_witness :
  ∃ e, Py.calculate_quote lower_string (Py.area_row 2500)
         (Py.with_daily_productivity (Py.PInt 0) (Py.example_profile "10001"))
       = Py.Raise e.
Proof.
  apply (zero_productivity_raises lower_string (Py.area_row 2500)
           (Py.with_daily_productivity (Py.PInt 0) (Py.example_profile "10001")));
    reflexivity.
Defined.

(** ** Amounts that are not below zero *)

Lemma rnd_nonneg_or_nan (x : Q) :
  (0 <= x)%Q → Binary64.nonneg_or_nan (Binary64.rnd x) = true.
Proof.
  intros H. destruct (rnd_nonneg x H) as [-> | (w & -> & Hw)]; [reflexivity|].
  by apply Qle_bool_iff.
Qed.

Lemma mul_nonneg_or_nan (a b : Binary64.float) :
  Binary64.nonneg_or_nan a = true → Binary64.nonneg_or_nan b = true →
  Binary64.nonneg_or_nan (Binary64.mul a b) = true.
Proof.
  destruct a as [|[]|u], b as [|[]|v]; cbn; try done.
  - intros _ Hv. destruct (Qeq_bool v 0); [done|].
    unfold Binary64.negative. by rewrite Hv.
  - intros Hu _. destruct (Qeq_bool u 0); [done|].
    unfold Binary64.negative. by rewrite Hu.
  - intros Hu Hv. apply Qle_bool_iff in Hu, Hv.
    apply rnd_nonneg_or_nan. by apply Qmult_le_0_compat.
Qed.

Lemma add_nonneg_or_nan (a b : Binary64.float) :
  Binary64.nonneg_or_nan a = true → Binary64.nonneg_or_nan b = true →
  Binary64.nonneg_or_nan (Binary64.add a b) = true.
Proof.
  destruct a as [|[]|u], b as [|[]|v]; cbn; try done.
  intros Hu Hv. apply Qle_bool_iff in Hu, Hv.
  apply rnd_nonneg_or_nan. lra.
Qed.

Lemma div_nonneg_or_nan (a b : Binary64.float) :
  Binary64.nonneg_or_nan a = true → Binary64.nonneg_or_nan b = true →
  Binary64.nonneg_or_nan (Binary64.div a b) = true.
Proof.
  destruct a as [|[]|u], b as [|[]|v]; cbn; try done.
  - intros _ Hv. unfold Binary64.negative. by rewrite Hv.
  - intros Hu Hv. apply Qle_bool_iff in Hu, Hv.
    apply rnd_nonneg_or_nan.
    destruct (Qeq_dec v 0) as [E|E].
    + rewrite E. unfold Qdiv, Qinv. cbn. rewrite Qmult_0_r. lra.
    + apply Qle_shift_div_l; [|lra].
      destruct (Qlt_le_dec 0 v); [assumption|]. exfalso. apply E. lra.
Qed.

Lemma as_float_nonneg_or_nan (x : Py.num) (f : Binary64.float) :
  Py.nonneg_or_nan x = true → Py.as_float x = Py.Ok f →
  Binary64.nonneg_or_nan f = true.
Proof.
  destruct x as [n|g]; cbn.
  - intros Hn. apply Z.leb_le in Hn. unfold Py.to_float.
    assert (H : Binary64.nonneg_or_nan (Binary64.rnd (inject_Z n)) = true).
    { apply rnd_nonneg_or_nan. by rewrite <- (Zle_Qle 0). }
    destruct (Binary64.rnd (inject_Z n)); intros [= <-] || discriminate; exact H.
  - by intros H [= <-].
Qed.

Lemma num_mul_nonneg_or_nan (x y z : Py.num) :
  Py.nonneg_or_nan x = true → Py.nonneg_or_nan y = true →
  Py.num_mul x y = Py.Ok z → Py.nonneg_or_nan z = true.
Proof.
  intros Hx Hy H.
  assert (G : ∀ a b, Py.as_float x = Py.Ok a → Py.as_float y = Py.Ok b →
              Binary64.nonneg_or_nan (Binary64.mul a b) = true).
  { intros a b Ha Hb. apply mul_nonneg_or_nan;
      [exact (as_float_nonneg_or_nan x a Hx Ha) | exact (as_float_nonneg_or_nan y b Hy Hb)]. }
  destruct x as [m|f], y as [n|g]; cbn in H.
  - injection H as <-. cbn in *. apply Z.leb_le. apply Z.leb_le in Hx, Hy. nia.
  - destruct (Py.to_float m) as [a|] eqn:E; cbn in H; [|discriminate].
    injection H as <-. by apply G.
  - destruct (Py.to_float n) as [b|] eqn:E; cbn in H; [|discriminate].
    injection H as <-. by apply G.
  - injection H as <-. by apply G.
Qed.

Lemma num_add_nonneg_or_nan (x y z : Py.num) :
  Py.nonneg_or_nan x = true → Py.nonneg_or_nan y = true →
  Py.num_add x y = Py.Ok z → Py.nonneg_or_nan z = true.
Proof.
  intros Hx Hy H.
  assert (G : ∀ a b, Py.as_float x = Py.Ok a → Py.as_float y = Py.Ok b →
              Binary64.nonneg_or_nan (Binary64.add a b) = true).
  { intros a b Ha Hb. apply add_nonneg_or_nan;
      [exact (as_float_nonneg_or_nan x a Hx Ha) | exact (as_float_nonneg_or_nan y b Hy Hb)]. }
  destruct x as [m|f], y as [n|g]; cbn in H.
  - injection H as <-. cbn in *. apply Z.leb_le. apply Z.leb_le in Hx, Hy. lia.
  - destruct (Py.to_float m) as [a|] eqn:E; cbn in H; [|discriminate].
    injection H as <-. by apply G.
  - destruct (Py.to_float n) as [b|] eqn:E; cbn in H; [|discriminate].
    injection H as <-. by apply G.
  - injection H as <-. by apply G.
Qed.

Lemma num_div_nonneg_or_nan (x y z : Py.num) :
  Py.nonneg_or_nan x = true → Py.nonneg_or_nan y = true →
  Py.num_div x y = Py.Ok z → Py.nonneg_or_nan z = true.
Proof.
  intros Hx Hy H.
  assert (G : ∀ a b, Py.as_float x = Py.Ok a → Py.as_float y = Py.Ok b →
              Binary64.nonneg_or_nan (Binary64.div a b) = true).
  { intros a b Ha Hb. apply div_nonneg_or_nan;
      [exact (as_float_nonneg_or_nan x a Hx Ha) | exact (as_float_nonneg_or_nan y b Hy Hb)]. }
  destruct x as [m|f], y as [n|g]; cbn in H.
  - destruct (n =? 0)%Z; [discriminate|].
    cbn in Hx, Hy. apply Z.leb_le in Hx, Hy.
    assert (R : Binary64.nonneg_or_nan (Binary64.rnd (inject_Z m / inject_Z n)) = true).
    { apply rnd_nonneg_or_nan.
      rewrite (Zle_Qle 0) in Hx, Hy.
      destruct (Qeq_dec (inject_Z n) 0) as [E|E].
      - rewrite E. unfold Qdiv, Qinv. cbn. rewrite Qmult_0_r. apply Qle_refl.
      - apply Qle_shift_div_l; [|by rewrite Qmult_0_l].
        destruct (Qlt_le_dec 0 (inject_Z n)) as [L|L]; [assumption|].
        exfalso. apply E. by apply Qle_antisym. }
    destruct (Binary64.rnd (inject_Z m / inject_Z n)); try discriminate;
      injection H as <-; exact R.
  - destruct (Py.to_float m) as [a|] eqn:E; cbn in H; [|discriminate].
    destruct (Binary64.is_zero g); [discriminate|].
    injection H as <-. by apply G.
  - destruct (Py.to_float n) as [b|] eqn:E; cbn in H; [|discriminate].
    destruct (Binary64.is_zero b); [discriminate|].
    injection H as <-. by apply G.
  - destruct (Binary64.is_zero g); [discriminate|].
    injection H as <-. by apply G.
Qed.

Lemma num_nonneg_nonneg_or_nan (x : Py.num) :
  Py.num_nonneg x = true → Py.nonneg_or_nan x = true.
Proof.
  unfold Py.num_nonneg, Py.num_le. destruct x as [n|[|[]|v]]; cbn; try done.
  intros H. apply Qle_bool_iff in H. rewrite <- (Zle_Qle 0) in H. by apply Z.leb_le.
Qed.

Lemma num_pos_nonneg_or_nan (x : Py.num) :
  Py.num_gt x (Py.PInt 0) = true → Py.nonneg_or_nan x = true.
Proof.
  unfold Py.num_gt. destruct x as [n|[|[]|v]]; cbn; try done.
  - intros H. apply negb_true_iff in H.
    assert (T : Qle_bool (inject_Z n) (inject_Z 0) = false) by exact H.
    destruct (Z.leb_spec 0 n) as [|L]; [done|].
    assert (Hq : (inject_Z n <= inject_Z 0)%Q) by (rewrite <- Zle_Qle; lia).
    apply Qle_bool_iff in Hq. congruence.
  - intros H. apply negb_true_iff in H.
    assert (T : Qle_bool v 0 = false) by exact H.
    apply Qle_bool_iff, Qlt_le_weak, Qnot_le_lt.
    intros L. apply Qle_bool_iff in L. congruence.
Qed.

Lemma py_all_nonneg_lookup (m : gmap string Py.num) (k : string) (x : Py.num) :
  Py.all_nonneg m = true → m !! k = Some x → Py.nonneg_or_nan x = true.
Proof.
  unfold Py.all_nonneg. rewrite forallb_forall. intros H Hk.
  apply num_nonneg_nonneg_or_nan. apply (H (k, x)).
  apply list_elem_of_In. by apply elem_of_map_to_list.
Qed.

Lemma py_rate_nonneg (m : gmap string Py.num) (k : string) (d : Py.num) :
  Py.all_nonneg m = true → Py.nonneg_or_nan d = true →
  Py.nonneg_or_nan (default d (m !! k)) = true.
Proof.
  intros Hm Hd. destruct (m !! k) as [x|] eqn:E; cbn; [|exact Hd].
  by apply (py_all_nonneg_lookup m k).
Qed.

Lemma py_valid_profile_spec (r : Py.roofer) :
  Py.valid_profile r = true →
  Py.nonneg_or_nan (Py.labor_rate r) = true
  ∧ Py.nonneg_or_nan (Py.daily_productivity r) = true
  ∧ Py.nonneg_or_nan (Py.base_crew_size r) = true
  ∧ Py.nonneg_or_nan (Py.flat_low (Py.slope_cost_adjustment r)) = true
  ∧ Py.nonneg_or_nan (Py.moderate (Py.slope_cost_adjustment r)) = true
  ∧ Py.nonneg_or_nan (Py.steep (Py.slope_cost_adjustment r)) = true
  ∧ Py.nonneg_or_nan (Py.very_steep (Py.slope_cost_adjustment r)) = true
  ∧ Py.all_nonneg (Py.material_costs r) = true
  ∧ Py.all_nonneg (Py.replacement_costs r) = true
  ∧ Py.nonneg_or_nan (Py.overhead_percent r) = true
  ∧ Py.nonneg_or_nan (Py.profit_margin r) = true.
Proof.
  unfold Py.valid_profile. rewrite !andb_true_iff.
  intros [[[[[[[[[[H1 H2] H3] H4] H5] H6] H7] H8] H9] H10] H11].
  repeat split; try assumption;
    (by apply num_pos_nonneg_or_nan) || (by apply num_nonneg_nonneg_or_nan).
Qed.

Lemma py_mul_nonneg_or_nan (v : Py.value) (x y z : Py.num) :
  Py.as_num v = Py.Ok x → Py.nonneg_or_nan x = true → Py.nonneg_or_nan y = true →
  Py.mul v y = Py.Ok z → Py.nonneg_or_nan z = true.
Proof.
  intros Hv Hx Hy. unfold Py.mul. rewrite Hv. cbn [Py.bind].
  by apply num_mul_nonneg_or_nan.
Qed.

Lemma py_div_nonneg_or_nan (v : Py.value) (x y z : Py.num) :
  Py.as_num v = Py.Ok x → Py.nonneg_or_nan x = true → Py.nonneg_or_nan y = true →
  Py.div v y = Py.Ok z → Py.nonneg_or_nan z = true.
Proof.
  intros Hv Hx Hy. unfold Py.div. rewrite Hv. cbn [Py.bind].
  by apply num_div_nonneg_or_nan.
Qed.

Lemma py_crew_size_nonneg (area pitch height : Py.value) (r : Py.roofer) (c : Py.num) :
  Py.nonneg_or_nan (Py.base_crew_size r) = true →
  Py.crew_size_of area pitch height r = Py.Ok c → Py.nonneg_or_nan c = true.
Proof.
  intros Hb H. unfold Py.crew_size_of in H. cbv zeta in H.
  assert (S1 : ∀ (b : bool) x y,
            Py.nonneg_or_nan x = true →
            (if b then Py.num_add x (Py.PInt 1) else Py.Ok x) = Py.Ok y →
            Py.nonneg_or_nan y = true).
  { intros [] x y Hx E.
    - by apply (num_add_nonneg_or_nan x (Py.PInt 1) y).
    - by injection E as <-. }
  bind_inversion H.
  repeat match goal with
  | E : (if ?b then Py.num_add ?x _ else Py.Ok ?x) = Py.Ok ?y |- _ =>
      pose proof (S1 b x y ltac:(assumption) E); clear E
  end.
  assumption.
Qed.

Lemma py_slope_factor_nonneg (slope : Py.value) (r : Py.roofer) (s : Py.num) :
  Py.valid_profile r = true →
  Py.slope_factor_of slope r = Py.Ok s → Py.nonneg_or_nan s = true.
Proof.
  intros Hr H.
  destruct (py_valid_profile_spec r Hr) as (_ & _ & _ & F1 & F2 & F3 & F4 & _).
  unfold Py.slope_factor_of in H.
  destruct (Py.le slope (Py.PInt 15)) as [[]|]; cbn [Py.bind] in H;
    [by injection H as <- | | discriminate].
  destruct (Py.le slope (Py.PInt 30)) as [[]|]; cbn [Py.bind] in H;
    [by injection H as <- | | discriminate].
  destruct (Py.le slope (Py.PInt 45)) as [[]|]; cbn [Py.bind] in H;
    [by injection H as <- | by injection H as <- | discriminate].
Qed.

Lemma py_gt_nonneg (v : Py.value) :
  Py.gt v (Py.PInt 0) = Py.Ok true →
  ∃ x, Py.as_num v = Py.Ok x ∧ Py.nonneg_or_nan x = true.
Proof.
  unfold Py.gt. destruct (Py.as_num v) as [x|]; cbn [Py.bind]; [|discriminate].
  intros [= H]. exists x. split; [reflexivity|]. by apply num_pos_nonneg_or_nan.
Qed.

Lemma py_repair_loop_nonneg (fs : list string) (row : gmap string Py.value)
    (r : Py.roofer) (c0 c : Py.num) :
  Py.all_nonneg (Py.replacement_costs r) = true →
  Py.nonneg_or_nan c0 = true →
  Py.repair_loop fs row r c0 = Py.Ok c → Py.nonneg_or_nan c = true.
Proof.
  intros Hr. revert c0. induction fs as [|f fs IH]; intros c0 H0 H.
  - by injection H as <-.
  - cbn [Py.repair_loop] in H.
    destruct (row !! f) as [v|]; [|by apply (IH c0)].
    destruct (Py.gt v (Py.PInt 0)) as [[]|] eqn:G; cbn [Py.bind] in H;
      [|by apply (IH c0)|discriminate].
    destruct (py_gt_nonneg v G) as (x & Hx & Hn).
    destruct (Py.item0 (split f)) as [mat|]; cbn [Py.bind] in H; [|discriminate].
    destruct (Py.mul v _) as [cost|] eqn:M; cbn [Py.bind] in H; [|discriminate].
    destruct (Py.num_add c0 cost) as [c1|] eqn:A; cbn [Py.bind] in H; [|discriminate].
    apply (IH c1); [|exact H].
    apply (num_add_nonneg_or_nan c0 cost c1 H0); [|exact A].
    refine (py_mul_nonneg_or_nan v x _ cost Hx Hn _ M).
    by apply py_rate_nonneg.
Qed.

Lemma get_region_multiplier_nonneg (zip : string) :
  Py.nonneg_or_nan (Py.get_region_multiplier zip) = true.
Proof.
  unfold Py.get_region_multiplier.
  destruct (startswith _ high_cost_zips); [by vm_compute|].
  destruct (startswith _ low_cost_zips); by vm_compute.
Qed.

Lemma py_valid_area (row : gmap string Py.value) :
  Py.valid_row row = true →
  ∃ x, Py.get row "roof_area" (Py.VNum (Py.PInt 2500)) = Py.VNum x
       ∧ Py.nonneg_or_nan x = true.
Proof.
  unfold Py.valid_row. rewrite !andb_true_iff. intros [[[[[H _] _] _] _] _].
  destruct (Py.get row "roof_area" _) as [| |x|]; try discriminate.
  exists x. split; [reflexivity|]. by apply num_nonneg_nonneg_or_nan.
Qed.

(** The total of a valid profile and record is not below zero. *)
Lemma py_total_nonneg (str_lower : string → string)
    (row : gmap string Py.value) (r : Py.roofer) (q : Py.quote) :
  Py.valid_profile r = true → Py.valid_row row = true →
  Py.quote_locals str_lower row r = Py.Ok q →
  Py.nonneg_or_nan (Py.total q) = true.
Proof.
  intros Hr Hrow H.
  destruct (py_valid_profile_spec r Hr)
    as (Hlr & Hdp & Hbc & _ & _ & _ & _ & Hmc & Hrc & Hov & Hpm).
  destruct (py_valid_area row Hrow) as (a & Ha & Hna).
  pose proof (get_region_multiplier_nonneg (Py.region_zip r)) as Hm.
  assert (H5 : Py.nonneg_or_nan (Py.float_literal 5.0) = true) by (by vm_compute).
  assert (H8 : Py.nonneg_or_nan (Py.PInt 8) = true) by reflexivity.
  assert (H1 : Py.nonneg_or_nan (Py.PInt 1) = true) by reflexivity.
  assert (H0 : Py.nonneg_or_nan (Py.PInt 0) = true) by reflexivity.
  unfold Py.quote_locals in H. bind_inversion H.
  injection H as <-. cbn [Py.total].
  match goal with
  | E : Py.extract _ _ = Py.Ok ?x |- _ =>
      apply py_extract_fields in E as (Ea & _); rewrite Ea, Ha in *
  end.
  assert (Has : Py.as_num (Py.VNum a) = Py.Ok a) by reflexivity.
  repeat match goal with
  | E : Py.mul (Py.VNum a) _ = Py.Ok ?z |- _ =>
      pose proof (py_mul_nonneg_or_nan _ a _ z Has Hna
                    (py_rate_nonneg _ _ _ Hmc H5) E); clear E
  | E : Py.div (Py.VNum a) _ = Py.Ok ?z |- _ =>
      pose proof (py_div_nonneg_or_nan _ a _ z Has Hna Hdp E); clear E
  | E : Py.crew_size_of _ _ _ r = Py.Ok ?z |- _ =>
      pose proof (py_crew_size_nonneg _ _ _ r z Hbc E); clear E
  | E : Py.slope_factor_of _ r = Py.Ok ?z |- _ =>
      pose proof (py_slope_factor_nonneg _ r z Hr E); clear E
  | E : Py.repair_loop _ _ r _ = Py.Ok ?z |- _ =>
      pose proof (py_repair_loop_nonneg _ _ r _ z Hrc H0 E); clear E
  | E : Py.num_mul ?x ?y = Py.Ok ?z,
    Hx : Py.nonneg_or_nan ?x = true, Hy : Py.nonneg_or_nan ?y = true |- _ =>
      pose proof (num_mul_nonneg_or_nan x y z Hx Hy E); clear E
  | E : Py.num_add ?x ?y = Py.Ok ?z,
    Hx : Py.nonneg_or_nan ?x = true, Hy : Py.nonneg_or_nan ?y = true |- _ =>
      pose proof (num_add_nonneg_or_nan x y z Hx Hy E); clear E
  end.
  assumption.
Qed.

Lemma cents_mono (w w' : Q) :
  (w <= w')%Q →
  (inject_Z (round_half_even (w * 100)) / 100
   <= inject_Z (round_half_even (w' * 100)) / 100)%Q.
Proof.
  intros H.
  assert (Hn : (round_half_even (w * 100) ≤ round_half_even (w' * 100))%Z).
  { apply round_half_even_mono. lra. }
  rewrite Zle_Qle in Hn.
  apply Qmult_le_compat_r; [exact Hn | by vm_compute].
Qed.

Lemma zero_le_rnd (x : Q) :
  (0 <= x)%Q →
  Binary64.le (Binary64.Fin (inject_Z 0)) (Binary64.rnd x) = true.
Proof.
  intros H. change (Binary64.Fin (inject_Z 0)) with (Binary64.rnd 0).
  apply rnd_mono; [apply Qle_refl | exact H].
Qed.

(** Rounding to cents keeps the order of two amounts that are not below
    zero. *)
Lemma round_cents_mono (x y : Q) :
  (0 <= x)%Q → (x <= y)%Q →
  Py.num_le (Py.PInt 0) (Py.round (Py.PFloat (Binary64.rnd x)) 2) = true
  ∧ Py.num_le (Py.round (Py.PFloat (Binary64.rnd x)) 2)
      (Py.round (Py.PFloat (Binary64.rnd y)) 2) = true.
Proof.
  intros Hx Hxy.
  pose proof (rnd_mono x y Hx Hxy) as Hm.
  destruct (rnd_nonneg x Hx) as [Ex | (w & Ex & Hw)];
    destruct (rnd_nonneg y ltac:(lra)) as [Ey | (w' & Ey & Hw')];
    rewrite Ex, Ey in *; try discriminate; try (split; reflexivity).
  - rewrite round_cents. split.
    + unfold Py.num_le. cbn [Py.exact].
      apply zero_le_rnd. by apply cents_nonneg.
    + unfold Py.num_le. cbn [Py.exact Py.round].
      destruct (rnd_nonneg _ (cents_nonneg w Hw)) as [-> | (z & -> & _)]; reflexivity.
  - rewrite !round_cents. apply float_le_Fin in Hm. split.
    + unfold Py.num_le. cbn [Py.exact].
      apply zero_le_rnd. by apply cents_nonneg.
    + unfold Py.num_le. cbn [Py.exact].
      apply rnd_mono; [by apply cents_nonneg | by apply cents_mono].
Qed.

(** X1: for a valid profile and a valid record, a returned range has
    [0 <= low <= high], unless the total is a NaN (an infinite amount times
    a zero rate), in which case both ends are NaN. *)
Theorem quote_range_is_ordered (str_lower : string → string)
    (row : gmap string Py.value) (r : Py.roofer) (q : Py.quote) :
  Py.valid_profile r = true → Py.valid_row row = true →
  Py.quote_locals str_lower row r = Py.Ok q →
  (Py.total q = Py.PFloat Binary64.NaN
   ∧ Py.quote_range q = (Py.PFloat Binary64.NaN, Py.PFloat Binary64.NaN))
  ∨ (Py.num_le (Py.PInt 0) (Py.quote_range q).1 = true
     ∧ Py.num_le (Py.quote_range q).1 (Py.quote_range q).2 = true).
Proof.
  intros Hr Hrow H.
  pose proof (py_total_nonneg _ _ _ _ Hr Hrow H) as Hn.
  destruct (quote_locals_range _ _ _ _ H) as (t & low & high & Ht & _ & Hl & Hh & Hq).
  rewrite Ht in *. rewrite Hq. cbn [fst snd].
  cbn in Hl, Hh. injection Hl as <-. injection Hh as <-.
  rewrite literal_0_9, literal_1_15.
  destruct t as [|[]|v]; try discriminate.
  - left. split; reflexivity.
  - right. split; by vm_compute.
  - right. cbn [Binary64.mul]. cbn in Hn. apply Qle_bool_iff in Hn.
    apply round_cents_mono; lra.
Qed.

Lemma quote_range_is_ordered_witness :
  ∃ q, Py.quote_locals lower_string (Py.area_row 0.001) (Py.example_profile "60601")
       = Py.Ok q
     ∧ ((Py.total q = Py.PFloat Binary64.NaN
         ∧ Py.quote_range q = (Py.PFloat Binary64.NaN, Py.PFloat Binary64.NaN))
        ∨ (Py.num_le (Py.PInt 0) (Py.quote_range q).1 = true
           ∧ Py.num_le (Py.quote_range q).1 (Py.quote_range q).2 = true)).
Proof.
  assert (Hq : ∃ q, Py.quote_locals lower_string (Py.area_row 0.001)
                      (Py.example_profile "60601") = Py.Ok q).
  { eexists. vm_compute. reflexivity. }
  destruct Hq as [q Hq]. exists q. split; [exact Hq|].
  apply (quote_range_is_ordered lower_string (Py.area_row 0.001)
           (Py.example_profile "60601") q); [by vm_compute | by vm_compute | exact Hq].
Defined.

(** ** Inputs on which the calculation returns *)

Lemma to_float_returns (n : Z) :
  (0 ≤ n < 2 ^ 1023)%Z → ∃ f, Py.to_float n = Py.Ok f.
Proof.
  intros [H0 H1]. unfold Py.to_float.
  assert (Hq : (0 <= inject_Z n)%Q) by (by rewrite <- (Zle_Qle 0)).
  assert (Hm : Binary64.le (Binary64.rnd (inject_Z n))
                 (Binary64.rnd (inject_Z (2 ^ 1023))) = true).
  { apply rnd_mono; [exact Hq|]. rewrite <- Zle_Qle. lia. }
  assert (E : Binary64.rnd (inject_Z (2 ^ 1023)) = Binary64.Fin (inject_Z (2 ^ 1023))).
  { vm_compute. reflexivity. }
  rewrite E in Hm.
  destruct (rnd_nonneg (inject_Z n) Hq) as [R | (w & R & _)]; rewrite R in *.
  - discriminate Hm.
  - eexists. reflexivity.
Qed.

Lemma as_float_returns (x : Py.num) :
  Py.below (2 ^ 1023) x → ∃ f, Py.as_float x = Py.Ok f.
Proof.
  destruct x as [n|f]; cbn; [apply to_float_returns | by eexists].
Qed.

Lemma below_weaken (b c : Z) (x : Py.num) :
  (b ≤ c)%Z → Py.below b x → Py.below c x.
Proof. destruct x; cbn; [lia | done]. Qed.

Lemma num_mul_returns (b c : Z) (x y : Py.num) :
  (b ≤ 2 ^ 1023)%Z → (c ≤ 2 ^ 1023)%Z →
  Py.below b x → Py.below c y →
  ∃ z, Py.num_mul x y = Py.Ok z ∧ Py.below (b * c) z.
Proof.
  intros Hb Hc Hx Hy.
  destruct (as_float_returns x (below_weaken _ _ _ Hb Hx)) as [f Hf].
  destruct (as_float_returns y (below_weaken _ _ _ Hc Hy)) as [g Hg].
  destruct x as [m|f'], y as [n|g']; cbn in *.
  - eexists. split; [reflexivity|]. cbn. nia.
  - rewrite Hf. cbn. by eexists.
  - rewrite Hg. cbn. by eexists.
  - by eexists.
Qed.

Lemma num_add_returns (b c : Z) (x y : Py.num) :
  (b ≤ 2 ^ 1023)%Z → (c ≤ 2 ^ 1023)%Z →
  Py.below b x → Py.below c y →
  ∃ z, Py.num_add x y = Py.Ok z ∧ Py.below (b + c) z.
Proof.
  intros Hb Hc Hx Hy.
  destruct (as_float_returns x (below_weaken _ _ _ Hb Hx)) as [f Hf].
  destruct (as_float_returns y (below_weaken _ _ _ Hc Hy)) as [g Hg].
  destruct x as [m|f'], y as [n|g']; cbn in *.
  - eexists. split; [reflexivity|]. cbn. lia.
  - rewrite Hf. cbn. by eexists.
  - rewrite Hg. cbn. by eexists.
  - by eexists.
Qed.

(** Once a float has entered, the results are floats. *)
Lemma num_mul_float_returns (f : Binary64.float) (c : Z) (y : Py.num) :
  (c ≤ 2 ^ 1023)%Z → Py.below c y →
  ∃ g, Py.num_mul (Py.PFloat f) y = Py.Ok (Py.PFloat g).
Proof.
  intros Hc Hy.
  destruct (as_float_returns y (below_weaken _ _ _ Hc Hy)) as [g Hg].
  destruct y as [n|g']; cbn in *; [rewrite Hg; cbn|]; by eexists.
Qed.

Lemma num_add_float_returns (f : Binary64.float) (c : Z) (y : Py.num) :
  (c ≤ 2 ^ 1023)%Z → Py.below c y →
  ∃ g, Py.num_add (Py.PFloat f) y = Py.Ok (Py.PFloat g).
Proof.
  intros Hc Hy.
  destruct (as_float_returns y (below_weaken _ _ _ Hc Hy)) as [g Hg].
  destruct y as [n|g']; cbn in *; [rewrite Hg; cbn|]; by eexists.
Qed.

Lemma num_add_to_float_returns (b : Z) (x : Py.num) (f : Binary64.float) :
  (b ≤ 2 ^ 1023)%Z → Py.below b x →
  ∃ g, Py.num_add x (Py.PFloat f) = Py.Ok (Py.PFloat g).
Proof.
  intros Hb Hx.
  destruct (as_float_returns x (below_weaken _ _ _ Hb Hx)) as [g Hg].
  destruct x as [n|g']; cbn in *; [rewrite Hg; cbn|]; by eexists.
Qed.

Lemma to_float_positive (n : Z) (f : Binary64.float) :
  (0 < n)%Z → Py.to_float n = Py.Ok f → Binary64.is_zero f = false.
Proof.
  intros Hn. unfold Py.to_float.
  assert (Hm : Binary64.le (Binary64.rnd 1) (Binary64.rnd (inject_Z n)) = true).
  { apply rnd_mono; [by vm_compute|].
    change 1%Q with (inject_Z 1). rewrite <- Zle_Qle. lia. }
  assert (E : Binary64.rnd 1 = Binary64.Fin 1) by (vm_compute; reflexivity).
  rewrite E in Hm.
  destruct (Binary64.rnd (inject_Z n)) as [| |v]; try discriminate.
  intros [= <-]. cbn. apply float_le_Fin in Hm.
  destruct (Qeq_bool v 0) eqn:Z0; [|reflexivity].
  apply Qeq_bool_iff in Z0. rewrite Z0 in Hm. by vm_compute in Hm.
Qed.

Lemma num_div_returns (b : Z) (x y : Py.num) :
  (b ≤ 2 ^ 1023)%Z → Py.below b x → Py.below (2 ^ 1023) y →
  Py.num_gt y (Py.PInt 0) = true →
  ∃ g, Py.num_div x y = Py.Ok (Py.PFloat g).
Proof.
  intros Hb Hx Hy Hpos.
  destruct (as_float_returns x (below_weaken _ _ _ Hb Hx)) as [f Hf].
  destruct (as_float_returns y Hy) as [g Hg].
  assert (Hz : Binary64.is_zero g = false).
  { destruct y as [n|g']; cbn in Hg.
    - apply (to_float_positive n g); [|exact Hg].
      unfold Py.num_gt in Hpos. cbn in Hpos. apply negb_true_iff in Hpos.
      destruct (Z_lt_le_dec 0 n) as [|L]; [assumption|].
      assert (Hq : (inject_Z n <= inject_Z 0)%Q) by (by rewrite <- Zle_Qle).
      apply Qle_bool_iff in Hq.
      assert (T : Qle_bool (inject_Z n) (inject_Z 0) = false) by exact Hpos.
      congruence.
    - injection Hg as <-. unfold Py.num_gt in Hpos. cbn in Hpos.
      destruct g' as [|[]|v]; try discriminate; [reflexivity|].
      cbn. apply negb_true_iff in Hpos.
      destruct (Qeq_bool v 0) eqn:Z0; [|reflexivity].
      apply Qeq_bool_iff in Z0.
      assert (Hq : (v <= 0)%Q) by (rewrite Z0; apply Qle_refl).
      apply Qle_bool_iff in Hq.
      assert (T : Qle_bool v 0 = false) by exact Hpos.
      congruence. }
  destruct x as [m|f'], y as [n|g']; cbn in *.
  - destruct (Z.eqb_spec n 0) as [->|Hn].
    { exfalso. cbn in Hg. injection Hg as <-. discriminate Hz. }
    assert (Hq : (0 <= inject_Z m / inject_Z n)%Q).
    { apply Qle_shift_div_l; [rewrite <- (Zlt_Qlt 0); lia|].
      rewrite Qmult_0_l. rewrite <- (Zle_Qle 0). lia. }
    assert (Hle : (inject_Z m / inject_Z n <= inject_Z (2 ^ 1023))%Q).
    { apply Qle_shift_div_r; [rewrite <- (Zlt_Qlt 0); lia|].
      rewrite <- inject_Z_mult, <- Zle_Qle. nia. }
    pose proof (rnd_mono _ _ Hq Hle) as Hm.
    assert (E : Binary64.rnd (inject_Z (2 ^ 1023)) = Binary64.Fin (inject_Z (2 ^ 1023))).
    { vm_compute. reflexivity. }
    rewrite E in Hm.
    destruct (rnd_nonneg _ Hq) as [R | (w & R & _)]; rewrite R in *;
      [discriminate Hm | eexists; reflexivity].
  - injection Hg as ->. rewrite Hf. cbn. rewrite Hz. by eexists.
  - rewrite Hg. cbn. rewrite Hz. by eexists.
  - injection Hg as ->. rewrite Hz. by eexists.
Qed.

Lemma small_below (x : Py.num) :
  Py.small x = true → Py.nonneg_or_nan x = true → Py.below (2 ^ 500) x.
Proof.
  destruct x as [n|f]; cbn; [|done].
  intros H1 H2. apply Z.ltb_lt in H1. apply Z.leb_le in H2. lia.
Qed.

Lemma py_all_small_lookup (m : gmap string Py.num) (k : string) (x : Py.num) :
  Py.all_small m = true → m !! k = Some x → Py.small x = true.
Proof.
  unfold Py.all_small. rewrite forallb_forall. intros H Hk.
  apply (H (k, x)). apply list_elem_of_In. by apply elem_of_map_to_list.
Qed.

Lemma py_rate_below (m : gmap string Py.num) (k : string) (d : Py.num) :
  Py.all_nonneg m = true → Py.all_small m = true → Py.below (2 ^ 500) d →
  Py.below (2 ^ 500) (default d (m !! k)).
Proof.
  intros Hn Hs Hd. destruct (m !! k) as [x|] eqn:E; cbn; [|exact Hd].
  apply small_below.
  - by apply (py_all_small_lookup m k).
  - by apply (py_all_nonneg_lookup m k).
Qed.

Lemma py_small_profile_spec (r : Py.roofer) :
  Py.valid_profile r = true → Py.small_profile r = true →
  Py.below (2 ^ 500) (Py.labor_rate r)
  ∧ Py.below (2 ^ 500) (Py.daily_productivity r)
  ∧ Py.below (2 ^ 500) (Py.base_crew_size r)
  ∧ Py.below (2 ^ 500) (Py.flat_low (Py.slope_cost_adjustment r))
  ∧ Py.below (2 ^ 500) (Py.moderate (Py.slope_cost_adjustment r))
  ∧ Py.below (2 ^ 500) (Py.steep (Py.slope_cost_adjustment r))
  ∧ Py.below (2 ^ 500) (Py.very_steep (Py.slope_cost_adjustment r))
  ∧ Py.all_small (Py.material_costs r) = true
  ∧ Py.all_small (Py.replacement_costs r) = true
  ∧ Py.below (2 ^ 500) (Py.overhead_percent r)
  ∧ Py.below (2 ^ 500) (Py.profit_margin r).
Proof.
  intros Hv Hs.
  destruct (py_valid_profile_spec r Hv)
    as (V1 & V2 & V3 & V4 & V5 & V6 & V7 & _ & _ & V10 & V11).
  unfold Py.small_profile in Hs. rewrite !andb_true_iff in Hs.
  destruct Hs as [[[[[[[[[[S1 S2] S3] S4] S5] S6] S7] S8] S9] S10] S11].
  repeat split; try assumption; by apply small_below.
Qed.

Lemma py_valid_row_spec (row : gmap string Py.value) :
  Py.valid_row row = true →
  ∃ a p h s,
    Py.get row "roof_area" (Py.VNum (Py.PInt 2500)) = Py.VNum a
    ∧ Py.nonneg_or_nan a = true
    ∧ Py.get row "pitch" (Py.VNum (Py.PInt 15)) = Py.VNum p
    ∧ Py.get row "height_ft" (Py.VNum (Py.PInt 15)) = Py.VNum h
    ∧ Py.get row "roof_material" (Py.VStr "asphalt") = Py.VStr s
    ∧ (∀ f v, f ∈ repair_fields → row !! f = Some v → ∃ x, v = Py.VNum x).
Proof.
  unfold Py.valid_row. rewrite !andb_true_iff.
  intros [[[[[Ha Hp] Hh] Hm] _] Hf].
  destruct (Py.get row "roof_area" _) as [| |a|]; try discriminate.
  destruct (Py.get row "pitch" _) as [| |p|]; try discriminate.
  destruct (Py.get row "height_ft" _) as [| |h|]; try discriminate.
  destruct (Py.get row "roof_material" _) as [| | |s]; try discriminate.
  exists a, p, h, s. repeat split; try reflexivity.
  - by apply num_nonneg_nonneg_or_nan.
  - intros f v Hin Hv. rewrite forallb_forall in Hf.
    specialize (Hf f (proj1 (list_elem_of_In _ _) Hin)).
    unfold Py.get in Hf. rewrite Hv in Hf. cbn in Hf.
    destruct v as [| |x|]; try discriminate. by exists x.
Qed.

Lemma py_small_row_spec (row : gmap string Py.value) :
  Py.small_row row = true →
  Py.small_value (Py.get row "roof_area" (Py.VNum (Py.PInt 2500))) = true
  ∧ (∀ f x, f ∈ repair_fields → row !! f = Some (Py.VNum x) → Py.small x = true).
Proof.
  unfold Py.small_row. rewrite andb_true_iff. intros [Ha Hf].
  split; [exact Ha|].
  intros f x Hin Hx. rewrite forallb_forall in Hf.
  specialize (Hf f (proj1 (list_elem_of_In _ _) Hin)).
  unfold Py.get in Hf. by rewrite Hx in Hf.
Qed.

Lemma py_repair_fields_split (f : string) :
  f ∈ repair_fields → ∃ mat, Py.item0 (split f) = Py.Ok mat.
Proof.
  unfold repair_fields. rewrite !elem_of_cons, elem_of_nil.
  intros [->|[->|[->|[]]]]; eexists; reflexivity.
Qed.

Lemma py_crew_size_returns (a p h : Py.num) (r : Py.roofer) :
  Py.below (2 ^ 500) (Py.base_crew_size r) →
  ∃ c, Py.crew_size_of (Py.VNum a) (Py.VNum p) (Py.VNum h) r = Py.Ok c
       ∧ Py.below (2 ^ 500 + 6) c.
Proof.
  intros Hb. unfold Py.crew_size_of. cbv zeta.
  assert (F : (2 ^ 500 + 6 ≤ 2 ^ 1023)%Z) by (by vm_compute).
  assert (H1 : Py.below 2 (Py.PInt 1)) by (cbn; lia).
  assert (S1 : ∀ (t : bool) (b : Z) (x : Py.num),
            (b ≤ 2 ^ 500 + 4)%Z → Py.below b x →
            ∃ y, (if t then Py.num_add x (Py.PInt 1) else Py.Ok x) = Py.Ok y
                 ∧ Py.below (b + 2) y).
  { intros [] b x Hle Hx.
    - apply num_add_returns; [lia | by vm_compute | exact Hx | exact H1].
    - exists x. split; [reflexivity|]. apply (below_weaken b); [lia | exact Hx]. }
  cbn [Py.gt Py.as_num Py.bind].
  destruct (S1 (Py.num_gt a (Py.PInt 3000)) (2 ^ 500)%Z _ ltac:(lia) Hb)
    as (c1 & -> & Hc1).
  cbn [Py.bind].
  destruct (S1 (Py.num_gt a (Py.PInt 5000)) (2 ^ 500 + 2)%Z _ ltac:(lia) Hc1)
    as (c2 & -> & Hc2).
  cbn [Py.bind].
  set (hard := if Py.num_gt p (Py.PInt 30) then Py.Ok true
               else Py.Ok (Py.num_gt h (Py.PInt 25))).
  assert (Hh : ∃ t, hard = Py.Ok t).
  { unfold hard. destruct (Py.num_gt p (Py.PInt 30)); by eexists. }
  destruct Hh as [t ->]. cbn [Py.bind].
  destruct (S1 t (2 ^ 500 + 2 + 2)%Z _ ltac:(lia) Hc2) as (c3 & -> & Hc3).
  exists c3. split; [reflexivity|].
  apply (below_weaken (2 ^ 500 + 2 + 2 + 2)); [lia | exact Hc3].
Qed.

Lemma py_slope_factor_returns (p : Py.num) (r : Py.roofer) :
  Py.below (2 ^ 500) (Py.flat_low (Py.slope_cost_adjustment r)) →
  Py.below (2 ^ 500) (Py.moderate (Py.slope_cost_adjustment r)) →
  Py.below (2 ^ 500) (Py.steep (Py.slope_cost_adjustment r)) →
  Py.below (2 ^ 500) (Py.very_steep (Py.slope_cost_adjustment r)) →
  ∃ s, Py.slope_factor_of (Py.VNum p) r = Py.Ok s ∧ Py.below (2 ^ 500) s.
Proof.
  intros F1 F2 F3 F4. unfold Py.slope_factor_of.
  cbn [Py.le Py.as_num Py.bind].
  destruct (Py.num_le p (Py.PInt 15)); [by eexists|].
  destruct (Py.num_le p (Py.PInt 30)); [by eexists|].
  destruct (Py.num_le p (Py.PInt 45)); by eexists.
Qed.

Lemma py_repair_loop_returns (fs : list string) (row : gmap string Py.value)
    (r : Py.roofer) :
  (∀ f, f ∈ fs → f ∈ repair_fields) →
  (∀ f v, f ∈ repair_fields → row !! f = Some v → ∃ x, v = Py.VNum x) →
  (∀ f x, f ∈ repair_fields → row !! f = Some (Py.VNum x) → Py.small x = true) →
  Py.all_nonneg (Py.replacement_costs r) = true →
  Py.all_small (Py.replacement_costs r) = true →
  ∀ (c0 : Py.num) (b : Z),
    (0 ≤ b)%Z → Py.below b c0 →
    (b + Z.of_nat (length fs) * (2 ^ 500 * 2 ^ 500) ≤ 2 ^ 1023)%Z →
    ∃ c, Py.repair_loop fs row r c0 = Py.Ok c
         ∧ Py.below (b + Z.of_nat (length fs) * (2 ^ 500 * 2 ^ 500)) c.
Proof.
  intros Hfs Hnum Hsmall Hrn Hrs.
  assert (M0 : (0 < 2 ^ 500 * 2 ^ 500)%Z) by (by vm_compute).
  assert (M1 : (2 ^ 500 ≤ 2 ^ 1023)%Z) by (by vm_compute).
  set (M := (2 ^ 500 * 2 ^ 500)%Z) in *.
  induction fs as [|f fs IH]; intros c0 b Hb0 Hc0 Hle.
  - exists c0. split; [reflexivity|]. cbn [length]. 
    apply (below_weaken b); [lia | exact Hc0].
  - cbn [length] in *. rewrite Nat2Z.inj_succ in *.
    assert (Hin : f ∈ repair_fields) by (apply Hfs, list_elem_of_here).
    assert (IH' : ∀ c0 b, (0 ≤ b)%Z → Py.below b c0 →
              (b + Z.of_nat (length fs) * M ≤ 2 ^ 1023)%Z →
              ∃ c, Py.repair_loop fs row r c0 = Py.Ok c
                   ∧ Py.below (b + Z.of_nat (length fs) * M) c).
    { apply IH. intros g Hg. apply Hfs. by apply list_elem_of_further. }
    clear IH.
    assert (Skip : ∃ c, Py.repair_loop fs row r c0 = Py.Ok c
                        ∧ Py.below (b + Z.succ (Z.of_nat (length fs)) * M) c).
    { destruct (IH' c0 b Hb0 Hc0 ltac:(lia)) as (c & E & Hc).
      exists c. split; [exact E|].
      apply (below_weaken (b + Z.of_nat (length fs) * M)); [lia | exact Hc]. }
    cbn [Py.repair_loop].
    destruct (row !! f) as [v|] eqn:Ev; [|exact Skip].
    destruct (Hnum f v Hin Ev) as [x ->].
    cbn [Py.gt Py.as_num Py.bind].
    destruct (Py.num_gt x (Py.PInt 0)) eqn:Hpos; [|exact Skip].
    destruct (py_repair_fields_split f Hin) as [mat ->]. cbn [Py.bind].
    assert (Hx : Py.below (2 ^ 500) x).
    { apply small_below; [by apply (Hsmall f) | by apply num_pos_nonneg_or_nan]. }
    assert (Hrate : Py.below (2 ^ 500)
                      (default (Py.PInt 50) (Py.replacement_costs r !! mat))).
    { apply py_rate_below; [exact Hrn | exact Hrs | by vm_compute]. }
    unfold Py.mul. cbn [Py.as_num Py.bind].
    destruct (num_mul_returns _ _ _ _ M1 M1 Hx Hrate) as (cost & -> & Hcost).
    cbn [Py.bind]. fold M in Hcost.
    destruct (num_add_returns b M c0 cost ltac:(lia) ltac:(lia) Hc0 Hcost)
      as (c1 & -> & Hc1).
    cbn [Py.bind].
    destruct (IH' c1 (b + M)%Z ltac:(lia) Hc1 ltac:(lia)) as (c & E & Hc).
    exists c. split; [exact E|].
    apply (below_weaken (b + M + Z.of_nat (length fs) * M)); [lia | exact Hc].
Qed.

(** For a valid profile and a valid record whose [int]s are below [2^500]
    in magnitude, the calculation reaches its last statement. *)
Lemma py_quote_locals_returns (str_lower : string → string)
    (row : gmap string Py.value) (r : Py.roofer) :
  Py.valid_profile r = true → Py.valid_row row = true →
  Py.small_profile r = true → Py.small_row row = true →
  ∃ q, Py.quote_locals str_lower row r = Py.Ok q.
Proof.
  intros Hvp Hvr Hsp Hsr.
  destruct (py_valid_profile_spec r Hvp)
    as (_ & _ & _ & _ & _ & _ & _ & Hmn & Hrn & _ & _).
  destruct (py_small_profile_spec r Hvp Hsp)
    as (Blr & Bdp & Bbc & B1 & B2 & B3 & B4 & Hms & Hrs & Bov & Bpm).
  destruct (py_valid_row_spec row Hvr) as (a & p & h & s & Ea & Hna & Ep & Eh & Em & Hnum).
  destruct (py_small_row_spec row Hsr) as (Hsa & Hsmall).
  rewrite Ea in Hsa. cbn in Hsa.
  pose proof (small_below a Hsa Hna) as Ba.
  assert (Hpos : Py.num_gt (Py.daily_productivity r) (Py.PInt 0) = true).
  { unfold Py.valid_profile in Hvp. rewrite !andb_true_iff in Hvp.
    by destruct Hvp as [[[[[[[[[[_ H] _] _] _] _] _] _] _] _] _]. }
  assert (T0 : (2 ^ 500 ≤ 2 ^ 1023)%Z) by (by vm_compute).
  assert (T1 : (2 ^ 500 + 6 ≤ 2 ^ 1023)%Z) by (by vm_compute).
  assert (T2 : (2 ^ 500 * 2 ^ 500 ≤ 2 ^ 1023)%Z) by (by vm_compute).
  assert (T3 : (1 + Z.of_nat (length repair_fields) * (2 ^ 500 * 2 ^ 500)
                ≤ 2 ^ 1023)%Z) by (by vm_compute).
  assert (T4 : (2 + 2 ^ 500 ≤ 2 ^ 1023)%Z) by (by vm_compute).
  unfold Py.quote_locals, Py.extract.
  rewrite Ea, Ep, Eh, Em. cbn [Py.lower Py.bind Py.x_area Py.x_pitch Py.x_height Py.x_material].
  (* material cost *)
  unfold Py.mul at 1. cbn [Py.as_num Py.bind].
  destruct (num_mul_returns _ _ a
              (default (Py.float_literal 5.0) (Py.material_costs r !! str_lower s))
              T0 T0 Ba
              (py_rate_below _ (str_lower s) (Py.float_literal 5.0) Hmn Hms I))
    as (material_cost & -> & Bmc).
  cbn [Py.bind].
  (* crew *)
  destruct (py_crew_size_returns a p h r Bbc) as (crew & -> & Bcrew).
  cbn [Py.bind].
  (* labor *)
  unfold Py.div. cbn [Py.as_num Py.bind].
  destruct (num_div_returns _ a _ T0 Ba
              (below_weaken _ _ _ T0 Bdp) Hpos) as (days & ->).
  cbn [Py.bind].
  destruct (num_mul_float_returns days 9 (Py.PInt 8) ltac:(by vm_compute)
              ltac:(cbn; lia)) as (hours & ->).
  cbn [Py.bind].
  destruct (num_mul_float_returns hours _ _ T0 Blr) as (pay & ->).
  cbn [Py.bind].
  destruct (num_mul_float_returns pay _ _ T1 Bcrew) as (labor & ->).
  cbn [Py.bind].
  destruct (py_slope_factor_returns p r B1 B2 B3 B4) as (sf & -> & Bsf).
  cbn [Py.bind].
  destruct (num_add_returns 2 _ (Py.PInt 1) sf ltac:(by vm_compute) T0
              ltac:(cbn; lia) Bsf) as (surcharge & -> & Bsu).
  cbn [Py.bind].
  destruct (num_mul_float_returns labor _ _ T4 Bsu) as (labor' & ->).
  cbn [Py.bind].
  (* repairs *)
  destruct (py_repair_loop_returns repair_fields row r (λ f H, H) Hnum Hsmall
              Hrn Hrs (Py.PInt 0) 1 ltac:(lia) ltac:(cbn; lia) T3)
    as (repair & -> & Brep).
  cbn [Py.bind].
  (* totals *)
  destruct (num_add_to_float_returns _ material_cost labor' T2 Bmc) as (c1 & ->).
  cbn [Py.bind].
  destruct (num_add_float_returns c1 _ repair T3 Brep) as (c2 & ->).
  cbn [Py.bind].
  destruct (get_region_multiplier_float (Py.region_zip r)) as [m ->].
  assert (Z0 : (0 ≤ 2 ^ 1023)%Z) by (by vm_compute).
  destruct (num_mul_float_returns c2 0 (Py.PFloat m) Z0 I) as (sub & ->).
  cbn [Py.bind].
  destruct (num_mul_float_returns sub _ _ T0 Bov) as (ov & ->).
  cbn [Py.bind].
  destruct (num_add_float_returns sub 0 (Py.PFloat ov) Z0 I) as (wo & ->).
  cbn [Py.bind].
  destruct (num_mul_float_returns wo _ _ T0 Bpm) as (pr & ->).
  cbn [Py.bind].
  destruct (num_add_float_returns wo 0 (Py.PFloat pr) Z0 I) as (tot & ->).
  cbn [Py.bind].
  destruct (num_mul_float_returns tot 0 (Py.float_literal 0.9) Z0 I) as (lo & ->).
  cbn [Py.bind].
  destruct (num_mul_float_returns tot 0 (Py.float_literal 1.15) Z0 I) as (hi & ->).
  cbn [Py.bind]. by eexists.
Qed.

(** X24: for a valid profile and a valid record whose [int]s are below
    [2^500] in magnitude (floats are not restricted), [calculate_quote]
    returns a range. *)
Theorem calculate_quote_returns (str_lower : string → string)
    (row : gmap string Py.value) (r : Py.roofer) :
  Py.valid_profile r = true → Py.valid_row row = true →
  Py.small_profile r = true → Py.small_row row = true →
  ∃ low high, Py.calculate_quote str_lower row r = Py.Ok (low, high).
Proof.
  intros Hvp Hvr Hsp Hsr.
  destruct (py_quote_locals_returns str_lower row r Hvp Hvr Hsp Hsr) as [q Hq].
  unfold Py.calculate_quote. rewrite Hq. cbn [Py.bind].
  destruct (Py.quote_range q) as [low high]. by exists low, high.
Qed.

Lemma calculate_quote_returns_witness :
  ∃ low high,
    Py.calculate_quote lower_string (Py.int_area_row (10 ^ 100))
      (Py.example_profile "10001") = Py.Ok (low, high).
Proof.
  apply (calculate_quote_returns lower_string (Py.int_area_row (10 ^ 100))
           (Py.example_profile "10001")); by vm_compute.
Defined.

(** ** The quote range in floating point *)

(** C2, amended: for a valid profile and a valid record whose [int]s are
    below [2^500] in magnitude, [calculate_quote] returns; and whenever it
    returns, the range it returns is
    [(round(total * 0.9, 2), round(total * 1.15, 2))], and
    [low <= total <= high] holds when the total is 0 or at least 0.04 (an
    infinite total included). *)
Theorem quote_range_brackets_total (str_lower : string → string)
    (row : gmap string Py.value) (r : Py.roofer) :
  (Py.valid_profile r = true → Py.valid_row row = true →
   Py.small_profile r = true → Py.small_row row = true →
   ∃ q, Py.quote_locals str_lower row r = Py.Ok q)
  ∧ ∀ q, Py.quote_locals str_lower row r = Py.Ok q →
      Py.calculate_quote str_lower row r = Py.Ok (Py.quote_range q) ∧
      ∃ low high,
        Py.num_mul (Py.total q) (Py.float_literal 0.9) = Py.Ok low ∧
        Py.num_mul (Py.total q) (Py.float_literal 1.15) = Py.Ok high ∧
        Py.quote_range q = (Py.round low 2, Py.round high 2) ∧
        (Py.num_le (Py.float_literal 0.04) (Py.total q) = true ∨
         (Py.num_le (Py.PInt 0) (Py.total q) = true ∧
          Py.num_le (Py.total q) (Py.PInt 0) = true) →
         Py.num_le (Py.round low 2) (Py.total q) = true ∧
         Py.num_le (Py.total q) (Py.round high 2) = true).
Proof.
  split; [apply py_quote_locals_returns|].
  intros q H. split.
  { unfold Py.calculate_quote. by rewrite H. }
  destruct (quote_locals_range _ _ _ _ H) as (t & low & high & Ht & Hr & Hl & Hh & Hq).
  exists low, high. split; [exact Hl|]. split; [exact Hh|]. split; [exact Hq|].
  rewrite Ht in *. cbn in Hl, Hh. injection Hl as <-. injection Hh as <-.
  unfold Py.float_literal.
  destruct t as [|s|v].
  - unfold Py.num_le. cbn [Py.exact]. rewrite literal_0_04.
    intros [Hc | [Hc _]]; discriminate Hc.
  - destruct s.
    + unfold Py.num_le. cbn [Py.exact]. rewrite literal_0_04.
      intros [Hc | [Hc _]]; discriminate Hc.
    + intros _. rewrite literal_0_9, literal_1_15. by vm_compute.
  - intros [H4 | [H0 H0']].
    + unfold Py.num_le in H4. cbn [Py.exact] in H4.
      rewrite literal_0_04 in H4. apply float_le_Fin in H4.
      assert (Hv : (0.04 <= v)%Q) by lra.
      split; [exact (low_le_total v Hr Hv) | exact (total_le_high v Hr Hv)].
    + apply float_le_Fin in H0, H0'.
      assert (Hv : (v == 0)%Q).
      { apply Qle_antisym; [exact H0' | exact H0]. }
      rewrite literal_0_9, literal_1_15.
      rewrite !(zero_total_in_range v _ Hv).
      split; apply float_le_Fin; [exact H0 | exact H0'].
Qed.

Lemma quote_range_brackets_total_witness :
  ∃ q, Py.quote_locals lower_string (Py.area_row 2500) (Py.example_profile "60601") = Py.Ok q
     ∧ Py.calculate_quote lower_string (Py.area_row 2500) (Py.example_profile "60601")
       = Py.Ok (Py.quote_range q)
     ∧ Py.quote_range q = (Py.float_literal 13163.04, Py.float_literal 16819.44)
     ∧ Py.num_le (Py.quote_range q).1 (Py.total q) = true
     ∧ Py.num_le (Py.total q) (Py.quote_range q).2 = true.
Proof.
  destruct (quote_range_brackets_total lower_string (Py.area_row 2500)
              (Py.example_profile "60601")) as [Hret Hrange].
  destruct Hret as [q Hq]; [by vm_compute..|].
  exists q. split; [exact Hq|].
  destruct (Hrange q Hq) as (Hc & low & high & _ & _ & Hr & Hb).
  split; [exact Hc|].
  assert (E : match Py.quote_locals lower_string (Py.area_row 2500)
                      (Py.example_profile "60601") with
              | Py.Ok q =>
                  Py.num_le (Py.float_literal 0.04) (Py.total q) = true
                  ∧ Py.quote_range q
                    = (Py.float_literal 13163.04, Py.float_literal 16819.44)
              | Py.Raise _ => False
              end).
  { vm_compute. split; reflexivity. }
  rewrite Hq in E. destruct E as [E4 Er].
  split; [exact Er|].
  rewrite Hr. cbn [fst snd]. apply Hb. by left.
Defined.

(** C2, as stated, fails for small totals, and the calculation does not
    return for every valid record.  With the example profile, a roof of
    0.0005 sq ft has a total of about 0.0029 and a high end of 0.0; one of
    0.001 sq ft a total of about 0.00585 and a low end of 0.01; one of
    0.0068 sq ft a total of about 0.0398 and a low end of 0.04; and one of
    [10^400] sq ft, an [int], raises [OverflowError]. *)
Lemma tiny_total_is_below_the_low_end :
  Py.valid_profile (Py.example_profile "60601") = true
  ∧ Py.valid_row (Py.area_row 0.0005) = true
  ∧ Py.valid_row (Py.area_row 0.001) = true
  ∧ Py.valid_row (Py.area_row 0.0068) = true
  ∧ Py.valid_row (Py.int_area_row (10 ^ 400)) = true
  ∧ (∃ q, Py.quote_locals lower_string (Py.area_row 0.0005) (Py.example_profile "60601")
          = Py.Ok q
        ∧ Py.quote_range q = (Py.float_literal 0.0, Py.float_literal 0.0)
        ∧ Py.num_gt (Py.total q) (Py.PInt 0) = true
        ∧ Py.num_le (Py.total q) (Py.quote_range q).2 = false)
  ∧ (∃ q, Py.quote_locals lower_string (Py.area_row 0.001) (Py.example_profile "60601")
          = Py.Ok q
        ∧ Py.quote_range q = (Py.float_literal 0.01, Py.float_literal 0.01)
        ∧ Py.num_gt (Py.total q) (Py.PInt 0) = true
        ∧ Py.num_le (Py.quote_range q).1 (Py.total q) = false)
  ∧ (∃ q, Py.quote_locals lower_string (Py.area_row 0.0068) (Py.example_profile "60601")
          = Py.Ok q
        ∧ Py.quote_range q = (Py.float_literal 0.04, Py.float_literal 0.05)
        ∧ Py.num_le (Py.quote_range q).1 (Py.total q) = false)
  ∧ Py.calculate_quote lower_string (Py.int_area_row (10 ^ 400))
      (Py.example_profile "60601")
    = Py.Raise Py.OverflowError.
Proof.
  repeat (split; [by vm_compute|]).
  split.
  { eexists. split; [vm_compute; reflexivity|].
    split; [by vm_compute|]. split; by vm_compute. }
  split.
  { eexists. split; [vm_compute; reflexivity|].
    split; [by vm_compute|]. split; by vm_compute. }
  split.
  { eexists. split; [vm_compute; reflexivity|]. split; by vm_compute. }
  by vm_compute.
Qed.

(** ** Edits of the onboarding form *)

Lemma or_zero_not_NaN (n : Onboarding.jsnum) : Onboarding.or_zero n ≠ Onboarding.NaN.
Proof.
  unfold Onboarding.or_zero. destruct n; simpl; try done.
  by destruct (negb _).
Qed.

Lemma includes_app (sep : ascii) (s t : string) :
  Onboarding.includes sep (s +:+ t)
  = Onboarding.includes sep s || Onboarding.includes sep t.
Proof.
  induction s as [|c s IH]; simpl; [done|]. rewrite IH. by rewrite orb_assoc.
Qed.

Lemma split_on_plain (sep : ascii) (s : string) :
  Onboarding.includes sep s = false → Onboarding.split_on sep s = [s].
Proof.
  induction s as [|c s IH]; simpl; [done|].
  intros H. apply orb_false_iff in H as [Hc Hs]. rewrite Hc, (IH Hs). done.
Qed.

Lemma split_on_first (sep : ascii) (s t : string) :
  Onboarding.includes sep s = false →
  Onboarding.split_on sep (s +:+ String sep t) = s :: Onboarding.split_on sep t.
Proof.
  induction s as [|c s IH]; simpl.
  - intros _. by rewrite Ascii.eqb_refl.
  - intros H. apply orb_false_iff in H as [Hc Hs]. by rewrite Hc, (IH Hs).
Qed.

Lemma handleInputChange_plain (field value : string)
    (prev : gmap string Onboarding.jsval) :
  Onboarding.includes "." field = false →
  Onboarding.handleInputChange field value prev = <[field := Onboarding.JStr value]> prev.
Proof. unfold Onboarding.handleInputChange. by intros ->. Qed.

Lemma handleInputChange_nested (parent child value : string)
    (prev : gmap string Onboarding.jsval) :
  Onboarding.includes "." parent = false →
  Onboarding.includes "." child = false →
  Onboarding.handleInputChange (parent +:+ String "." child) value prev
  = <[parent := Onboarding.JObj
        (<[child := Onboarding.JNum (Onboarding.or_zero (Onboarding.parseFloat value))]>
           (Onboarding.spread (Onboarding.prop prev parent)))]> prev.
Proof.
  intros Hp Hc. unfold Onboarding.handleInputChange.
  rewrite includes_app. simpl Onboarding.includes at 2. rewrite orb_true_r.
  by rewrite (split_on_first _ _ _ Hp), (split_on_plain _ _ Hc).
Qed.

(** X12: an edit of a nested field [parent.child] stores
    [parseFloat(value) || 0] under [child]: the number the text begins with,
    rounded to the nearest float (infinite when it is beyond the floats), and
    0 when the text begins with no number or with a zero; never [NaN].  It
    keeps the other entries of [parent] and leaves every other field of the
    form as it was. *)
Theorem nested_edit_stores_a_number (parent child value : string)
    (prev : gmap string Onboarding.jsval) (entries : gmap string Onboarding.jsval) :
  Onboarding.includes "." parent = false →
  Onboarding.includes "." child = false →
  prev !! parent = Some (Onboarding.JObj entries) →
  Onboarding.handleInputChange (parent +:+ String "." child) value prev
  = <[parent := Onboarding.JObj
        (<[child := Onboarding.JNum (Onboarding.or_zero (Onboarding.parseFloat value))]>
           entries)]> prev
  ∧ Onboarding.or_zero (Onboarding.parseFloat value) ≠ Onboarding.NaN
  ∧ (Onboarding.parseFloat value = Onboarding.NaN →
       Onboarding.or_zero (Onboarding.parseFloat value) = Onboarding.Fin 0)
  ∧ (∀ q, Onboarding.parseFloat value = Onboarding.Fin q → (q == 0)%Q →
       Onboarding.or_zero (Onboarding.parseFloat value) = Onboarding.Fin 0)
  ∧ (∀ q, Onboarding.parseFloat value = Onboarding.Fin q → ¬ (q == 0)%Q →
       Onboarding.or_zero (Onboarding.parseFloat value) = Onboarding.Fin q)
  ∧ (∀ s, Onboarding.parseFloat value = Onboarding.Inf s →
       Onboarding.or_zero (Onboarding.parseFloat value) = Onboarding.Inf s)
  ∧ (∀ other, other ≠ child →
       (<[child := Onboarding.JNum (Onboarding.or_zero (Onboarding.parseFloat value))]>
          entries) !! other = entries !! other)
  ∧ (∀ field, field ≠ parent →
       Onboarding.handleInputChange (parent +:+ String "." child) value prev !! field
       = prev !! field).
Proof.
  intros Hp Hc Hprev.
  rewrite (handleInputChange_nested _ _ _ _ Hp Hc).
  unfold Onboarding.prop. rewrite Hprev. cbn [default Onboarding.spread].
  split; [done|]. split; [apply or_zero_not_NaN|].
  split; [by intros ->|].
  split.
  { intros q -> Hq. unfold Onboarding.or_zero, Onboarding.truthy.
    apply Qeq_bool_iff in Hq. by rewrite Hq. }
  split.
  { intros q -> Hq. unfold Onboarding.or_zero, Onboarding.truthy.
    destruct (Qeq_bool q 0) eqn:E; [|done].
    apply Qeq_bool_iff in E. contradiction. }
  split; [by intros s ->|].
  split.
  - intros other Hne. by apply lookup_insert_ne.
  - intros field Hne. by apply lookup_insert_ne.
Qed.

Lemma nested_edit_stores_a_number_witness :
  Onboarding.handleInputChange "slope_cost_adjustment.steep" "0.25"
    Onboarding.initial_formData !! "slope_cost_adjustment"
  = Some (Onboarding.JObj
            (<["steep" := Onboarding.JNum (Onboarding.Fin (1 # 4))]>
               (<["flat_low" := Onboarding.JNum (Onboarding.number 0.0)]>
               (<["moderate" := Onboarding.JNum (Onboarding.number 0.1)]>
               (<["steep" := Onboarding.JNum (Onboarding.number 0.2)]>
               (<["very_steep" := Onboarding.JNum (Onboarding.number 0.3)]> ∅))))))
  ∧ Onboarding.or_zero (Onboarding.parseFloat "") = Onboarding.Fin 0
  ∧ Onboarding.or_zero (Onboarding.parseFloat "1e400") = Onboarding.Inf false
  ∧ Onboarding.or_zero (Onboarding.parseFloat "1e-400") = Onboarding.Fin 0
  ∧ Onboarding.or_zero (Onboarding.parseFloat "0.1")
    = Onboarding.Fin (3602879701896397 # 36028797018963968).
Proof.
  destruct (nested_edit_stores_a_number "slope_cost_adjustment" "steep" "0.25"
              Onboarding.initial_formData _ eq_refl eq_refl eq_refl)
    as (Hedit & _).
  split; [|repeat split; vm_compute; reflexivity].
  change "slope_cost_adjustment.steep" with ("slope_cost_adjustment" +:+ String "." "steep").
  rewrite Hedit. rewrite lookup_insert_eq.
  assert (E : Onboarding.or_zero (Onboarding.parseFloat "0.25") = Onboarding.Fin (1 # 4)).
  { vm_compute. reflexivity. }
  by rewrite E.
Defined.

(** ** The wizard *)

Lemma mem_spec (s : string) (l : list string) : Onboarding.mem s l = true ↔ s ∈ l.
Proof.
  unfold Onboarding.mem. rewrite existsb_exists. split.
  - intros (x & Hin & Heq). apply String.eqb_eq in Heq as ->. by apply list_elem_of_In.
  - intros Hin. exists s. split; [by apply list_elem_of_In | apply String.eqb_refl].
Qed.

Lemma form_inv_initial : form_inv Onboarding.initial_formData.
Proof.
  split; try reflexivity.
  - eexists. split; [reflexivity|]. intros k. split.
    + unfold slope_keys. rewrite !elem_of_cons, elem_of_nil.
      intros [->|[->|[->|[->|[]]]]]; eexists;
        (split; [reflexivity | vm_compute; discriminate]).
    + unfold slope_keys. rewrite !elem_of_cons, elem_of_nil. intros Hk.
      rewrite !lookup_insert_ne by (intros <-; tauto). done.
  - intros f _. by left.
  - eexists. split; [reflexivity|]. unfold Onboarding.crew_scaling_options.
    rewrite !elem_of_cons. tauto.
Qed.

Lemma form_inv_plain_edit (field value : string) (d : gmap string Onboarding.jsval) :
  field ∉ ["material_costs"; "replacement_costs"; "slope_cost_adjustment";
           "crew_scaling_rule"] →
  form_inv d → form_inv (<[field := Onboarding.JStr value]> d).
Proof.
  rewrite !not_elem_of_cons. intros (H1 & H2 & H3 & H4 & _) [Hm Hr Hs Hp Hc].
  split.
  - by rewrite lookup_insert_ne.
  - by rewrite lookup_insert_ne.
  - by rewrite lookup_insert_ne.
  - intros f Hf. destruct (decide (field = f)) as [->|Hne].
    + right. exists value. apply lookup_insert_eq.
    + rewrite lookup_insert_ne by done. by apply Hp.
  - by rewrite lookup_insert_ne.
Qed.

Lemma form_inv_rule_edit (value : string) (d : gmap string Onboarding.jsval) :
  value ∈ Onboarding.crew_scaling_options →
  form_inv d → form_inv (<["crew_scaling_rule" := Onboarding.JStr value]> d).
Proof.
  intros Hv [Hm Hr Hs Hp Hc]. split.
  - by rewrite lookup_insert_ne.
  - by rewrite lookup_insert_ne.
  - by rewrite lookup_insert_ne.
  - intros f Hf. rewrite lookup_insert_ne; [by apply Hp|].
    intros <-. revert Hf. unfold plain_numbers.
    rewrite !elem_of_cons, elem_of_nil. intros [?|[?|[?|[?|[?|[]]]]]]; discriminate.
  - exists value. split; [apply lookup_insert_eq | done].
Qed.

Lemma form_inv_slope_edit (key : string) (n : Onboarding.jsnum)
    (d : gmap string Onboarding.jsval) :
  key ∈ slope_keys → n ≠ Onboarding.NaN →
  form_inv d →
  form_inv (<["slope_cost_adjustment" :=
               Onboarding.JObj (<[key := Onboarding.JNum n]>
                  (Onboarding.spread (Onboarding.prop d "slope_cost_adjustment")))]> d).
Proof.
  intros Hkey Hn [Hm Hr (adj & Hadj & Hs) Hp Hc]. split.
  - by rewrite lookup_insert_ne.
  - by rewrite lookup_insert_ne.
  - eexists. split; [apply lookup_insert_eq|].
    unfold Onboarding.prop. rewrite Hadj. cbn [default Onboarding.spread].
    intros k. split.
    + intros Hk. destruct (decide (key = k)) as [->|Hne].
      * exists n. split; [apply lookup_insert_eq | done].
      * rewrite lookup_insert_ne by done. by apply Hs.
    + intros Hk. rewrite lookup_insert_ne by (by intros <-). by apply Hs.
  - intros f Hf. rewrite lookup_insert_ne; [by apply Hp|].
    intros <-. revert Hf. unfold plain_numbers.
    rewrite !elem_of_cons, elem_of_nil. intros [?|[?|[?|[?|[?|[]]]]]]; discriminate.
  - by rewrite lookup_insert_ne.
Qed.

Lemma change_preserves (field value : string) (w : Onboarding.wizard) :
  wizard_inv w →
  Onboarding.mem field (Onboarding.inputs_at (Onboarding.step w))
  && (negb (String.eqb field "crew_scaling_rule")
      || Onboarding.mem value Onboarding.crew_scaling_options) = true →
  form_inv (Onboarding.handleInputChange field value (Onboarding.formData w)).
Proof.
  intros (Hstep & Hform & _) Hen.
  apply andb_true_iff in Hen as [Hin Hopt]. apply mem_spec in Hin.
  assert (Hcases : (Onboarding.step w = 1 ∨ Onboarding.step w = 2
                    ∨ Onboarding.step w = 3 ∨ Onboarding.step w = 4)%Z) by lia.
  destruct Hcases as [E|[E|[E|E]]]; rewrite E in Hin; cbn in Hin;
    rewrite !elem_of_cons, elem_of_nil in Hin.
  - destruct Hin as [->|[->|[->|[->|[]]]]];
      (rewrite handleInputChange_plain by reflexivity;
       apply form_inv_plain_edit; [|done];
       rewrite !not_elem_of_cons; repeat split; try discriminate; apply not_elem_of_nil).
  - destruct Hin as [->|[->|[->|[->|[]]]]].
    4:{ rewrite handleInputChange_plain by reflexivity.
        apply form_inv_rule_edit; [|done]. apply mem_spec.
        by destruct (Onboarding.mem value _). }
    all: rewrite handleInputChange_plain by reflexivity;
      apply form_inv_plain_edit; [|done];
      rewrite !not_elem_of_cons; repeat split; try discriminate; apply not_elem_of_nil.
  - destruct Hin as [->|[->|[->|[->|[]]]]].
    + change "slope_cost_adjustment.flat_low"
        with ("slope_cost_adjustment" +:+ String "." "flat_low").
      rewrite handleInputChange_nested by reflexivity.
      apply form_inv_slope_edit; [|apply or_zero_not_NaN|done].
      unfold slope_keys. rewrite !elem_of_cons. tauto.
    + change "slope_cost_adjustment.moderate"
        with ("slope_cost_adjustment" +:+ String "." "moderate").
      rewrite handleInputChange_nested by reflexivity.
      apply form_inv_slope_edit; [|apply or_zero_not_NaN|done].
      unfold slope_keys. rewrite !elem_of_cons. tauto.
    + change "slope_cost_adjustment.steep"
        with ("slope_cost_adjustment" +:+ String "." "steep").
      rewrite handleInputChange_nested by reflexivity.
      apply form_inv_slope_edit; [|apply or_zero_not_NaN|done].
      unfold slope_keys. rewrite !elem_of_cons. tauto.
    + change "slope_cost_adjustment.very_steep"
        with ("slope_cost_adjustment" +:+ String "." "very_steep").
      rewrite handleInputChange_nested by reflexivity.
      apply form_inv_slope_edit; [|apply or_zero_not_NaN|done].
      unfold slope_keys. rewrite !elem_of_cons. tauto.
  - destruct Hin as [->|[->|[]]];
      (rewrite handleInputChange_plain by reflexivity;
       apply form_inv_plain_edit; [|done];
       rewrite !not_elem_of_cons; repeat split; try discriminate; apply not_elem_of_nil).
Qed.

Lemma dispatch_preserves (ev : Onboarding.event) (w w' : Onboarding.wizard) :
  wizard_inv w → Onboarding.dispatch ev w = Some w' → wizard_inv w'.
Proof.
  intros Hinv. pose proof Hinv as (Hstep & Hform & Hdone).
  destruct ev as [field value|b]; cbn [Onboarding.dispatch].
  - destruct (_ && _) eqn:Hen; [|discriminate]. intros [= <-].
    split; [done|]. split; [|done]. by apply change_preserves.
  - destruct (existsb _ _) eqn:Hen; [|discriminate]. intros [= <-].
    assert (Hcases : (Onboarding.step w = 1 ∨ Onboarding.step w = 2
                      ∨ Onboarding.step w = 3 ∨ Onboarding.step w = 4)%Z) by lia.
    destruct Hcases as [E|[E|[E|E]]]; rewrite E in Hen; destruct b;
      try discriminate;
      (split; [cbn; lia|]); (split; [done|]); cbn; try done.
    apply Forall_app. split; [done|]. by constructor.
Qed.

Lemma run_preserves (evs : list Onboarding.event) (w w' : Onboarding.wizard) :
  wizard_inv w → Onboarding.run evs w = Some w' → wizard_inv w'.
Proof.
  revert w. induction evs as [|ev evs IH]; intros w Hinv; cbn [Onboarding.run].
  - by intros [= <-].
  - destruct (Onboarding.dispatch ev w) as [w1|] eqn:Hd; [|discriminate].
    apply IH. by apply (dispatch_preserves ev w).
Qed.

Lemma run_initial_inv (evs : list Onboarding.event) (w : Onboarding.wizard) :
  Onboarding.run evs Onboarding.initial = Some w → wizard_inv w.
Proof.
  apply run_preserves. split; [done|]. split; [apply form_inv_initial | constructor].
Qed.

(** X13: whatever the user does with the controls the wizard renders,
    starting from the first step, the step stays between 1 and 4, and the
    progress bar between 25% and 100%: [nextStep] and [prevStep] have no
    bound of their own, but no Back button is rendered at step 1 and no Next
    button at step 4. *)
Theorem wizard_step_stays_in_range (evs : list Onboarding.event)
    (w : Onboarding.wizard) :
  Onboarding.run evs Onboarding.initial = Some w →
  (1 ≤ Onboarding.step w ≤ 4)%Z
  ∧ (25 <= Onboarding.progress (Onboarding.step w) <= 100)%Q.
Proof.
  intros Hrun. apply run_initial_inv in Hrun as (Hstep & _).
  split; [done|]. unfold Onboarding.progress.
  assert (Hcases : (Onboarding.step w = 1 ∨ Onboarding.step w = 2
                    ∨ Onboarding.step w = 3 ∨ Onboarding.step w = 4)%Z) by lia.
  destruct Hcases as [-> | [-> | [-> | ->]]]; by vm_compute.
Qed.

Lemma wizard_step_stays_in_range_witness :
  Onboarding.run [Onboarding.Click Onboarding.Back] Onboarding.initial = None
  ∧ ∃ w, Onboarding.run [Onboarding.Click Onboarding.Next; Onboarding.Click Onboarding.Next;
                         Onboarding.Click Onboarding.Next] Onboarding.initial = Some w
         ∧ (1 ≤ Onboarding.step w ≤ 4)%Z.
Proof.
  split; [reflexivity|]. eexists. split; [reflexivity|].
  apply (wizard_step_stays_in_range
           [Onboarding.Click Onboarding.Next; Onboarding.Click Onboarding.Next;
            Onboarding.Click Onboarding.Next] _ eq_refl).
Defined.

(** X14: no control of the wizard edits the material or the replacement
    prices: in every state reached from the initial one, and in every
    profile handed to [onComplete], [material_costs] and
    [replacement_costs] are the initial tables. *)
Theorem prices_cannot_be_edited (evs : list Onboarding.event) (w : Onboarding.wizard) :
  Onboarding.run evs Onboarding.initial = Some w →
  Forall (λ d : gmap string Onboarding.jsval,
            d !! "material_costs" = Onboarding.initial_formData !! "material_costs"
            ∧ d !! "replacement_costs"
              = Onboarding.initial_formData !! "replacement_costs")
         (Onboarding.formData w :: Onboarding.completed w).
Proof.
  intros Hrun. apply run_initial_inv in Hrun as (_ & Hform & Hdone).
  constructor.
  - by destruct Hform.
  - eapply Forall_impl; [exact Hdone|]. intros d Hd. by destruct Hd.
Qed.

Lemma prices_cannot_be_edited_witness :
  ∃ w, Onboarding.run sample_run Onboarding.initial = Some w
       ∧ Forall (λ d : gmap string Onboarding.jsval,
                   d !! "material_costs"
                   = Onboarding.initial_formData !! "material_costs"
                   ∧ d !! "replacement_costs"
                     = Onboarding.initial_formData !! "replacement_costs")
                (Onboarding.formData w :: Onboarding.completed w).
Proof.
  assert (Hw : ∃ w, Onboarding.run sample_run Onboarding.initial = Some w)
    by (eexists; reflexivity).
  destruct Hw as [w Hrun].
  exists w. split; [done|]. exact (prices_cannot_be_edited sample_run w Hrun).
Defined.

(** X15: in every state reached from the initial one, and in every profile
    handed to [onComplete], [slope_cost_adjustment] is an object with
    exactly the four buckets, each holding a number that is not [NaN]. *)
Theorem slope_adjustments_stay_numbers (evs : list Onboarding.event)
    (w : Onboarding.wizard) :
  Onboarding.run evs Onboarding.initial = Some w →
  Forall (λ d : gmap string Onboarding.jsval,
            ∃ adj, d !! "slope_cost_adjustment" = Some (Onboarding.JObj adj)
                   ∧ slope_object adj)
         (Onboarding.formData w :: Onboarding.completed w).
Proof.
  intros Hrun. apply run_initial_inv in Hrun as (_ & Hform & Hdone).
  constructor.
  - by destruct Hform.
  - eapply Forall_impl; [exact Hdone|]. intros d Hd. by destruct Hd.
Qed.

Lemma slope_adjustments_stay_numbers_witness :
  ∃ w, Onboarding.run sample_run Onboarding.initial = Some w
       ∧ Forall (λ d : gmap string Onboarding.jsval,
                   ∃ adj, d !! "slope_cost_adjustment" = Some (Onboarding.JObj adj)
                          ∧ slope_object adj)
                (Onboarding.formData w :: Onboarding.completed w).
Proof.
  assert (Hw : ∃ w, Onboarding.run sample_run Onboarding.initial = Some w)
    by (eexists; reflexivity).
  destruct Hw as [w Hrun].
  exists w. split; [done|]. exact (slope_adjustments_stay_numbers sample_run w Hrun).
Defined.

(** X16: the labor rate, the daily productivity, the base crew size, the
    overhead and the profit margin are never parsed: in every state reached
    from the initial one, and in every profile handed to [onComplete], each
    is either its initial number or a string, the text of the input as it
    was typed. *)
Theorem edited_numbers_become_text (evs : list Onboarding.event)
    (w : Onboarding.wizard) :
  Onboarding.run evs Onboarding.initial = Some w →
  Forall (λ d : gmap string Onboarding.jsval,
            ∀ f, f ∈ plain_numbers →
                 d !! f = Onboarding.initial_formData !! f
                 ∨ ∃ text, d !! f = Some (Onboarding.JStr text))
         (Onboarding.formData w :: Onboarding.completed w).
Proof.
  intros Hrun. apply run_initial_inv in Hrun as (_ & Hform & Hdone).
  constructor.
  - by destruct Hform.
  - eapply Forall_impl; [exact Hdone|]. intros d Hd. by destruct Hd.
Qed.

Lemma edited_numbers_become_text_witness :
  ∃ w, Onboarding.run sample_run Onboarding.initial = Some w
       ∧ Onboarding.formData w !! "labor_rate" = Some (Onboarding.JStr "50")
       ∧ Forall (λ d : gmap string Onboarding.jsval,
                   ∀ f, f ∈ plain_numbers →
                        d !! f = Onboarding.initial_formData !! f
                        ∨ ∃ text, d !! f = Some (Onboarding.JStr text))
                (Onboarding.formData w :: Onboarding.completed w).
Proof.
  assert (Hw : ∃ w, Onboarding.run sample_run Onboarding.initial = Some w)
    by (eexists; reflexivity).
  destruct Hw as [w Hrun].
  assert (Hrate : option_map (λ w, Onboarding.formData w !! "labor_rate")
                    (Onboarding.run sample_run Onboarding.initial)
                  = Some (Some (Onboarding.JStr "50"))) by (vm_compute; reflexivity).
  rewrite Hrun in Hrate. injection Hrate as Hrate.
  exists w. split; [done|]. split; [exact Hrate|].
  exact (edited_numbers_become_text sample_run w Hrun).
Defined.

Lemma button_enabled_step (b : Onboarding.button) (s : Z) :
  existsb (Onboarding.button_eqb b) (Onboarding.buttons_at s) = true →
  match b with
  | Onboarding.Next => (1 ≤ s ≤ 3)%Z
  | Onboarding.Back => (2 ≤ s ≤ 4)%Z
  | Onboarding.CompleteSetup => s = 4%Z
  end.
Proof.
  unfold Onboarding.buttons_at.
  destruct (s =? 1)%Z eqn:E1, (s =? 2)%Z eqn:E2, (s =? 3)%Z eqn:E3, (s =? 4)%Z eqn:E4;
    destruct b; cbn; try discriminate; intros _; lia.
Qed.

Lemma run_completed_grows (evs : list Onboarding.event) (w0 w : Onboarding.wizard) :
  Onboarding.run evs w0 = Some w →
  length (Onboarding.completed w0) < length (Onboarding.completed w) →
  (5 ≤ Onboarding.step w0 + Z.of_nat (length evs))%Z.
Proof.
  revert w0. induction evs as [|ev evs IH]; intros w0; cbn [Onboarding.run].
  - intros [= <-]. lia.
  - destruct (Onboarding.dispatch ev w0) as [w1|] eqn:Hd; [|discriminate].
    intros Hrun Hlen. cbn [length].
    destruct ev as [field value|b]; cbn [Onboarding.dispatch] in Hd.
    + destruct (_ && _); [|discriminate]. injection Hd as <-.
      specialize (IH _ Hrun Hlen). cbn in IH. lia.
    + destruct (existsb _ _) eqn:Hen; [|discriminate]. injection Hd as <-.
      apply button_enabled_step in Hen. destruct b.
      * specialize (IH _ Hrun Hlen). cbn in IH. lia.
      * specialize (IH _ Hrun Hlen). cbn in IH. lia.
      * lia.
Qed.

(** X17: [onComplete] is called from the last step only: a run of the wizard
    from its initial state in which it is called has at least four events
    (three clicks on Next and the click on Complete Setup). *)
Theorem completion_needs_four_events (evs : list Onboarding.event)
    (w : Onboarding.wizard) :
  Onboarding.run evs Onboarding.initial = Some w →
  0 < length (Onboarding.completed w) →
  4 ≤ length evs.
Proof.
  intros Hrun Hlen.
  pose proof (run_completed_grows evs Onboarding.initial w Hrun Hlen) as H.
  cbn in H. lia.
Qed.

Lemma completion_needs_four_events_witness :
  ∃ w, Onboarding.run sample_run Onboarding.initial = Some w
       ∧ length (Onboarding.completed w) = 1
       ∧ 4 ≤ length sample_run.
Proof.
  assert (Hw : ∃ w, Onboarding.run sample_run Onboarding.initial = Some w)
    by (eexists; reflexivity).
  destruct Hw as [w Hrun].
  assert (Hlen : option_map (λ w, length (Onboarding.completed w))
                   (Onboarding.run sample_run Onboarding.initial)
                 = Some 1) by (vm_compute; reflexivity).
  rewrite Hrun in Hlen. injection Hlen as Hlen.
  exists w. split; [done|]. split; [exact Hlen|].
  apply (completion_needs_four_events sample_run w Hrun). rewrite Hlen. lia.
Defined.

(** ** Whole-string matching *)

Lemma test_Void (s : string) : JS.test JS.Void s = false.
Proof. induction s; simpl; done. Qed.

Lemma test_Eps (s : string) : JS.test JS.Eps s = true ↔ s = "".
Proof.
  destruct s; simpl; [done|]. rewrite test_Void. split; discriminate.
Qed.

Lemma test_Alt (r1 r2 : JS.regex) (s : string) :
  JS.test (JS.Alt r1 r2) s = JS.test r1 s || JS.test r2 s.
Proof. revert r1 r2. induction s as [|c s IH]; intros r1 r2; simpl; [done | apply IH]. Qed.

Lemma test_Cat (r1 r2 : JS.regex) (s : string) :
  JS.test (JS.Cat r1 r2) s = true ↔
  ∃ s1 s2, s = s1 +:+ s2 ∧ JS.test r1 s1 = true ∧ JS.test r2 s2 = true.
Proof.
  revert r1. induction s as [|c s IH]; intros r1.
  - simpl. rewrite andb_true_iff. split.
    + intros [H1 H2]. by exists "", "".
    + intros (s1 & s2 & Hs & H1 & H2). destruct s1; [|discriminate].
      destruct s2; [|discriminate]. done.
  - cbn [JS.test JS.deriv]. split.
    + intros H. destruct (JS.nullable r1) eqn:Hn.
      * rewrite test_Alt in H. apply orb_true_iff in H as [H|H].
        -- apply IH in H as (s1 & s2 & -> & H1 & H2). by exists (String c s1), s2.
        -- exists "", (String c s). by repeat split.
      * apply IH in H as (s1 & s2 & -> & H1 & H2). by exists (String c s1), s2.
    + intros (s1 & s2 & Hs & H1 & H2). destruct s1 as [|d s1].
      * change ("" +:+ s2) with s2 in Hs. subst s2. simpl in H1.
        rewrite H1, test_Alt. simpl in H2. rewrite H2. apply orb_true_r.
      * change (String d s1 +:+ s2) with (String d (s1 +:+ s2)) in Hs.
        injection Hs as <- ->. simpl in H1.
        assert (H : JS.test (JS.Cat (JS.deriv c r1) r2) (s1 +:+ s2) = true).
        { apply IH. by exists s1, s2. }
        destruct (JS.nullable r1); [|done]. rewrite test_Alt, H. done.
Qed.

Lemma test_Class (p : ascii → bool) (s : string) :
  JS.test (JS.Class p) s = true ↔ ∃ c, s = String c "" ∧ p c = true.
Proof.
  destruct s as [|c s]; simpl.
  - split; [discriminate | by intros (c & ? & _)].
  - destruct (p c) eqn:Hp.
    + rewrite test_Eps. split; [intros ->; by exists c | by intros (d & [= _ ->] & _)].
    + rewrite test_Void. split; [discriminate | intros (d & [= -> _] & ?); congruence].
Qed.

Lemma test_Star_Class (p : ascii → bool) (s : string) :
  JS.test (JS.Star (JS.Class p)) s = forallb p (list_ascii_of_string s).
Proof.
  induction s as [|c s IH]; [done|].
  cbn [JS.test JS.deriv list_ascii_of_string forallb].
  destruct (p c); cbn [andb].
  - rewrite <- IH. apply eq_true_iff_eq. rewrite test_Cat. split.
    + intros (s1 & s2 & -> & H1 & H2). apply test_Eps in H1 as ->. done.
    + intros H. exists "", s. by repeat split.
  - apply not_true_is_false. rewrite test_Cat.
    intros (s1 & s2 & _ & H1 & _). by rewrite test_Void in H1.
Qed.

Lemma test_plus_Class (p : ascii → bool) (s : string) :
  JS.test (JS.plus (JS.Class p)) s = true ↔
  s ≠ "" ∧ forallb p (list_ascii_of_string s) = true.
Proof.
  unfold JS.plus. rewrite test_Cat. split.
  - intros (s1 & s2 & -> & H1 & H2). apply test_Class in H1 as (c & -> & Hc).
    rewrite test_Star_Class in H2. change (String c "" +:+ s2) with (String c s2).
    simpl. by rewrite Hc, H2.
  - intros [Hne Hall]. destruct s as [|c s]; [done|].
    simpl in Hall. apply andb_true_iff in Hall as [Hc Hall].
    exists (String c ""), s. repeat split; [|by rewrite test_Star_Class].
    apply test_Class. by exists c.
Qed.

Lemma test_times_Class (p : ascii → bool) (n : nat) (s : string) :
  JS.test (JS.times n (JS.Class p)) s = true ↔
  String.length s = n ∧ forallb p (list_ascii_of_string s) = true.
Proof.
  revert s. induction n as [|n IH]; intros s; cbn [JS.times].
  - rewrite test_Eps. split; [by intros -> | intros [H _]; by destruct s].
  - rewrite test_Cat. split.
    + intros (s1 & s2 & -> & H1 & H2). apply test_Class in H1 as (c & -> & Hc).
      apply IH in H2 as [Hlen Hall]. change (String c "" +:+ s2) with (String c s2).
      simpl. by rewrite Hlen, Hc, Hall.
    + intros [Hlen Hall]. destruct s as [|c s]; [discriminate|].
      simpl in Hlen, Hall. apply andb_true_iff in Hall as [Hc Hall].
      exists (String c ""), s. repeat split.
      * apply test_Class. by exists c.
      * apply IH. split; [lia | done].
Qed.

Lemma test_zipRegex (zip : string) :
  JS.test Landing.zipRegex zip = true ↔
  String.length zip = 5 ∧ forallb JS.is_digit (list_ascii_of_string zip) = true.
Proof. apply test_times_Class. Qed.

Lemma test_emailRegex (address : string) :
  JS.test Landing.emailRegex address = true ↔
  ∃ name host tail,
    address = name +:+ "@" +:+ host +:+ "." +:+ tail
    ∧ plain_word name ∧ plain_word host ∧ plain_word tail.
Proof.
  unfold Landing.emailRegex, plain_word. split.
  - intros H.
    apply test_Cat in H as (name & s1 & -> & Hname & H).
    apply test_Cat in H as (at_sign & s2 & -> & Hat & H).
    apply test_Cat in H as (host & s3 & -> & Hhost & H).
    apply test_Cat in H as (dot & tail & -> & Hdot & Htail).
    apply test_Class in Hat as (c & -> & Hc). apply Ascii.eqb_eq in Hc as <-.
    apply test_Class in Hdot as (c & -> & Hc). apply Ascii.eqb_eq in Hc as <-.
    apply test_plus_Class in Hname, Hhost, Htail.
    by exists name, host, tail.
  - intros (name & host & tail & -> & Hname & Hhost & Htail).
    apply test_plus_Class in Hname, Hhost, Htail.
    apply test_Cat. exists name, ("@" +:+ host +:+ "." +:+ tail).
    split; [reflexivity|]. split; [done|].
    apply test_Cat. exists "@", (host +:+ "." +:+ tail).
    split; [reflexivity|]. split; [by apply test_Class; exists "@"%char|].
    apply test_Cat. exists host, ("." +:+ tail).
    split; [reflexivity|]. split; [done|].
    apply test_Cat. exists ".", tail.
    split; [reflexivity|]. split; [by apply test_Class; exists "."%char | done].
Qed.

(** ** The Buy Now form *)

(** X18: the ZIP check of [handleBuyNow] accepts exactly the strings of
    five decimal digits. *)
Theorem zip_check_accepts_five_digits (zip : string) :
  JS.test Landing.zipRegex zip = true ↔ five_digit_zip zip.
Proof.
  unfold Landing.zipRegex, five_digit_zip.
  apply (test_times_Class JS.is_digit 5 zip).
Qed.

(** X19: the email check of [handleBuyNow] accepts exactly the addresses
    [name@host.tail] in which [name], [host] and [tail] are not empty and
    hold neither white space nor an at sign (a dot may occur in any of
    them). *)
Theorem email_check_accepts_name_at_host_dot_tail (address : string) :
  JS.test Landing.emailRegex address = true ↔ well_formed_email address.
Proof.
  unfold well_formed_email, Landing.emailRegex, plain_word. split.
  - intros H.
    apply test_Cat in H as (name & s1 & -> & Hname & H).
    apply test_Cat in H as (at_sign & s2 & -> & Hat & H).
    apply test_Cat in H as (host & s3 & -> & Hhost & H).
    apply test_Cat in H as (dot & tail & -> & Hdot & Htail).
    apply test_Class in Hat as (c & -> & Hc). apply Ascii.eqb_eq in Hc as <-.
    apply test_Class in Hdot as (c & -> & Hc). apply Ascii.eqb_eq in Hc as <-.
    apply test_plus_Class in Hname, Hhost, Htail.
    by exists name, host, tail.
  - intros (name & host & tail & -> & Hname & Hhost & Htail).
    apply test_plus_Class in Hname, Hhost, Htail.
    apply test_Cat. exists name, ("@" +:+ host +:+ "." +:+ tail).
    split; [reflexivity|]. split; [done|].
    apply test_Cat. exists "@", (host +:+ "." +:+ tail).
    split; [reflexivity|]. split; [by apply test_Class; exists "@"%char|].
    apply test_Cat. exists host, ("." +:+ tail).
    split; [reflexivity|]. split; [done|].
    apply test_Cat. exists ".", tail.
    split; [reflexivity|]. split; [by apply test_Class; exists "."%char | done].
Qed.

Lemma email_check_accepts_name_at_host_dot_tail_witness :
  JS.test Landing.emailRegex "a.b@roofs.example.com" = true
  ∧ JS.test Landing.emailRegex "a@b" = false.
Proof.
  split; [|reflexivity].
  apply (proj2 (email_check_accepts_name_at_host_dot_tail "a.b@roofs.example.com")).
  exists "a.b", "roofs.example", "com". by repeat split.
Defined.

Lemma zip_check_accepts_five_digits_witness :
  JS.test Landing.zipRegex "10001" = true ∧ JS.test Landing.zipRegex "1000" = false.
Proof.
  split; [|reflexivity].
  apply (proj2 (zip_check_accepts_five_digits "10001")). by split.
Defined.

(** X20: a submission whose email is not well formed, or whose ZIP is not
    five digits, does nothing but show one alert: the email alert when the
    email is not well formed (whatever the ZIP is), the ZIP alert otherwise.
    The form stays open with its content, nothing is logged and no timer is
    started. *)
Theorem rejected_submission_only_alerts (p : Landing.page) :
  ¬ (well_formed_email (Landing.email p) ∧ five_digit_zip (Landing.zipcode p)) →
  ∃ message,
    Landing.handleBuyNow p = Landing.alert message p
    ∧ (¬ well_formed_email (Landing.email p) →
       message = "Please enter a valid email address")
    ∧ (well_formed_email (Landing.email p) →
       message = "Please enter a valid 5-digit ZIP code").
Proof.
  intros Hbad. unfold Landing.handleBuyNow.
  destruct (JS.test Landing.emailRegex (Landing.email p)) eqn:He.
  - apply test_emailRegex in He.
    destruct (JS.test Landing.zipRegex (Landing.zipcode p)) eqn:Hz.
    + apply test_zipRegex in Hz. by destruct Hbad.
    + eexists. split; [reflexivity|]. by split.
  - eexists. split; [reflexivity|]. split; [done|].
    intros Hgood. apply test_emailRegex in Hgood. congruence.
Qed.

Lemma rejected_submission_only_alerts_witness :
  Landing.handleBuyNow (filled_page "someone@example" "1234")
  = Landing.alert "Please enter a valid email address"
      (filled_page "someone@example" "1234").
Proof.
  assert (Hbad : ¬ well_formed_email "someone@example").
  { intros H. apply test_emailRegex in H. discriminate. }
  destruct (rejected_submission_only_alerts (filled_page "someone@example" "1234"))
    as (message & Hrun & Hemail & _).
  { by intros [H _]. }
  rewrite Hrun. f_equal. by apply Hemail.
Defined.

(** X21: a submission with a well-formed email and a five-digit ZIP closes
    the form, logs the three values and starts the timer; when the timer
    runs out the page shows the area-not-available popup, with scrolling
    locked, whatever the five digits are. *)
Theorem accepted_submission_shows_area_popup (p : Landing.page) :
  well_formed_email (Landing.email p) → five_digit_zip (Landing.zipcode p) →
  Landing.timeout (Landing.handleBuyNow p)
  = {| Landing.buyNowModal := "none";
       Landing.areaPopup := "flex";
       Landing.overflow := "hidden";
       Landing.email := Landing.email p;
       Landing.zipcode := Landing.zipcode p;
       Landing.marketing := Landing.marketing p;
       Landing.reset_values := Landing.reset_values p;
       Landing.timers := Landing.timers p;
       Landing.alerts := Landing.alerts p;
       Landing.console :=
         Landing.console p
         ++ [(Landing.email p, Landing.zipcode p, Landing.marketing p)] |}.
Proof.
  intros He Hz. apply test_emailRegex in He. apply test_zipRegex in Hz.
  unfold Landing.handleBuyNow. by rewrite He, Hz.
Qed.

Lemma accepted_submission_shows_area_popup_witness :
  Landing.areaPopup (Landing.timeout (Landing.handleBuyNow
                                        (filled_page "someone@example.com" "10001")))
  = "flex".
Proof.
  rewrite (accepted_submission_shows_area_popup
             (filled_page "someone@example.com" "10001")).
  - reflexivity.
  - exists "someone", "example", "com". by repeat split.
  - by split.
Defined.

(** X22: the Escape key closes both dialogs, unlocks scrolling and resets
    the form, but it does not stop a started timer: pressed after an
    accepted submission and before the timer runs out, it does not keep the
    area-not-available popup from opening, over a form that is then empty
    again. *)
Theorem escape_does_not_cancel_the_popup (p : Landing.page) :
  well_formed_email (Landing.email p) → five_digit_zip (Landing.zipcode p) →
  Landing.timeout (Landing.keydown "Escape" (Landing.handleBuyNow p))
  = {| Landing.buyNowModal := "none";
       Landing.areaPopup := "flex";
       Landing.overflow := "hidden";
       Landing.email := (Landing.reset_values p).1.1;
       Landing.zipcode := (Landing.reset_values p).1.2;
       Landing.marketing := (Landing.reset_values p).2;
       Landing.reset_values := Landing.reset_values p;
       Landing.timers := Landing.timers p;
       Landing.alerts := Landing.alerts p;
       Landing.console :=
         Landing.console p
         ++ [(Landing.email p, Landing.zipcode p, Landing.marketing p)] |}.
Proof.
  intros He Hz. apply test_emailRegex in He. apply test_zipRegex in Hz.
  unfold Landing.handleBuyNow. by rewrite He, Hz.
Qed.

Lemma escape_does_not_cancel_the_popup_witness :
  Landing.areaPopup
    (Landing.timeout (Landing.keydown "Escape"
       (Landing.handleBuyNow (filled_page "someone@example.com" "10001"))))
  = "flex".
Proof.
  rewrite (escape_does_not_cancel_the_popup
             (filled_page "someone@example.com" "10001")).
  - reflexivity.
  - exists "someone", "example", "com". by repeat split.
  - by split.
Defined.

(** ** The fields of the form *)

Lemma handleInputChange_dom (field value : string) (d : gmap string Onboarding.jsval)
    (s : Z) :
  (1 ≤ s ≤ 4)%Z →
  Onboarding.mem field (Onboarding.inputs_at s) = true →
  dom d = dom Onboarding.initial_formData →
  dom (Onboarding.handleInputChange field value d) = dom Onboarding.initial_formData.
Proof.
  intros Hs Hin Hdom. apply mem_spec in Hin.
  assert (Hkey : ∀ key v, key ∈ dom Onboarding.initial_formData →
                          dom (<[key := v]> d) = dom Onboarding.initial_formData).
  { intros key v Hk. rewrite dom_insert_L, Hdom.
    apply subseteq_union_1_L. by apply singleton_subseteq_l. }
  assert (Hcases : (s = 1 ∨ s = 2 ∨ s = 3 ∨ s = 4)%Z) by lia.
  destruct Hcases as [-> | [-> | [-> | ->]]]; cbn in Hin;
    rewrite !elem_of_cons, elem_of_nil in Hin.
  - destruct Hin as [->|[->|[->|[->|[]]]]];
      (rewrite handleInputChange_plain by reflexivity; apply Hkey;
       apply elem_of_dom; eexists; reflexivity).
  - destruct Hin as [->|[->|[->|[->|[]]]]];
      (rewrite handleInputChange_plain by reflexivity; apply Hkey;
       apply elem_of_dom; eexists; reflexivity).
  - destruct Hin as [->|[->|[->|[->|[]]]]].
    + change "slope_cost_adjustment.flat_low"
        with ("slope_cost_adjustment" +:+ String "." "flat_low").
      rewrite handleInputChange_nested by reflexivity. apply Hkey.
      apply elem_of_dom; eexists; reflexivity.
    + change "slope_cost_adjustment.moderate"
        with ("slope_cost_adjustment" +:+ String "." "moderate").
      rewrite handleInputChange_nested by reflexivity. apply Hkey.
      apply elem_of_dom; eexists; reflexivity.
    + change "slope_cost_adjustment.steep"
        with ("slope_cost_adjustment" +:+ String "." "steep").
      rewrite handleInputChange_nested by reflexivity. apply Hkey.
      apply elem_of_dom; eexists; reflexivity.
    + change "slope_cost_adjustment.very_steep"
        with ("slope_cost_adjustment" +:+ String "." "very_steep").
      rewrite handleInputChange_nested by reflexivity. apply Hkey.
      apply elem_of_dom; eexists; reflexivity.
  - destruct Hin as [->|[->|[]]];
      (rewrite handleInputChange_plain by reflexivity; apply Hkey;
       apply elem_of_dom; eexists; reflexivity).
Qed.

Lemma run_dom (evs : list Onboarding.event) (w w' : Onboarding.wizard) :
  wizard_inv w →
  Forall (λ d, dom d = dom Onboarding.initial_formData)
         (Onboarding.formData w :: Onboarding.completed w) →
  Onboarding.run evs w = Some w' →
  Forall (λ d, dom d = dom Onboarding.initial_formData)
         (Onboarding.formData w' :: Onboarding.completed w').
Proof.
  revert w. induction evs as [|ev evs IH]; intros w Hinv Hdom; cbn [Onboarding.run].
  { by intros [= <-]. }
  destruct (Onboarding.dispatch ev w) as [w1|] eqn:Hd; [|discriminate].
  apply IH; [by apply (dispatch_preserves ev w)|].
  apply Forall_cons in Hdom as [Hform Hdone]. destruct Hinv as (Hstep & _).
  destruct ev as [field value|b]; cbn [Onboarding.dispatch] in Hd.
  - destruct (_ && _) eqn:Hen; [|discriminate]. injection Hd as <-.
    apply andb_true_iff in Hen as [Hin _]. cbn. constructor; [|done].
    by apply (handleInputChange_dom field value _ (Onboarding.step w)).
  - destruct (existsb _ _); [|discriminate]. injection Hd as <-.
    destruct b; cbn; constructor; try done.
    apply Forall_app. split; [done | by constructor].
Qed.

(** X23: no event of the wizard adds a field to the form or removes one: in
    every state reached from the initial one, and in every profile handed to
    [onComplete], the form has exactly its thirteen initial fields; the ZIP
    is the field [primary_zip_code], and there is no field [region_zip]. *)
Theorem form_fields_are_fixed (evs : list Onboarding.event) (w : Onboarding.wizard) :
  Onboarding.run evs Onboarding.initial = Some w →
  Forall (λ d : gmap string Onboarding.jsval,
            dom d = dom Onboarding.initial_formData
            ∧ is_Some (d !! "primary_zip_code")
            ∧ d !! "region_zip" = None)
         (Onboarding.formData w :: Onboarding.completed w).
Proof.
  intros Hrun.
  assert (Hdom : Forall (λ d, dom d = dom Onboarding.initial_formData)
                   (Onboarding.formData w :: Onboarding.completed w)).
  { apply (run_dom evs Onboarding.initial w); [| |exact Hrun].
    - split; [done|]. split; [apply form_inv_initial | constructor].
    - by repeat constructor. }
  eapply Forall_impl; [exact Hdom|]. intros d Hd. split; [done|]. split.
  - apply elem_of_dom. rewrite Hd. apply elem_of_dom. eexists. reflexivity.
  - apply not_elem_of_dom. rewrite Hd. apply not_elem_of_dom. reflexivity.
Qed.

Lemma form_fields_are_fixed_witness :
  ∃ w, Onboarding.run sample_run Onboarding.initial = Some w
       ∧ Forall (λ d : gmap string Onboarding.jsval,
                   dom d = dom Onboarding.initial_formData
                   ∧ is_Some (d !! "primary_zip_code")
                   ∧ d !! "region_zip" = None)
                (Onboarding.formData w :: Onboarding.completed w).
Proof.
  assert (Hw : ∃ w, Onboarding.run sample_run Onboarding.initial = Some w)
    by (eexists; reflexivity).
  destruct Hw as [w Hrun].
  exists w. split; [done|]. exact (form_fields_are_fixed sample_run w Hrun).
Defined.
